(** * template-splits: the cleaning stage and the template-extraction scan

    A shallow embedding of
    - [preprocessing/2_cleaning.py] (row-level filters and normalisers), and
    - [preprocessing/LocalTemplate/extract_from_train_data.py]
      (label construction and the registry-building scan),
    together with the properties the specification states about them.

    Python values are modelled as follows: [str] is [string]; a call that can
    raise returns a [result]; the chemistry toolkit is an interface
    ([RDKit]); the per-site change dictionaries are [gmap Z Z]; the
    insertion-ordered registry dictionaries are association lists. *)

From Stdlib Require Import ZArith Ascii String DecimalString.
From stdpp Require Import base list gmap strings.
From Stdlib Require Import Lia.

Local Open Scope string_scope.

(** ** Python string primitives *)

Module PyStr.

(** Put a character in front of the piece being built. *)
Definition cons_head (c : ascii) (l : list string) : list string :=
  match l with
  | [] => [String c ""]
  | x :: xs => String c x :: xs
  end.

(** [s.split(sep)] for a non-empty [sep]: leftmost, non-overlapping
    occurrences.  [skip] counts the characters of a matched separator that
    are still to be dropped. *)
Fixpoint split_go (sep : string) (skip : nat) (s : string) : list string :=
  match s with
  | "" => [""]
  | String c r =>
      match skip with
      | S k => split_go sep k r
      | O =>
          if String.prefix sep s
          then "" :: split_go sep (String.length sep - 1) r
          else cons_head c (split_go sep 0 r)
      end
  end.

Definition split (sep s : string) : list string := split_go sep 0 s.

(** [sub in s] *)
Fixpoint contains (sub s : string) : bool :=
  String.prefix sub s ||
  match s with
  | "" => false
  | String _ r => contains sub r
  end.

(** [occurs_from sub a rest]: some occurrence of [sub] in [a + rest]
    starts at a character of [a]. *)
Fixpoint occurs_from (sub a rest : string) : bool :=
  match a with
  | "" => false
  | String _ a' => String.prefix sub (a +:+ rest) || occurs_from sub a' rest
  end.

(** [c in s] for a one-character pattern, character-wise. *)
Fixpoint has_char (c : ascii) (s : string) : bool :=
  match s with
  | "" => false
  | String x r => Ascii.eqb c x || has_char c r
  end.

Fixpoint count_char (c : ascii) (s : string) : nat :=
  match s with
  | "" => 0
  | String x r => (if Ascii.eqb c x then 1 else 0) + count_char c r
  end.

(** [sep.join(l)] *)
Fixpoint join (sep : string) (l : list string) : string :=
  match l with
  | [] => ""
  | [x] => x
  | x :: xs => x +:+ sep +:+ join sep xs
  end.

(** [''.join(l)] *)
Definition concat_all (l : list string) : string := join "" l.

(** [s.replace(old, new)]: every non-overlapping occurrence, left to right.
    With an empty [old] Python inserts [new] around every character. *)
Fixpoint replace_go (old new : string) (skip : nat) (s : string) : string :=
  match s with
  | "" => ""
  | String c r =>
      match skip with
      | S k => replace_go old new k r
      | O =>
          if String.prefix old s
          then new +:+ replace_go old new (String.length old - 1) r
          else String c (replace_go old new 0 r)
      end
  end.

Fixpoint intersperse_all (new s : string) : string :=
  match s with
  | "" => new
  | String c r => new +:+ String c (intersperse_all new r)
  end.

Definition replace (old new s : string) : string :=
  match old with
  | "" => intersperse_all new s
  | _ => replace_go old new 0 s
  end.

(** [s.count(sub)] for a non-empty [sub] *)
Definition count (sub s : string) : nat := length (split sub s) - 1.

End PyStr.

Import PyStr.

(** ** Exceptions and results *)

(** The exception classes the modelled code can meet.  [KeyboardInterrupt]
    and [SystemExit] derive from [BaseException] only, so an
    [except Exception] clause does not catch them. *)
Inductive exn : Type :=
  | IndexError
  | KeyError
  | TypeError
  | AttributeError
  | ArgumentError
  | Exception_ (msg : string)
  | KeyboardInterrupt
  | SystemExit.

Definition is_Exception (e : exn) : bool :=
  match e with
  | KeyboardInterrupt | SystemExit => false
  | _ => true
  end.

Inductive result (A : Type) : Type :=
  | Ok (a : A)
  | Raise (e : exn).
Arguments Ok {A} a.
Arguments Raise {A} e.

Global Instance result_ret : MRet result := fun _ a => Ok a.
Global Instance result_bind : MBind result := fun _ _ f m =>
  match m with
  | Ok a => f a
  | Raise e => Raise e
  end.

(** [l[i]] for a non-negative literal index *)
Definition index {A} (l : list A) (i : nat) : result A :=
  match l !! i with
  | Some x => Ok x
  | None => Raise IndexError
  end.

Definition returns {A} (r : result A) : Prop := exists a, r = Ok a.

(** ** The chemistry toolkit, as the cleaning stage uses it *)

Class RDKit : Type := {
  Mol : Type;
  (** [Chem.MolFromSmiles]: [None] when the text does not parse *)
  MolFromSmiles : string -> option Mol;
  (** [Chem.MolToSmiles] (isomeric SMILES, the default) *)
  MolToSmiles : Mol -> string;
  (** [mol.GetAtoms()]: the atoms are addressed by position *)
  GetNumAtoms : Mol -> nat;
  (** [a.HasProp('molAtomMapNumber')] / [a.GetProp('molAtomMapNumber')] *)
  GetAtomMapNumber : Mol -> nat -> option string;
  (** [a.ClearProp('molAtomMapNumber')], an update in place *)
  ClearAtomMapNumber : Mol -> nat -> Mol;
  (** [mol.HasSubstructMatch(Chem.MolFromSmarts("[#6]"))] *)
  HasCarbonMatch : Mol -> bool;
  (** [Chem.RemoveStereochemistry(mol)], an update in place *)
  RemoveStereochemistry : Mol -> Mol;
  (** [CalcNumHeavyAtoms(mol)] *)
  CalcNumHeavyAtoms : Mol -> Z
}.

(** ** [re.findall('\:([0-9]+)\]', s)] *)

Definition is_digit (c : ascii) : bool :=
  (48 <=? nat_of_ascii c)%nat && (nat_of_ascii c <=? 57)%nat.

Fixpoint take_digits (s : string) : string * string :=
  match s with
  | "" => ("", "")
  | String c r =>
      if is_digit c
      then let '(d, rest) := take_digits r in (String c d, rest)
      else ("", s)
  end.

(** A match starts at a colon, takes every digit that follows and needs a
    closing bracket next; since a match holds one colon only, matches never
    overlap and the scan may go on from the next character. *)
Fixpoint findall_maps (s : string) : list string :=
  match s with
  | "" => []
  | String c r =>
      (if Ascii.eqb c ":"
       then match take_digits r with
            | (String d ds, String "]" _) => [String d ds]
            | _ => []
            end
       else []) ++ findall_maps r
  end.

(** ** [2_cleaning.py] *)

Section Cleaning.
Context `{RDKit}.

Definition join_reactants_reagents (rxn_map : string) : result string :=
  if contains ">>" rxn_map then Ok rxn_map
  else
    let rxn := split ">" rxn_map in
    a ← index rxn 0; b ← index rxn 1; c ← index rxn 2;
    let full_rxn := a +:+ "." +:+ b +:+ ">>" +:+ c in
    Ok full_rxn.

Definition remove_fragment_info (rxn_map : string) : result string :=
  index (split " " rxn_map) 0.

(** The loop over [mol.GetAtoms()]: the atom list is fixed when the loop
    starts, each property is read when its atom is visited. *)
Definition visit_atom (product_maps : gset string) (st : Mol * bool) (i : nat)
  : Mol * bool :=
  let '(mol, used) := st in
  match GetAtomMapNumber mol i with
  | Some n =>
      if bool_decide (n ∈ product_maps) then (mol, true)
      else (ClearAtomMapNumber mol i, used)
  | None => (mol, used)
  end.

Definition scan_atoms (product_maps : gset string) (mol : Mol) : Mol * bool :=
  foldl (visit_atom product_maps) (mol, false) (seq 0 (GetNumAtoms mol)).

Fixpoint keep_used (product_maps : gset string) (reactants : list string)
  : list string :=
  match reactants with
  | [] => []
  | smiles :: rest =>
      match MolFromSmiles smiles with
      | None => keep_used product_maps rest
      | Some mol =>
          let '(mol', used) := scan_atoms product_maps mol in
          if used then MolToSmiles mol' :: keep_used product_maps rest
          else keep_used product_maps rest
      end
  end.

Definition remove_reagents (rxn_map : string) : result string :=
  r ← index (split ">>" rxn_map) 0;
  let reactants := split "." r in
  product ← index (split ">>" rxn_map) 1;
  let product_maps : gset string := list_to_set (findall_maps product) in
  let new_reactants := keep_used product_maps reactants in
  let new_rxn_map := join "." new_reactants +:+ ">>" +:+ product in
  Ok new_rxn_map.

Definition reactant_count_filter (rxn_map : string) : result string :=
  r ← index (split ">>" rxn_map) 0;
  let reactants := split "." r in
  let count := length reactants in
  if (count <? 5)%nat && (1 <=? count)%nat then Ok rxn_map
  else Ok "Error: too many reactants".

(** [CalcNumHeavyAtoms(None)] is rejected by the binding. *)
Definition heavy_atoms (mol : option Mol) : result Z :=
  match mol with
  | Some m => Ok (CalcNumHeavyAtoms m)
  | None => Raise ArgumentError
  end.

Fixpoint map_result {A B} (f : A -> result B) (l : list A) : result (list B) :=
  match l with
  | [] => Ok []
  | x :: xs => y ← f x; ys ← map_result f xs; Ok (y :: ys)
  end.

Fixpoint enumerate_from {A} (k : nat) (l : list A) : list (nat * A) :=
  match l with
  | [] => []
  | x :: xs => (k, x) :: enumerate_from (S k) xs
  end.
Definition enumerate {A} (l : list A) : list (nat * A) := enumerate_from 0 l.

(** [[products[i] for i, b in enumerate(prod_bools) if b]] *)
Fixpoint select_flagged (products : list string) (ibs : list (nat * bool))
  : result (list string) :=
  match ibs with
  | [] => Ok []
  | (i, b) :: rest =>
      if b
      then p ← index products i; ps ← select_flagged products rest; Ok (p :: ps)
      else select_flagged products rest
  end.

Definition multiproduct_fixer (rxn_map : string) : result string :=
  seg ← index (split ">>" rxn_map) 1;
  let products := split "." seg in
  if (1 <? length products)%nat then
    let prod_mols := map MolFromSmiles products in
    match map_result heavy_atoms prod_mols with
    | Raise _ => Ok "Error: invalid product"
    | Ok prod_atoms =>
        let prod_bools := map (fun atoms => (5 <? atoms)%Z) prod_atoms in
        new_prods ← select_flagged products (enumerate prod_bools);
        if (length new_prods =? 1)%nat then
          r ← index (split ">>" rxn_map) 0;
          p ← index new_prods 0;
          let new_rxn_map := r +:+ ">>" +:+ p in
          Ok new_rxn_map
        else Ok "Error: too many products"
    end
  else
    p0 ← index products 0;
    match MolFromSmiles p0 with
    | Some _ => Ok rxn_map
    | None => Ok "Error: product smiles error"
    end.

(** [mol] is [None] when the product does not parse, and [None] has no
    method [HasSubstructMatch]. *)
Definition no_carbon (rxn_map : string) : result string :=
  prod ← index (split ">>" rxn_map) 1;
  match MolFromSmiles prod with
  | None => Raise AttributeError
  | Some mol =>
      if HasCarbonMatch mol then Ok rxn_map
      else Ok "Error: no organic product"
  end.

Definition remove_stereoalchemy (rxn : string) : result string :=
  r ← index (split ">>" rxn) 0;
  p ← index (split ">>" rxn) 1;
  if contains "@" p then
    if negb (contains "@" r) then
      match MolFromSmiles p with
      | None => Raise ArgumentError
      | Some p_mol =>
          let p_mol := RemoveStereochemistry p_mol in
          let new_p := MolToSmiles p_mol in
          Ok (replace p new_p rxn)
      end
    else Ok rxn
  else Ok rxn.

Definition product_in_reactants (rxn_map : string) : result string :=
  product ← index (split ">>" rxn_map) 1;
  r ← index (split ">>" rxn_map) 0;
  let reactants := split "." r in
  if bool_decide (product ∈ reactants) then Ok "Error: product in reactants"
  else Ok rxn_map.

Definition size_filter (rxn : string) : bool := (512 <? String.length rxn)%nat.

End Cleaning.

(** ** [LocalTemplate/extract_from_train_data.py] *)

(** Entries of the edit lists (atom indices, bonds as pairs, ...). *)
Inductive pyobj : Type :=
  | PyInt (z : Z)
  | PyPair (a b : Z)
  | PyText (s : string).

(** [edits[edit_type]] is a 3-tuple of lists; the scan reads its
    components [0] and [2]. *)
Definition edit_entry : Type := list pyobj * list pyobj * list pyobj.

(** Modelled from the spec: the dictionary returned by the extractor of
    [LocalTemplate/template_extractor.py], which is not among the sources:
    a structured result with the reaction pattern, the edits per edit type
    and the per-site changes of hydrogen count, charge and chirality.  It is
    typed as [extract_templates] reads it; a key may be missing. *)
Record extraction : Type := {
  res_reactants : option string;
  res_reaction_smarts : option string;
  res_edits : option (list (string * edit_entry));
  res_H_change : option (gmap Z Z);
  res_Charge_change : option (gmap Z Z);
  res_Chiral_change : option (gmap Z Z)
}.

(** [{'reactants': ..., 'products': ..., '_id': ...}] *)
Record reaction : Type := {
  reactants : string;
  products : string;
  _id : nat
}.

(** The options [extract_templates] reads, by truth value. *)
Record settings : Type := {
  use_stereo : bool;
  retro : bool
}.

(** An extractor returns a dictionary or [None], or raises. *)
Definition extractor_t : Type := reaction -> result (option extraction).

(** [str(z)] for an [int] *)
Definition str (z : Z) : string := NilZero.string_of_int (Z.to_int z).

(** [d[k]] on a dictionary with a possibly missing key *)
Definition getitem {A} (o : option A) : result A :=
  match o with
  | Some a => Ok a
  | None => Raise KeyError
  end.

(** [''.join([str(d[k+1]) for k in range(len(d))])] *)
Definition change_code (d : gmap Z Z) : result string :=
  codes ← map_result (fun k : nat => v ← getitem (d !! (Z.of_nat k + 1)%Z); Ok (str v))
                     (seq 0 (size d));
  Ok (concat_all codes).

Definition get_reaction_template (extractor : extractor_t) (rxn : string) (_id : nat)
  : result (reaction * option extraction) :=
  r ← index (split ">>" rxn) 0;
  p ← index (split ">>" rxn) 1;
  let rxn := {| reactants := r; products := p; _id := _id |} in
  result ← extractor rxn;
  Ok (rxn, result).

Definition get_full_template (template : string)
    (H_change Charge_change Chiral_change : gmap Z Z) : result string :=
  H_code ← change_code H_change;
  Charge_code ← change_code Charge_change;
  Chiral_code ← change_code Chiral_change;
  if String.eqb Chiral_code "" then
    Ok (join "_" [template; H_code; Charge_code])
  else
    Ok (join "_" [template; H_code; Charge_code; Chiral_code]).

(** What one record contributes once its label is built. *)
Record sighting : Type := {
  template_H : string;
  edits : list (string * edit_entry);
  H_change : gmap Z Z;
  Charge_change : gmap Z Z;
  Chiral_change : gmap Z Z
}.

(** Lines 65-76: everything in the [try] block up to the label.  Nothing is
    stored before the label exists. *)
Definition read_record (args : settings) (extractor : extractor_t)
    (i : nat) (reaction : string) : result sighting :=
  '(rxn, result) ← get_reaction_template extractor reaction i;
  match result with
  | None => Raise TypeError
  | Some result =>
      if negb (bool_decide (is_Some (res_reactants result)))
         || negb (bool_decide (is_Some (res_reaction_smarts result)))
      then Raise (Exception_ "template problem")
      else
        template ← getitem (res_reaction_smarts result);
        edits ← getitem (res_edits result);
        H_change ← getitem (res_H_change result);
        Charge_change ← getitem (res_Charge_change result);
        Chiral_change ← (if use_stereo args
                          then getitem (res_Chiral_change result)
                          else Ok ∅);
        template_H ← get_full_template template H_change Charge_change Chiral_change;
        Ok {| template_H := template_H; edits := edits; H_change := H_change;
              Charge_change := Charge_change; Chiral_change := Chiral_change |}
  end.

(** The dictionaries and the label list the scan fills.  [TemplateHs] gives
    the rows their order, so it keeps its keys in insertion order; the other
    dictionaries are only read by key. *)
Record registry : Type := {
  TemplateEdits : gmap string (list (string * list pyobj));
  TemplateCs : gmap string (gmap Z Z);
  TemplateHs : list (string * gmap Z Z);
  TemplateSs : gmap string (gmap Z Z);
  TemplateFreq : gmap string Z;
  templates_A : gmap string Z;
  templates_B : gmap string Z;
  template_labels : list string
}.

Definition empty_registry : registry :=
  {| TemplateEdits := ∅; TemplateCs := ∅; TemplateHs := []; TemplateSs := ∅;
     TemplateFreq := ∅; templates_A := ∅; templates_B := ∅;
     template_labels := [] |}.

(** [d.keys()] of an insertion-ordered dictionary *)
Definition keys {V} (d : list (string * V)) : list string := map fst d.

(** [d[k] = v] on an insertion-ordered dictionary *)
Fixpoint setitem {V} (k : string) (v : V) (d : list (string * V)) : list (string * V) :=
  match d with
  | [] => [(k, v)]
  | (k', v') :: rest =>
      if String.eqb k k' then (k, v) :: rest else (k', v') :: setitem k v rest
  end.

Fixpoint lookup_item {V} (k : string) (d : list (string * V)) : option V :=
  match d with
  | [] => None
  | (k', v') :: rest => if String.eqb k k' then Some v' else lookup_item k rest
  end.

(** [d[k] += 1] on a [defaultdict(int)] *)
Definition incr (k : string) (d : gmap string Z) : gmap string Z :=
  <[k := (default 0 (d !! k) + 1)%Z]> d.

(** Lines 86-102: the atom/bond template counters, kept for the progress
    line only. *)
Definition count_edit (args : settings) (template_H : string)
    (ab : gmap string Z * gmap string Z) (e : string * edit_entry)
  : gmap string Z * gmap string Z :=
  let '(tA, tB) := ab in
  let '(edit_type, (bonds, _, _)) := e in
  if (0 <? length bonds)%nat then
    if retro args then
      if bool_decide (edit_type ∈ ["A"; "R"]) then (incr template_H tA, tB)
      else (tA, incr template_H tB)
    else
      if negb (String.eqb edit_type "A")
      then (incr (template_H +:+ "_" +:+ edit_type) tA, tB)
      else (tA, incr (template_H +:+ "_" +:+ edit_type) tB)
  else (tA, tB).

(** Lines 77-102: the stores of a successful record.  On the typed result
    none of them can raise. *)
Definition record_sighting (args : settings) (st : registry) (sg : sighting) : registry :=
  let L := template_H sg in
  let fresh := negb (bool_decide (L ∈ keys (TemplateHs st))) in
  let '(tA, tB) := foldl (count_edit args L) (templates_A st, templates_B st) (edits sg) in
  {| TemplateEdits :=
       if fresh
       then <[L := map (fun e : string * edit_entry => (e.1, e.2.2)) (edits sg)]> (TemplateEdits st)
       else TemplateEdits st;
     TemplateHs := if fresh then setitem L (H_change sg) (TemplateHs st) else TemplateHs st;
     TemplateCs := if fresh then <[L := Charge_change sg]> (TemplateCs st) else TemplateCs st;
     TemplateSs := if fresh then <[L := Chiral_change sg]> (TemplateSs st) else TemplateSs st;
     TemplateFreq := incr L (TemplateFreq st);
     templates_A := tA;
     templates_B := tB;
     template_labels := template_labels st ++ [L] |}.

Definition record_failure (st : registry) : registry :=
  {| TemplateEdits := TemplateEdits st; TemplateCs := TemplateCs st;
     TemplateHs := TemplateHs st; TemplateSs := TemplateSs st;
     TemplateFreq := TemplateFreq st;
     templates_A := templates_A st; templates_B := templates_B st;
     template_labels := template_labels st ++ ["NaN"] |}.

(** How a scan ends: it runs on, the process exits on an interrupt
    ([os._exit(0)]), or an uncaught exception reaches the caller. *)
Inductive scan (A : Type) : Type :=
  | Running (a : A)
  | Exited
  | Propagated (e : exn).
Arguments Running {A} a.
Arguments Exited {A}.
Arguments Propagated {A} e.

(** One turn of the loop, with its two [except] clauses in order. *)
Definition scan_record (args : settings) (extractor : extractor_t)
    (st : registry) (ir : nat * string) : scan registry :=
  match read_record args extractor ir.1 ir.2 with
  | Ok sg => Running (record_sighting args st sg)
  | Raise KeyboardInterrupt => Exited
  | Raise e => if is_Exception e then Running (record_failure st) else Propagated e
  end.

Fixpoint scan_records (args : settings) (extractor : extractor_t)
    (st : registry) (irs : list (nat * string)) : scan registry :=
  match irs with
  | [] => Running st
  | ir :: rest =>
      match scan_record args extractor st ir with
      | Running st' => scan_records args extractor st' rest
      | Exited => Exited
      | Propagated e => Propagated e
      end
  end.

(** A row of the template table. *)
Record info_row : Type := {
  Template : string;
  edit_site : list (string * list pyobj);
  change_H : gmap Z Z;
  change_C : gmap Z Z;
  change_S : gmap Z Z;
  Frequency : Z
}.

(** Line 118: one row per key of [TemplateHs]. *)
Definition make_row (st : registry) (k : string) : result info_row :=
  e ← getitem (TemplateEdits st !! k);
  h ← getitem (lookup_item k (TemplateHs st));
  c ← getitem (TemplateCs st !! k);
  s ← getitem (TemplateSs st !! k);
  Ok {| Template := k; edit_site := e; change_H := h; change_C := c; change_S := s;
        Frequency := default 0%Z (TemplateFreq st !! k) |}.

Definition extract_templates (rxns : list string) (args : settings)
    (extractor : extractor_t) : scan (list info_row * list string) :=
  match scan_records args extractor empty_registry (enumerate rxns) with
  | Running st =>
      match map_result (make_row st) (keys (TemplateHs st)) with
      | Ok template_infos => Running (template_infos, template_labels st)
      | Raise e => Propagated e
      end
  | Exited => Exited
  | Propagated e => Propagated e
  end.

(** ** A small toolkit instance and a small extractor

    A molecule is a sequence of atoms; an atom is an upper-case symbol,
    bare or in brackets with an optional [@] mark and an optional map
    number ([C], [[C@]], [[C:12]], [[C@:12]]).  These instances give the
    statements below concrete inputs to run on. *)

Module Toy.

Record atom : Type := {
  symbol : ascii;
  chiral : bool;
  mapnum : option string
}.

Definition is_upper (c : ascii) : bool :=
  (65 <=? nat_of_ascii c)%nat && (nat_of_ascii c <=? 90)%nat.

(** Where the reader stands: between atoms, or inside a bracket with what
    it has read of the atom so far. *)
Inductive reader : Type :=
  | Outside
  | Opened
  | Inside (a : atom).

Fixpoint read (st : reader) (s : string) : option (list atom) :=
  match s with
  | "" => match st with Outside => Some [] | _ => None end
  | String c r =>
      match st with
      | Outside =>
          if is_upper c
          then cons {| symbol := c; chiral := false; mapnum := None |} <$> read Outside r
          else if Ascii.eqb c "[" then read Opened r
          else None
      | Opened =>
          if is_upper c
          then read (Inside {| symbol := c; chiral := false; mapnum := None |}) r
          else None
      | Inside a =>
          if Ascii.eqb c "]" then
            match mapnum a with
            | Some "" => None
            | _ => cons a <$> read Outside r
            end
          else if Ascii.eqb c "@" then
            match mapnum a with
            | None => read (Inside {| symbol := symbol a; chiral := true; mapnum := None |}) r
            | Some _ => None
            end
          else if Ascii.eqb c ":" then
            match mapnum a with
            | None => read (Inside {| symbol := symbol a; chiral := chiral a; mapnum := Some "" |}) r
            | Some _ => None
            end
          else if is_digit c then
            match mapnum a with
            | Some d => read (Inside {| symbol := symbol a; chiral := chiral a;
                                        mapnum := Some (d +:+ String c "") |}) r
            | None => None
            end
          else None
      end
  end.

Definition write_atom (a : atom) : string :=
  match chiral a, mapnum a with
  | false, None => String (symbol a) ""
  | true, None => "[" +:+ String (symbol a) "@]"
  | false, Some n => "[" +:+ String (symbol a) ":" +:+ n +:+ "]"
  | true, Some n => "[" +:+ String (symbol a) "@:" +:+ n +:+ "]"
  end.

Definition unmap (a : atom) : atom :=
  {| symbol := symbol a; chiral := chiral a; mapnum := None |}.

Definition flatten (a : atom) : atom :=
  {| symbol := symbol a; chiral := false; mapnum := mapnum a |}.

Global Instance rdkit : RDKit := {|
  Mol := list atom;
  MolFromSmiles := read Outside;
  MolToSmiles := fun m => concat_all (map write_atom m);
  GetNumAtoms := fun m => length m;
  GetAtomMapNumber := fun m i => m !! i ≫= mapnum;
  ClearAtomMapNumber := fun m i => alter unmap i m;
  HasCarbonMatch := fun m => existsb (fun a => Ascii.eqb (symbol a) "C") m;
  RemoveStereochemistry := fun m => map flatten m;
  CalcNumHeavyAtoms := fun m =>
    Z.of_nat (length (filter (fun a => symbol a ≠ "H"%char) m))
|}.

(** An extractor that fails on an empty product, raises on the reactant
    text [boom] and otherwise returns a full result whose label depends on
    the two segments only, while the hydrogen-change dictionary differs
    between even and odd records. *)
Definition extractor : extractor_t := fun rxn =>
  if String.eqb (reactants rxn) "boom" then Raise TypeError
  else if String.eqb (products rxn) "" then
    Ok (Some {| res_reactants := None; res_reaction_smarts := None; res_edits := None;
                res_H_change := None; res_Charge_change := None;
                res_Chiral_change := None |})
  else
    Ok (Some {|
      res_reactants := Some (reactants rxn);
      res_reaction_smarts := Some (products rxn +:+ ">>" +:+ reactants rxn);
      res_edits := Some [("A", ([PyInt 1], [PyInt 1], [PyInt (Z.of_nat (_id rxn))]));
                         ("B", ([], [], []))];
      res_H_change := Some (if Nat.even (_id rxn)
                            then {[ 1%Z := 1%Z; 2%Z := 0%Z ]}
                            else {[ 1%Z := 10%Z ]});
      res_Charge_change := Some {[ 1%Z := (-1)%Z ]};
      res_Chiral_change := Some (if String.eqb (reactants rxn) "flat" then ∅
                                 else {[ 1%Z := 2%Z ]}) |}).

(** The same extractor under an operator who interrupts at [stop]. *)
Definition interrupted_extractor : extractor_t := fun rxn =>
  if String.eqb (reactants rxn) "stop" then Raise KeyboardInterrupt
  else extractor rxn.

Definition args : settings := {| use_stereo := true; retro := true |}.

Definition rxns : list string :=
  ["A>>B"; "A>>B"; "boom>>X"; "nosep"; "A>>"; "C>>D"].


End Toy.


(** ** Vocabulary of the statements *)

Section Vocabulary.
Context `{RDKit}.

(** A reaction text in merged form holds the role separator pair. *)
Definition merged_form (rxn : string) : Prop := contains ">>" rxn = true.

(** The number of reactant compounds, as [reactant_count_filter] counts. *)
Definition reactant_count (rxn : string) : nat :=
  match split ">>" rxn with
  | r :: _ => length (split "." r)
  | [] => 0
  end.

(** A compound that parses. *)
Definition parses (s : string) : Prop := is_Some (MolFromSmiles s).

Definition heavy_count (s : string) : option Z := CalcNumHeavyAtoms <$> MolFromSmiles s.

(** A product compound survives when its heavy-atom count exceeds 5. *)
Definition survives (s : string) : bool :=
  match heavy_count s with
  | Some n => (5 <? n)%Z
  | None => false
  end.

Definition survivors (products : list string) : list string :=
  List.filter survives products.





End Vocabulary.

(** The label a record contributes to the label sequence. *)
Definition label_of (o : result sighting) : string :=
  match o with
  | Ok sg => template_H sg
  | Raise _ => "NaN"
  end.

(** The outcome [o] is a success with label [k]. *)
Definition produces (k : string) (o : result sighting) : Prop :=
  match o with
  | Ok sg => template_H sg = k
  | Raise _ => False
  end.

Global Instance produces_dec k o : Decision (produces k o).
Proof. destruct o; simpl; apply _. Defined.

(** The outcome is a failure the scan absorbs. *)
Definition absorbed (o : result sighting) : Prop :=
  match o with
  | Ok _ => True
  | Raise e => is_Exception e = true
  end.

(** What a numbered record yields. *)
Definition outcome (args : settings) (extractor : extractor_t) (ir : nat * string)
  : result sighting :=
  read_record args extractor ir.1 ir.2.

(** What each record of the input yields, in input order. *)
Definition outcomes (args : settings) (extractor : extractor_t) (rxns : list string)
  : list (result sighting) :=
  map (outcome args extractor) (enumerate rxns).

(** The edit sites stored for a label. *)
Definition sites_of (sg : sighting) : list (string * list pyobj) :=
  map (fun e : string * edit_entry => (e.1, e.2.2)) (edits sg).


(** The first record that yields the label [k], with its position. *)
Definition first_sighting (k : string) (os : list (result sighting))
  : option (nat * result sighting) :=
  list_find (produces k) os.

(** How many records yield the label [k]. *)
Definition sightings (k : string) (os : list (result sighting)) : nat :=
  length (filter (produces k) os).

Definition succeeded (o : result sighting) : Prop :=
  match o with
  | Ok _ => True
  | Raise _ => False
  end.

Global Instance succeeded_dec o : Decision (succeeded o).
Proof. destruct o; simpl; apply _. Defined.

Definition sumZ (l : list Z) : Z := foldr Z.add 0%Z l.

(** [TemplateFreq[k]], read with the default of a [defaultdict(int)] *)
Definition freq (st : registry) (k : string) : Z := default 0%Z (TemplateFreq st !! k).

(** What the dictionaries hold once the records with outcomes [os] have been
    scanned. *)
Record registry_inv (st : registry) (os : list (result sighting)) : Prop := {
  inv_labels : template_labels st = map label_of os;
  inv_nodup : NoDup (keys (TemplateHs st));
  inv_meta : forall k,
    match first_sighting k os with
    | Some (_, Ok sg) =>
        TemplateEdits st !! k = Some (sites_of sg)
        /\ lookup_item k (TemplateHs st) = Some (H_change sg)
        /\ TemplateCs st !! k = Some (Charge_change sg)
        /\ TemplateSs st !! k = Some (Chiral_change sg)
    | _ => lookup_item k (TemplateHs st) = None
    end;
  inv_freq : forall k, freq st k = Z.of_nat (sightings k os)
}.

(** ** Further vocabulary *)

(** A text made of decimal digits only. *)
Fixpoint all_digits (s : string) : bool :=
  match s with
  | "" => true
  | String c r => is_digit c && all_digits r
  end.

(** A text the orchestrator drops after a filter stage:
    [df["rxn_map"].str.contains("Error")]. *)
Definition tagged_error (s : string) : bool := contains "Error" s.

(** A change dictionary whose keys are exactly [1 .. len(d)]. *)
Definition keyed_from_one (d : gmap Z Z) : Prop :=
  forall k : Z, is_Some (d !! k) <-> (1 <= k <= Z.of_nat (size d))%Z.

(** The position at which a label first occurs in the label sequence. *)
Definition first_index (l : string) (labels : list string) : option nat :=
  fst <$> list_find (fun x => x = l) labels.

(** The keys of [TemplateHs] stand in the order in which their labels were
    first produced. *)
Definition keys_in_order (st : registry) (os : list (result sighting)) : Prop :=
  forall m n k1 k2 i1 i2 o1 o2,
    m < n ->
    keys (TemplateHs st) !! m = Some k1 ->
    keys (TemplateHs st) !! n = Some k2 ->
    first_sighting k1 os = Some (i1, o1) ->
    first_sighting k2 os = Some (i2, o2) ->
    i1 < i2.

(** The part of the registry that reaches the caller: everything except the
    two counters of the progress line. *)
Definition core (st : registry) :=
  (TemplateEdits st, TemplateCs st, TemplateHs st, TemplateSs st,
   TemplateFreq st, template_labels st).

Definition scan_map {A B} (f : A -> B) (s : scan A) : scan B :=
  match s with
  | Running a => Running (f a)
  | Exited => Exited
  | Propagated e => Propagated e
  end.

(** ** [build_template_extractor] *)

(** The option values that occur: [True]/[False], integers, texts, [None]. *)
Inductive pyval : Type :=
  | PVBool (b : bool)
  | PVInt (z : Z)
  | PVStr (s : string)
  | PVNone.

Global Instance pyval_eq_dec : EqDecision pyval.
Proof. solve_decision. Defined.

(** [if v:] *)
Definition truthy (v : pyval) : bool :=
  match v with
  | PVBool b => b
  | PVInt z => negb (z =? 0)%Z
  | PVStr s => negb (String.eqb s "")
  | PVNone => false
  end.

(** The defaults of line 30, in the order of the literal. *)
Definition default_setting : list (string * pyval) :=
  [("verbose", PVBool false); ("use_stereo", PVBool false);
   ("use_symbol", PVBool false); ("max_unmap", PVInt 5);
   ("retro", PVBool false); ("remote", PVBool true);
   ("least_atom_num", PVInt 2)].

(** One turn of [for k in setting.keys(): if k in args.keys(): ...] *)
Definition override (args : gmap string pyval) (setting : gmap string pyval)
    (k : string) : gmap string pyval :=
  match args !! k with
  | Some v => <[k := v]> setting
  | None => setting
  end.

(** Lines 30-35: the dictionary [setting] the extractor is closed over. *)
Definition build_setting (args : gmap string pyval) : result (gmap string pyval) :=
  let setting := foldl (override args) (list_to_map default_setting)
                       (default_setting.*1) in
  retro ← getitem (args !! "retro");
  Ok (if truthy retro then <["use_symbol" := PVBool true]> setting else setting).

(** [extract_from_reaction] lives in [LocalTemplate/template_extractor.py],
    which is not among the sources, and is taken as a parameter. *)
Definition build_template_extractor
    (extract_from_reaction : reaction -> gmap string pyval -> result (option extraction))
    (args : gmap string pyval) : result extractor_t :=
  setting ← build_setting args;
  Ok (fun x => extract_from_reaction x setting).

(** The default of a key of [setting]. *)
Definition default_of (k : string) : option pyval :=
  (list_to_map default_setting : gmap string pyval) !! k.

(** ** [untangle_tildes] *)

(** The bonds of a molecule, as [untangle_tildes] reads them. *)
Class RDKitBonds `{RDKit} : Type := {
  (** [(b.GetIdx(), str(b.GetBondType()))] for [b] in [mol.GetBonds()] *)
  GetBonds : Mol -> list (nat * string);
  (** [Chem.FragmentOnBonds(mol, bonds)] *)
  FragmentOnBonds : Mol -> list nat -> result Mol
}.

(** [re.sub(r'\[\d+\*\]', '', s)] on ASCII text.  A match starts at an
    opening bracket, takes every digit that follows (at least one) and needs
    [*]] next; [skip] counts the characters of a match still to be
    dropped. *)
Fixpoint sub_dummies_go (skip : nat) (s : string) : string :=
  match s with
  | "" => ""
  | String c r =>
      match skip with
      | S k => sub_dummies_go k r
      | O =>
          if Ascii.eqb c "["
          then match take_digits r with
               | (String d ds, String "*" (String "]" _)) =>
                   sub_dummies_go (String.length (String d ds) + 2) r
               | _ => String c (sub_dummies_go 0 r)
               end
          else String c (sub_dummies_go 0 r)
      end
  end.

Definition sub_dummies (s : string) : string := sub_dummies_go 0 s.

Section Untangle.
Context `{RDKitBonds}.

(** Lines 45-52, the body of the [try]; [None] has no method [GetBonds]. *)
Definition fragment_on_tildes (mol : string) : result string :=
  match MolFromSmiles mol with
  | None => Raise AttributeError
  | Some mols =>
      let tilde_list :=
        (filter (fun b : nat * string => b.2 = "UNSPECIFIED") (GetBonds mols)).*1 in
      mols ← FragmentOnBonds mols tilde_list;
      let smiles := MolToSmiles mols in
      Ok (replace "()" "" (replace "*" "" (replace "~" "" (sub_dummies smiles))))
  end.

(** Lines 43-58, one turn of the inner loop.  The bare [except] catches
    whatever the [try] raises. *)
Definition untangle_mol (mol : string) : string :=
  if contains "~" mol then
    match fragment_on_tildes mol with
    | Ok smiles => smiles
    | Raise _ => replace "~" "." mol
    end
  else mol.

Definition untangle_side (side : string) : string :=
  join "." (map untangle_mol (split "." side)).

Definition untangle_tildes (rxn_map : string) : result string :=
  let rxn := split ">" rxn_map in
  let new_rxn := map untangle_side rxn in
  a ← index new_rxn 0; b ← index new_rxn 1; c ← index new_rxn 2;
  let full_rxn := a +:+ ">" +:+ b +:+ ">" +:+ c in
  Ok full_rxn.

End Untangle.

(** ** [canonicalise] and [remove_mapping] *)

(** The calls into [rxn.chemutils] and the validity check of the toolkit.
    Each of them may raise. *)
Class RxnChemUtils : Type := {
  ReactionEquation : Type;
  (** [parse_extended_reaction_smiles(s, remove_atom_maps=b)] *)
  parse_extended_reaction_smiles : string -> bool -> result ReactionEquation;
  canonicalize_compounds : ReactionEquation -> result ReactionEquation;
  sort_compounds : ReactionEquation -> result ReactionEquation;
  cleanup_compounds : ReactionEquation -> result ReactionEquation;
  (** [to_reaction_smiles(eq, ReactionFormat.STANDARD_WITH_TILDE)] *)
  to_reaction_smiles : ReactionEquation -> result string;
  ReactionFromSmarts : string -> result unit
}.

Section Canonical.
Context `{RxnChemUtils}.

Definition canonicalise (rxn_map : string) : string :=
  match
    (reacteq ← parse_extended_reaction_smiles rxn_map false;
     canonical ← canonicalize_compounds reacteq;
     std_rxn ← sort_compounds canonical;
     to_reaction_smiles std_rxn)
  with
  | Ok new_rxn_map =>
      match ReactionFromSmarts new_rxn_map with
      | Ok _ => new_rxn_map
      | Raise _ => "Error: smarts"
      end
  | Raise _ => "Error: during canonicalisation"
  end.

Definition remove_mapping (rxn_map : string) : string :=
  match
    (reacteq ← parse_extended_reaction_smiles rxn_map true;
     reacteq ← cleanup_compounds reacteq;
     canonical ← canonicalize_compounds reacteq;
     std_rxn ← sort_compounds canonical;
     to_reaction_smiles std_rxn)
  with
  | Ok rxn =>
      match ReactionFromSmarts rxn with
      | Ok _ => rxn
      | Raise _ => "Error: smarts"
      end
  | Raise _ => "Error: mapping"
  end.

End Canonical.

(** ** [clean_dataset] *)

(** A row of the frame: the index [dataset_id], the cell [rxn_map], the
    cell [canonic_rxn], and the cells of the other columns, which the
    function carries along.  [M] is [option string] for the file as read
    (a missing cell is [None]) and [string] once the first filter has
    passed; [C] is [unit] until the column [canonic_rxn] is created. *)
Record row (M C : Type) : Type := {
  dataset_id : Z;
  rxn_map : M;
  canonic_rxn : C;
  columns : list (string * string)
}.
Arguments dataset_id {M C} _.
Arguments rxn_map {M C} _.
Arguments canonic_rxn {M C} _.
Arguments columns {M C} _.

Definition frame (M C : Type) : Type := list (row M C).

(** [df[df["rxn_map"].str.count(">")==2]]: the count of a missing cell is
    missing and compares unequal. *)
Definition count_is_two (df : frame (option string) unit) : frame string unit :=
  omap (fun r =>
          match rxn_map r with
          | Some s =>
              if (count_char ">" s =? 2)%nat
              then Some {| dataset_id := dataset_id r; rxn_map := s;
                           canonic_rxn := tt; columns := columns r |}
              else None
          | None => None
          end) df.

(** [df.drop_duplicates(column)]: the first row of each value stays. *)
Fixpoint drop_duplicates_go {R K} `{EqDecision K} (key : R -> K) (seen : list K)
    (df : list R) : list R :=
  match df with
  | [] => []
  | r :: rest =>
      if decide (key r ∈ seen) then drop_duplicates_go key seen rest
      else r :: drop_duplicates_go key (key r :: seen) rest
  end.

Definition drop_duplicates {R K} `{EqDecision K} (key : R -> K) (df : list R) : list R :=
  drop_duplicates_go key [] df.

Definition set_rxn_map {M M' C} (v : M') (r : row M C) : row M' C :=
  {| dataset_id := dataset_id r; rxn_map := v;
     canonic_rxn := canonic_rxn r; columns := columns r |}.

Definition set_canonic_rxn {M C C'} (v : C') (r : row M C) : row M C' :=
  {| dataset_id := dataset_id r; rxn_map := rxn_map r;
     canonic_rxn := v; columns := columns r |}.

(** [df["rxn_map"] = df["rxn_map"].parallel_apply(f)]: the column is
    replaced once [f] has returned on every cell. *)
Definition apply_rxn_map (f : string -> result string) (df : frame string unit)
  : result (frame string unit) :=
  map_result (fun r => v ← f (rxn_map r); Ok (set_rxn_map v r)) df.

(** [df[~df[column].str.contains("Error")]] *)
Definition drop_errors {R} (cell : R -> string) (df : list R) : list R :=
  filter (fun r => tagged_error (cell r) = false) df.

Section CleanDataset.
Context `{RDKitBonds} `{RxnChemUtils}.

(** Lines 228-248. *)
Definition prepare (df : frame (option string) unit) : result (frame string unit) :=
  let df := take 1000 df in
  let df := count_is_two df in
  let df := drop_duplicates rxn_map df in
  df ← apply_rxn_map untangle_tildes df;
  let df := drop_duplicates rxn_map df in
  df ← apply_rxn_map join_reactants_reagents df;
  let df := drop_duplicates rxn_map df in
  df ← apply_rxn_map remove_fragment_info df;
  let df := drop_duplicates rxn_map df in
  Ok df.

(** Lines 251-285. *)
Definition filter_reactions (df : frame string unit) : result (frame string unit) :=
  df ← apply_rxn_map remove_reagents df;
  let df := drop_duplicates rxn_map df in
  df ← apply_rxn_map reactant_count_filter df;
  let df := drop_errors rxn_map df in
  df ← apply_rxn_map multiproduct_fixer df;
  let df := drop_errors rxn_map df in
  df ← apply_rxn_map no_carbon df;
  let df := drop_errors rxn_map df in
  let df := drop_duplicates rxn_map df in
  df ← apply_rxn_map remove_stereoalchemy df;
  let df := drop_duplicates rxn_map df in
  df ← apply_rxn_map product_in_reactants df;
  let df := drop_errors rxn_map df in
  let df := drop_duplicates rxn_map df in
  df ← apply_rxn_map (fun s => Ok (canonicalise s)) df;
  let df := drop_errors rxn_map df in
  Ok df.

(** Lines 288-297. *)
Definition unmap_and_trim (df : frame string unit) : frame string string :=
  let df := map (fun r => set_canonic_rxn (remove_mapping (rxn_map r)) r) df in
  let df := drop_errors canonic_rxn df in
  let df := filter (fun r => size_filter (canonic_rxn r) = false) df in
  let df := drop_duplicates canonic_rxn df in
  df.

(** The frame that [clean_dataset] writes, from the frame it read. *)
Definition clean_dataset (df : frame (option string) unit)
  : result (frame string string) :=
  df ← prepare df;
  df ← filter_reactions df;
  Ok (unmap_and_trim df).

End CleanDataset.

(** What [clean_dataset] keeps of a row whatever it does to the reaction. *)
Definition identity_of {M C} (r : row M C) : Z * list (string * string) :=
  (dataset_id r, columns r).


(** The rows of [df'] are rows of [df], in the order of [df], as far as
    index and other columns go. *)
Definition descends {M C M' C'} (df : frame M C) (df' : frame M' C') : Prop :=
  (identity_of <$> df') `sublist_of` (identity_of <$> df).

Section CleanVocabulary.
Context `{RDKitBonds} `{RxnChemUtils}.



End CleanVocabulary.

(** ** A small frame to run the cleaning on *)

Module ToyFrame.

(** The toy toolkit reads no [~], so a compound that holds one takes the
    fallback of [untangle_tildes]. *)
Global Instance bonds : @RDKitBonds Toy.rdkit := {|
  GetBonds := fun _ => [];
  FragmentOnBonds := fun m _ => Ok m
|}.

(** Dropping the map numbers of a text: the colons and the digits go. *)
Fixpoint drop_maps (s : string) : string :=
  match s with
  | "" => ""
  | String c r =>
      if Ascii.eqb c ":" || is_digit c then drop_maps r else String c (drop_maps r)
  end.

(** Reaction equations are kept as texts; a text without the pair [>>] is
    rejected by the parser and by the validity check. *)
Global Instance chemutils : RxnChemUtils := {|
  ReactionEquation := string;
  parse_extended_reaction_smiles := fun s remove_atom_maps =>
    if contains ">>" s then Ok (if remove_atom_maps then drop_maps s else s)
    else Raise (Exception_ "not a reaction");
  canonicalize_compounds := Ok;
  sort_compounds := Ok;
  cleanup_compounds := Ok;
  to_reaction_smiles := Ok;
  ReactionFromSmarts := fun s =>
    if contains ">>" s then Ok tt else Raise (Exception_ "not a reaction")
|}.

Definition read_row (i : Z) (cell : option string) (patent : string)
  : row (option string) unit :=
  {| dataset_id := i; rxn_map := cell; canonic_rxn := tt;
     columns := [("patent", patent)] |}.

(** A repeated text, a missing cell, a text with reagents and fragment
    information, a product without carbon, a compound with [~], a text with
    one [>] and a product that is also a reactant. *)
Definition df : frame (option string) unit :=
  [ read_row 10 (Some "[C:1]O.N>>[C:1]C") "EP1";
    read_row 11 (Some "[C:1]O.N>>[C:1]C") "EP2";
    read_row 12 None "EP3";
    read_row 13 (Some "[C:1]O>N>[C:1]C |f:0.1|") "EP4";
    read_row 14 (Some "[O:1]>>[O:1]N") "EP5";
    read_row 15 (Some "[C:1]~[N:2].O>>[C:1]O") "EP6";
    read_row 16 (Some "C>C") "EP7";
    read_row 17 (Some "[O:1][C:2]>>[O:1][C:2]") "EP8" ].

End ToyFrame.

(** ** [3_template_filtering.py] *)

(** [len(x)] for the group [x] of the template [t].  A row whose template
    cell is missing belongs to no group. *)
Definition group_size {R} (template : R -> option string) (t : string) (df : list R)
  : nat :=
  length (filter (fun r => template r = Some t) df).

(** [lambda x: len(x) > threshold], asked of the group of a row *)
Definition in_large_group {R} (template : R -> option string) (df : list R)
    (threshold : Z) (r : R) : bool :=
  match template r with
  | Some t => (threshold <? Z.of_nat (group_size template t df))%Z
  | None => false
  end.

(** [df.groupby('template').filter(lambda x: len(x) > threshold)]: the rows
    of the groups that pass, in the order of [df]. *)
Definition filter_templates {R} (template : R -> option string) (df : list R)
    (threshold : Z) : list R :=
  filter (fun r => in_large_group template df threshold r = true) df.

(** ** [5_template_splitting.py] *)

(** [data.groupby("products").size()]: each product with the number of its
    rows.  The function shuffles this series before it reads it, so the
    order given here is of no account. *)
Definition group_sizes {R} (products : R -> string) (data : list R)
  : list (string * Z) :=
  map (fun p => (p, Z.of_nat (length (filter (fun r => products r = p) data))))
      (remove_dups (map products data)).

Record split_state : Type := {
  test_on : bool;
  counter : Z;
  test_products : list string;
  val_products : list string
}.

(** The loop of lines 50-61, with its [break]. *)
Fixpoint assign_products (tot : Z) (st : split_state) (groups : list (string * Z))
  : split_state :=
  match groups with
  | [] => st
  | (product, times) :: rest =>
      if test_on st then
        let test_products := (test_products st ++ [product])%list in
        let counter := (counter st + times)%Z in
        if (tot <? counter)%Z
        then assign_products tot
               {| test_on := false; counter := 0;
                  test_products := test_products; val_products := val_products st |}
               rest
        else assign_products tot
               {| test_on := true; counter := counter;
                  test_products := test_products; val_products := val_products st |}
               rest
      else
        let val_products := (val_products st ++ [product])%list in
        let counter := (counter st + times)%Z in
        if (tot <? counter)%Z
        then {| test_on := false; counter := counter;
                test_products := test_products st; val_products := val_products |}
        else assign_products tot
               {| test_on := false; counter := counter;
                  test_products := test_products st; val_products := val_products |}
               rest
  end.

(** [full_dataset_product_split(data, frac)].  [scaled n] stands for
    [round(n * frac)], which is computed in floating point, and [sample]
    for the sorting of the group keys followed by
    [.sample(frac=1.0, random_state=42)]. *)
Definition full_dataset_product_split {R} (products : R -> string)
    (scaled : nat -> Z) (sample : list (string * Z) -> list (string * Z))
    (data : list R) : list R * list R * list R :=
  let tot := scaled (length data) in
  let groups := sample (group_sizes products data) in
  let st := assign_products tot
              {| test_on := true; counter := 0;
                 test_products := []; val_products := [] |} groups in
  let test_mask := fun r => bool_decide (products r ∈ test_products st) in
  let val_mask := fun r => bool_decide (products r ∈ val_products st) in
  let test := filter (fun r => test_mask r = true) data in
  let val := filter (fun r => val_mask r = true) data in
  let train := filter (fun r => negb (test_mask r || val_mask r) = true) data in
  (train, val, test).

(** Six rows over four products. *)
Definition sample_rows : list (nat * string) :=
  [(1, "A"); (2, "B"); (3, "A"); (4, "C"); (5, "D"); (6, "B")].
(** * Facts about the string primitives *)

Module PyStrFacts.

Lemma sapp_cons c a b : String c a +:+ b = String c (a +:+ b).
Proof. reflexivity. Qed.

Lemma sapp_nil_r a : a +:+ "" = a.
Proof. induction a as [|c a IH]; [reflexivity|]. now rewrite sapp_cons, IH. Qed.

Lemma sapp_assoc a b c : (a +:+ b) +:+ c = a +:+ (b +:+ c).
Proof. induction a as [|x a IH]; [reflexivity|]. now rewrite !sapp_cons, IH. Qed.

Lemma slength_app a b :
  String.length (a +:+ b) = String.length a + String.length b.
Proof.
  induction a as [|x a IH]; [reflexivity|].
  rewrite sapp_cons. simpl. now rewrite IH.
Qed.

(** *** Prefixes *)

Lemma prefix_nil s : String.prefix "" s = true.
Proof. now destruct s. Qed.

Lemma prefix_cons c a d s :
  String.prefix (String c a) (String d s) = bool_decide (c = d) && String.prefix a s.
Proof.
  simpl. destruct (ascii_dec c d) as [->|Hne].
  - now rewrite bool_decide_eq_true_2.
  - now rewrite bool_decide_eq_false_2.
Qed.

Lemma prefix_app a b : String.prefix a (a +:+ b) = true.
Proof.
  induction a as [|c a IH]; [apply prefix_nil|].
  rewrite sapp_cons, prefix_cons, IH. now rewrite bool_decide_eq_true_2.
Qed.

(** A prefix of [u ++ v] lies inside [u] or covers it. *)
Lemma prefix_app_inv p u v :
  String.prefix p (u +:+ v) = true ->
  String.prefix p u = true \/ exists p', p = u +:+ p'.
Proof.
  revert u. induction p as [|c p IH]; intros u Hp.
  - left. apply prefix_nil.
  - destruct u as [|d u].
    + right. now exists (String c p).
    + rewrite sapp_cons, prefix_cons in Hp. apply andb_prop in Hp as [Hc Hp].
      apply bool_decide_eq_true_1 in Hc as ->.
      destruct (IH _ Hp) as [H1|[p' ->]].
      * left. rewrite prefix_cons, H1. now rewrite bool_decide_eq_true_2.
      * right. now exists p'.
Qed.

Lemma prefix_true_app p u : String.prefix p u = true -> exists v, u = p +:+ v.
Proof.
  revert u. induction p as [|c p IH]; intros u Hp.
  - now exists u.
  - destruct u as [|d u]; [discriminate|].
    rewrite prefix_cons in Hp. apply andb_prop in Hp as [Hc Hp].
    apply bool_decide_eq_true_1 in Hc as ->.
    destruct (IH _ Hp) as [v ->]. now exists v.
Qed.

(** Once [u] is at least as long as [p], what follows [u] is irrelevant. *)
Lemma prefix_app_long p u v :
  String.length p <= String.length u ->
  String.prefix p (u +:+ v) = String.prefix p u.
Proof.
  revert u. induction p as [|c p IH]; intros u Hlen.
  - now rewrite !prefix_nil.
  - destruct u as [|d u]; [simpl in Hlen; lia|].
    rewrite sapp_cons, !prefix_cons. f_equal. apply IH. simpl in Hlen. lia.
Qed.

(** *** Characters *)

Lemma has_char_app c a b : has_char c (a +:+ b) = has_char c a || has_char c b.
Proof.
  induction a as [|x a IH]; [reflexivity|].
  rewrite sapp_cons. simpl. rewrite IH. now rewrite orb_assoc.
Qed.

Lemma count_char_app c a b : count_char c (a +:+ b) = count_char c a + count_char c b.
Proof.
  induction a as [|x a IH]; [reflexivity|].
  rewrite sapp_cons. simpl. rewrite IH. lia.
Qed.

Lemma has_char_count c s : has_char c s = false <-> count_char c s = 0.
Proof.
  induction s as [|x s IH]; simpl; [done|].
  destruct (Ascii.eqb c x); simpl; [split; [discriminate|lia]|exact IH].
Qed.

(** *** Occurrences of a pattern that start inside a given stretch *)

Lemma contains_occurs c sub s :
  contains (String c sub) s = occurs_from (String c sub) s "".
Proof.
  induction s as [|x s IH]; [reflexivity|].
  cbn [contains occurs_from]. now rewrite IH, sapp_nil_r.
Qed.

Lemma occurs_from_app sub a b rest :
  occurs_from sub (a +:+ b) rest
  = occurs_from sub a (b +:+ rest) || occurs_from sub b rest.
Proof.
  induction a as [|x a IH]; [reflexivity|].
  rewrite sapp_cons. cbn [occurs_from]. rewrite IH, sapp_cons, sapp_assoc.
  now rewrite orb_assoc.
Qed.

(** An occurrence is still one when more text follows. *)
Lemma prefix_app_mono p u v : String.prefix p u = true -> String.prefix p (u +:+ v) = true.
Proof.
  intros [w ->]%prefix_true_app. rewrite sapp_assoc. apply prefix_app.
Qed.

Lemma occurs_from_mono sub a rest :
  occurs_from sub a rest = false -> occurs_from sub a "" = false.
Proof.
  induction a as [|x a IH]; [done|].
  cbn [occurs_from]. intros [H1 H2]%orb_false_elim.
  rewrite (IH H2), orb_false_r.
  destruct (String.prefix sub (String x a +:+ "")) eqn:E; [|done].
  rewrite sapp_nil_r in E. apply (prefix_app_mono _ _ rest) in E. congruence.
Qed.

(** Text after the pattern's own length cannot matter. *)
Lemma occurs_from_sep_irrel sub a x y :
  occurs_from sub a (sub +:+ x) = occurs_from sub a (sub +:+ y).
Proof.
  induction a as [|c a IH]; [reflexivity|].
  cbn [occurs_from]. rewrite IH. f_equal.
  rewrite <- !sapp_assoc.
  assert (Hlen : String.length sub <= String.length (String c a +:+ sub))
    by (rewrite slength_app; lia).
  now rewrite !(prefix_app_long _ _ _ Hlen).
Qed.

Lemma occurs_from_no_char c sub a rest :
  has_char c a = false -> occurs_from (String c sub) a rest = false.
Proof.
  induction a as [|x a IH]; [done|].
  simpl has_char. intros [Hx Ha]%orb_false_elim.
  cbn [occurs_from]. rewrite (IH Ha), orb_false_r.
  rewrite sapp_cons, prefix_cons.
  apply Ascii.eqb_neq in Hx. now rewrite bool_decide_eq_false_2.
Qed.

Lemma contains_char c s : contains (String c "") s = has_char c s.
Proof.
  induction s as [|x s IH]; [reflexivity|].
  cbn [contains has_char]. rewrite IH, prefix_cons, prefix_nil, andb_true_r.
  f_equal. destruct (Ascii.eqb_spec c x) as [->|Hne].
  - now rewrite bool_decide_eq_true_2.
  - now rewrite bool_decide_eq_false_2.
Qed.

Lemma contains_app_l sub a b : contains sub a = true -> contains sub (a +:+ b) = true.
Proof.
  induction a as [|x a IH].
  - simpl. rewrite orb_false_r. intros Hp. destruct sub; [|discriminate].
    destruct b; reflexivity.
  - cbn [contains]. intros [Hp|Hc]%orb_prop.
    + apply (prefix_app_mono _ _ b) in Hp. rewrite sapp_cons in Hp |- *.
      cbn [contains]. now rewrite Hp.
    + rewrite sapp_cons. cbn [contains]. rewrite (IH Hc). apply orb_true_r.
Qed.

Lemma contains_app_r sub a b : contains sub b = true -> contains sub (a +:+ b) = true.
Proof.
  intros Hb. induction a as [|x a IH]; [exact Hb|].
  rewrite sapp_cons. cbn [contains]. rewrite IH. apply orb_true_r.
Qed.

(** *** [split] *)

Lemma split_go_cons sep x r :
  split_go sep 0 (String x r)
  = if String.prefix sep (String x r)
    then "" :: split_go sep (String.length sep - 1) r
    else cons_head x (split_go sep 0 r).
Proof. reflexivity. Qed.

Lemma split_go_skip sep x b :
  split_go sep (String.length x) (x +:+ b) = split_go sep 0 b.
Proof. induction x as [|c x IH]; [reflexivity|]. rewrite sapp_cons. exact IH. Qed.

Lemma split_go_nonempty sep k s : split_go sep k s <> [].
Proof.
  revert k. induction s as [|x s IH]; intros k; [done|].
  destruct k as [|k]; [|apply IH].
  rewrite split_go_cons. destruct (String.prefix sep (String x s)); [done|].
  specialize (IH 0). destruct (split_go sep 0 s); done.
Qed.

Lemma split_head sep s : exists h t, split sep s = h :: t.
Proof.
  pose proof (split_go_nonempty sep 0 s) as Hne. unfold split.
  destruct (split_go sep 0 s) as [|h t]; [done|]. now exists h, t.
Qed.

(** The text before the first occurrence is the first piece. *)
Lemma split_first c sep a b :
  occurs_from (String c sep) a (String c sep +:+ b) = false ->
  split (String c sep) (a +:+ String c sep +:+ b) = a :: split (String c sep) b.
Proof.
  unfold split. induction a as [|x a IH]; intros Hocc.
  - change ("" +:+ String c sep +:+ b) with (String c (sep +:+ b)).
    rewrite split_go_cons.
    change (String c (sep +:+ b)) with (String c sep +:+ b).
    rewrite prefix_app. f_equal.
    change (String.length (String c sep) - 1) with (S (String.length sep) - 1).
    replace (S (String.length sep) - 1) with (String.length sep) by lia.
    apply split_go_skip.
  - cbn [occurs_from] in Hocc. apply orb_false_elim in Hocc as [Hp Hocc].
    rewrite sapp_cons in Hp |- *. rewrite split_go_cons, Hp, (IH Hocc). reflexivity.
Qed.

Lemma split_none c sep a :
  occurs_from (String c sep) a "" = false -> split (String c sep) a = [a].
Proof.
  unfold split. induction a as [|x a IH]; intros Hocc; [reflexivity|].
  cbn [occurs_from] in Hocc. apply orb_false_elim in Hocc as [Hp Hocc].
  rewrite sapp_nil_r in Hp. rewrite split_go_cons, Hp, (IH Hocc). reflexivity.
Qed.

(** A text either holds no separator or breaks at its first one. *)
Lemma split_decomp c sep s :
  (occurs_from (String c sep) s "" = false /\ split (String c sep) s = [s])
  \/ (exists a b, s = a +:+ String c sep +:+ b
        /\ occurs_from (String c sep) a (String c sep +:+ b) = false
        /\ split (String c sep) s = a :: split (String c sep) b).
Proof.
  induction s as [|x s IH]; [left; done|].
  destruct (String.prefix (String c sep) (String x s)) eqn:Hp.
  - right. apply prefix_true_app in Hp as [b Hb]. exists "", b.
    split; [exact Hb|]. split; [reflexivity|].
    rewrite Hb. now apply (split_first c sep "" b).
  - destruct IH as [[Hocc Hs]|(a & b & -> & Hocc & Hs)].
    + left. split.
      * cbn [occurs_from]. now rewrite sapp_nil_r, Hp, Hocc.
      * unfold split in *. now rewrite split_go_cons, Hp, Hs.
    + right. exists (String x a), b. split; [reflexivity|]. split.
      * cbn [occurs_from]. rewrite sapp_cons, Hp. exact Hocc.
      * unfold split in *. now rewrite split_go_cons, Hp, Hs.
Qed.

(** No piece of a split holds the separator. *)
Lemma split_first_clean c sep s p rest :
  split (String c sep) s = p :: rest -> contains (String c sep) p = false.
Proof.
  intros Hs. rewrite contains_occurs.
  destruct (split_decomp c sep s) as [[Hocc Hs']|(a & b & -> & Hocc & Hs')];
    rewrite Hs' in Hs; injection Hs as <- _; [exact Hocc|].
  now apply occurs_from_mono in Hocc.
Qed.

(** The shape of a text that has at least two pieces. *)
Lemma split_two c sep s a p rest :
  split (String c sep) s = a :: p :: rest ->
  exists b, s = a +:+ String c sep +:+ b
    /\ occurs_from (String c sep) a (String c sep +:+ b) = false
    /\ split (String c sep) b = p :: rest.
Proof.
  intros Hs.
  destruct (split_decomp c sep s) as [[Hocc Hs']|(a' & b & -> & Hocc & Hs')];
    rewrite Hs' in Hs; [discriminate|].
  injection Hs as -> Hb. now exists b.
Qed.

Lemma contains_split c sep s :
  contains (String c sep) s = true <-> (2 <= length (split (String c sep) s))%nat.
Proof.
  rewrite contains_occurs.
  destruct (split_decomp c sep s) as [[Hocc Hs']|(a & b & -> & Hocc & Hs')].
  - rewrite Hocc, Hs'. simpl. split; [discriminate|lia].
  - rewrite Hs'. destruct (split_head (String c sep) b) as (h & t & ->).
    split; [simpl; lia|]. intros _.
    rewrite occurs_from_app. apply orb_true_iff. right.
    rewrite sapp_cons. cbn [occurs_from].
    rewrite sapp_nil_r, <- sapp_cons, prefix_app. reflexivity.
Qed.

(** *** One-character separators *)

Lemma split_char_cons c x r :
  split (String c "") (String x r)
  = if Ascii.eqb c x then "" :: split (String c "") r
    else cons_head x (split (String c "") r).
Proof.
  unfold split. rewrite split_go_cons, prefix_cons, prefix_nil, andb_true_r.
  destruct (Ascii.eqb_spec c x) as [->|Hne].
  - now rewrite bool_decide_eq_true_2.
  - now rewrite bool_decide_eq_false_2.
Qed.

Lemma split_char_length c s :
  length (split (String c "") s) = S (count_char c s).
Proof.
  induction s as [|x s IH]; [reflexivity|].
  rewrite split_char_cons. simpl count_char.
  destruct (Ascii.eqb c x); simpl; [now rewrite IH|].
  destruct (split (String c "") s); simpl in *; lia.
Qed.

Lemma split_char_pieces c s :
  Forall (fun p => has_char c p = false) (split (String c "") s).
Proof.
  induction s as [|x s IH]; [repeat constructor|].
  rewrite split_char_cons. destruct (Ascii.eqb c x) eqn:E.
  - now constructor.
  - destruct (split (String c "") s) as [|h t]; [repeat constructor; simpl; now rewrite E|].
    inversion IH; subst. constructor; [simpl; now rewrite E|done].
Qed.

Lemma join_cons sep x y l : join sep (x :: y :: l) = x +:+ sep +:+ join sep (y :: l).
Proof. reflexivity. Qed.

Lemma join_split_char c s : join (String c "") (split (String c "") s) = s.
Proof.
  induction s as [|x s IH]; [reflexivity|].
  rewrite split_char_cons. destruct (Ascii.eqb_spec c x) as [->|Hne].
  - destruct (split_head (String x "") s) as (h & t & Hs). rewrite Hs in IH |- *.
    rewrite join_cons, IH. reflexivity.
  - destruct (split_head (String c "") s) as (h & t & Hs). rewrite Hs in IH |- *.
    simpl cons_head. destruct t as [|y t].
    + simpl in *. now rewrite IH.
    + rewrite join_cons in IH |- *. now rewrite sapp_cons, IH.
Qed.

Lemma split_join_char c l :
  l <> [] -> Forall (fun p => has_char c p = false) l ->
  split (String c "") (join (String c "") l) = l.
Proof.
  induction l as [|x l IH]; [done|]. intros _ Hall.
  inversion Hall as [|? ? Hx Hl]; subst.
  destruct l as [|y l].
  - simpl. apply split_none. now apply occurs_from_no_char.
  - rewrite join_cons, split_first by now apply occurs_from_no_char.
    now rewrite IH.
Qed.

Lemma has_char_join d sep l :
  has_char d sep = false -> Forall (fun p => has_char d p = false) l ->
  has_char d (join sep l) = false.
Proof.
  intros Hsep. induction l as [|x l IH]; [done|]. intros Hall.
  inversion Hall as [|? ? Hx Hl]; subst.
  destruct l as [|y l]; [exact Hx|].
  rewrite join_cons, !has_char_app, Hx, Hsep, (IH Hl). reflexivity.
Qed.

(** *** [replace] *)

Lemma replace_go_cons old new x r :
  replace_go old new 0 (String x r)
  = if String.prefix old (String x r)
    then new +:+ replace_go old new (String.length old - 1) r
    else String x (replace_go old new 0 r).
Proof. reflexivity. Qed.

Lemma replace_go_skip old new x b :
  replace_go old new (String.length x) (x +:+ b) = replace_go old new 0 b.
Proof. induction x as [|c x IH]; [reflexivity|]. rewrite sapp_cons. exact IH. Qed.

(** Text in which no occurrence starts is copied. *)
Lemma replace_go_first old new a b :
  occurs_from old a b = false ->
  replace_go old new 0 (a +:+ b) = a +:+ replace_go old new 0 b.
Proof.
  induction a as [|x a IH]; intros Hocc; [reflexivity|].
  cbn [occurs_from] in Hocc. apply orb_false_elim in Hocc as [Hp Hocc].
  rewrite sapp_cons in Hp. rewrite !sapp_cons, replace_go_cons, Hp, (IH Hocc). reflexivity.
Qed.

Lemma replace_go_here c old new b :
  replace_go (String c old) new 0 (String c old +:+ b)
  = new +:+ replace_go (String c old) new 0 b.
Proof.
  rewrite sapp_cons, replace_go_cons. rewrite <- sapp_cons, prefix_app. f_equal.
  change (String.length (String c old) - 1) with (S (String.length old) - 1).
  replace (S (String.length old) - 1) with (String.length old) by lia.
  apply replace_go_skip.
Qed.

End PyStrFacts.

Import PyStrFacts.

(** * The cleaning stage *)

Lemma bind_Ok {A B} (a : A) (f : A -> result B) : (Ok a ≫= f) = f a.
Proof. reflexivity. Qed.

Lemma index_0 {A} (x : A) l : index (x :: l) 0 = Ok x.
Proof. reflexivity. Qed.

Lemma index_1 {A} (x y : A) l : index (x :: y :: l) 1 = Ok y.
Proof. reflexivity. Qed.

Lemma index_Ok_lookup {A} (l : list A) i x : index l i = Ok x <-> l !! i = Some x.
Proof. unfold index. destruct (l !! i); split; intros; simplify_eq; done. Qed.

Lemma merged_form_split rxn :
  merged_form rxn <-> exists r p rest, split ">>" rxn = r :: p :: rest.
Proof.
  unfold merged_form. rewrite contains_split. split.
  - intros Hlen. destruct (split ">>" rxn) as [|r [|p rest]]; simpl in Hlen; try lia.
    now exists r, p, rest.
  - intros (r & p & rest & ->). simpl. lia.
Qed.

Section CleaningFacts.
Context `{RDKit}.

(** What [reactant_count_filter] decides on is the length of the list
    [reactants]: the sentinel "Error: too many reactants" comes back exactly
    when that length is 0 or more than 4, the input when it lies in [1,4]. *)
Lemma reactant_count_filter_bounds rxn :
  merged_form rxn ->
  (reactant_count_filter rxn = Ok "Error: too many reactants"
     <-> (reactant_count rxn = 0 \/ 4 < reactant_count rxn)%nat)
  /\ ((1 <= reactant_count rxn <= 4)%nat -> reactant_count_filter rxn = Ok rxn).
Proof.
  intros Hm. unfold reactant_count_filter, reactant_count.
  destruct (split_head ">>" rxn) as (r & t & ->). rewrite index_0, bind_Ok.
  set (count := length (split "." r)).
  destruct ((count <? 5)%nat && (1 <=? count)%nat) eqn:E.
  - apply andb_prop in E as [E1%Nat.ltb_lt E2%Nat.leb_le].
    split; [|done]. split; [|lia].
    intros [= ->]. unfold merged_form in Hm. discriminate Hm.
  - split; [split; [|done]|].
    + intros _. apply andb_false_iff in E as [E%Nat.ltb_ge|E%Nat.leb_gt]; lia.
    + intros [H1 H2]. apply andb_false_iff in E as [E%Nat.ltb_ge|E%Nat.leb_gt]; lia.
Qed.

(** The length of the list [reactants] is never 0: an empty reactant
    segment still splits into one piece. *)
Lemma reactant_count_positive rxn : (1 <= reactant_count rxn)%nat.
Proof.
  unfold reactant_count. destruct (split_head ">>" rxn) as (r & t & ->).
  destruct (split_head "." r) as (h & t' & ->). simpl. lia.
Qed.

(** Hence a text whose reactant segment is empty passes the filter. *)
Lemma reactant_count_filter_empty rxn t :
  split ">>" rxn = "" :: t -> reactant_count_filter rxn = Ok rxn.
Proof. intros Hs. unfold reactant_count_filter. now rewrite Hs. Qed.

(** C9.  [join_reactants_reagents] returns a merged-form text unchanged; a
    text with three segments and a non-empty reagent segment becomes
    reactants, compound separator, reagents, the pair ">>" and the products,
    and holds the pair ">>" exactly once. *)
Theorem join_reactants_reagents_spec rxn :
  (merged_form rxn -> join_reactants_reagents rxn = Ok rxn)
  /\ (~ merged_form rxn -> count_char ">" rxn = 2 ->
      exists a b c,
        rxn = a +:+ ">" +:+ b +:+ ">" +:+ c
        /\ join_reactants_reagents rxn = Ok (a +:+ "." +:+ b +:+ ">>" +:+ c)
        /\ count ">>" (a +:+ "." +:+ b +:+ ">>" +:+ c) = 1
        /\ count_char ">" (a +:+ "." +:+ b +:+ ">>" +:+ c) = 2).
Proof.
  unfold merged_form, join_reactants_reagents. split.
  - intros ->. reflexivity.
  - intros Hm%not_true_is_false Hcount. rewrite Hm.
    pose proof (split_char_length ">" rxn) as Hlen. rewrite Hcount in Hlen.
    pose proof (split_char_pieces ">" rxn) as Hpieces.
    pose proof (join_split_char ">" rxn) as Hjoin.
    destruct (split ">" rxn) as [|a [|b [|c [|d l]]]]; simpl in Hlen; try lia.
    clear Hlen. exists a, b, c.
    rewrite !Forall_cons in Hpieces. destruct Hpieces as (Ha & Hb & Hc & _).
    split; [now rewrite <- Hjoin|]. split; [reflexivity|].
    assert (Hab : has_char ">" (a +:+ "." +:+ b) = false).
    { now rewrite !has_char_app, Ha, Hb. }
    split.
    + unfold count. rewrite <- (sapp_assoc a), <- (sapp_assoc (a +:+ ".")), (sapp_assoc a).
      rewrite split_first by now apply occurs_from_no_char.
      rewrite split_none by now apply occurs_from_no_char. reflexivity.
    + apply has_char_count in Ha, Hb, Hc.
      rewrite !count_char_app, Ha, Hb, Hc. reflexivity.
Qed.

(** *** [remove_stereoalchemy] leaves the reactants alone *)

(** A pattern that holds a character [r] lacks, and does not hold ">>",
    cannot begin anywhere in [r ++ ">>"]. *)
Lemma no_occurrence_across c p r t :
  has_char c p = true -> has_char c r = false ->
  has_char c ">>" = false -> contains ">>" p = false ->
  String.prefix p (r +:+ ">>" +:+ t) = false.
Proof.
  intros Hp Hr Hsep Hclean.
  destruct (String.prefix p (r +:+ ">>" +:+ t)) eqn:E; [|done].
  rewrite <- sapp_assoc in E. apply prefix_app_inv in E as [E|[p' ->]].
  - apply prefix_true_app in E as [v Hv].
    assert (Hc : has_char c (r +:+ ">>") = true).
    { rewrite Hv, has_char_app, Hp. reflexivity. }
    rewrite has_char_app, Hr, Hsep in Hc. discriminate.
  - rewrite sapp_assoc in Hclean.
    rewrite contains_app_r in Hclean; [discriminate|].
    apply contains_app_l. reflexivity.
Qed.

Lemma no_occurrence_in_reactants c p r t :
  has_char c p = true -> has_char c r = false ->
  has_char c ">>" = false -> contains ">>" p = false ->
  occurs_from p r (">>" +:+ t) = false.
Proof.
  intros Hp Hr Hsep Hclean. induction r as [|x r IH]; [done|].
  cbn [occurs_from]. rewrite (no_occurrence_across c) by done.
  simpl in Hr. apply orb_false_elim in Hr as [_ Hr]. now apply IH.
Qed.

Lemma no_occurrence_in_separator c p rest :
  has_char c p = true -> has_char c ">>" = false -> contains ">>" p = false ->
  occurs_from p ">>" (p +:+ rest) = false.
Proof.
  intros Hp Hsep Hclean. cbn [occurs_from].
  pose proof (no_occurrence_across c p "" (p +:+ rest) Hp eq_refl Hsep Hclean) as H1.
  change ("" +:+ ">>" +:+ p +:+ rest) with (">>" +:+ p +:+ rest) in H1.
  rewrite H1, orb_false_r, orb_false_l.
  destruct p as [|x [|y p]]; [discriminate| |].
  - (* a one-character pattern would be ">" *)
    change (">" +:+ String x "" +:+ rest) with (String ">" (String x rest)).
    rewrite prefix_cons, prefix_nil, andb_true_r.
    apply bool_decide_eq_false_2. intros ->.
    simpl in Hp, Hsep. destruct (Ascii.eqb c ">"); discriminate.
  - change (">" +:+ String x (String y p) +:+ rest)
      with (String ">" (String x (String y (p +:+ rest)))).
    rewrite !prefix_cons.
    destruct (bool_decide (x = ">"%char)) eqn:Ex; [|done].
    apply bool_decide_eq_true_1 in Ex as ->.
    destruct (bool_decide (y = ">"%char)) eqn:Ey; [|done].
    apply bool_decide_eq_true_1 in Ey as ->.
    pose proof (contains_app_l ">>" ">>" p eq_refl) as Hc.
    change (">>" +:+ p) with (String ">" (String ">" p)) in Hc. congruence.
Qed.

(** The first piece of a text that starts with a piece [p]. *)
Lemma split_starts_with c sep t p rest :
  split (String c sep) t = p :: rest -> exists rest', t = p +:+ rest'.
Proof.
  intros Hs.
  destruct (split_decomp c sep t) as [[_ Hs']|(a & b & -> & _ & Hs')];
    rewrite Hs' in Hs; injection Hs as <- _.
  - exists "". now rewrite sapp_nil_r.
  - now eexists.
Qed.

(** C5.  When the product segment holds a stereo mark and the reactant
    segment holds none, the text [remove_stereoalchemy] returns has the very
    same reactant segment; on a two-segment text the result is the
    reactant segment, the pair ">>" and the rewritten product. *)
Theorem remove_stereoalchemy_frame rxn r p out :
  index (split ">>" rxn) 0 = Ok r ->
  index (split ">>" rxn) 1 = Ok p ->
  contains "@" p = true ->
  contains "@" r = false ->
  remove_stereoalchemy rxn = Ok out ->
  index (split ">>" out) 0 = Ok r
  /\ (split ">>" rxn = [r; p] ->
      exists m, MolFromSmiles p = Some m
        /\ out = r +:+ ">>" +:+ MolToSmiles (RemoveStereochemistry m)).
Proof.
  intros Hr Hp Hstereo Hplain Hout.
  unfold remove_stereoalchemy in Hout.
  rewrite Hr, Hp, !bind_Ok, Hstereo, Hplain in Hout. simpl negb in Hout. cbv iota in Hout.
  destruct (MolFromSmiles p) as [m|] eqn:Hm; [|discriminate].
  injection Hout as <-.
  set (new_p := MolToSmiles (RemoveStereochemistry m)).
  destruct (split ">>" rxn) as [|r0 [|p0 rest]] eqn:Hs; try discriminate.
  rewrite index_0 in Hr. rewrite index_1 in Hp. simplify_eq.
  destruct (split_two _ _ _ _ _ _ Hs) as (t & -> & Hocc & Ht).
  destruct (split_starts_with _ _ _ _ _ Ht) as [rest' ->].
  pose proof (split_first_clean _ _ _ _ _ Ht) as Hclean.
  rewrite contains_char in Hstereo, Hplain.
  assert (Hrep : replace p new_p (r +:+ ">>" +:+ p +:+ rest')
                 = r +:+ ">>" +:+ replace_go p new_p 0 (p +:+ rest')).
  { destruct p as [|x p]; [discriminate|]. unfold replace.
    rewrite <- (sapp_assoc r), replace_go_first, sapp_assoc; [done|].
    rewrite occurs_from_app, (no_occurrence_in_reactants "@") by done.
    now rewrite (no_occurrence_in_separator "@"). }
  rewrite Hrep. split.
  - rewrite split_first; [reflexivity|].
    now rewrite (occurs_from_sep_irrel _ _ _ (p +:+ rest')).
  - intros [= Hrest]. exists m. split; [done|]. f_equal. f_equal.
    destruct p as [|x p]; [discriminate|].
    destruct (split_decomp ">" ">" (String x p +:+ rest'))
      as [[_ Hs']|(a & b & Hab & _ & Hs')]; rewrite Hs' in Ht.
    + injection Ht as Ht _. apply (f_equal String.length) in Ht.
      rewrite slength_app in Ht. destruct rest'; [|simpl in Ht; lia].
      rewrite replace_go_here. apply sapp_nil_r.
    + injection Ht as -> Hb. rewrite Hrest in Hb.
      now destruct (split_go_nonempty ">>" 0 b).
Qed.

(** *** [multiproduct_fixer] *)

Lemma select_flagged_filter (f : string -> bool) pre l :
  select_flagged (pre ++ l) (enumerate_from (length pre) (map f l))
  = Ok (List.filter f l).
Proof.
  revert pre. induction l as [|x l IH]; intros pre; [reflexivity|].
  simpl map. cbn [enumerate_from select_flagged List.filter].
  specialize (IH (pre ++ [x])%list).
  rewrite <- List.app_assoc, List.length_app, Nat.add_1_r in IH. simpl in IH.
  destruct (f x); [|exact IH].
  unfold index. rewrite list_lookup_middle by done.
  rewrite bind_Ok, IH. reflexivity.
Qed.

Lemma heavy_atoms_all l counts :
  map_result heavy_atoms (map MolFromSmiles l) = Ok counts ->
  Forall parses l /\ map (fun a => (5 <? a)%Z) counts = map survives l.
Proof.
  revert counts. induction l as [|x l IH]; intros counts Hc.
  - injection Hc as <-. split; [constructor|reflexivity].
  - simpl in Hc.
    destruct (MolFromSmiles x) as [m|] eqn:Hm; [|discriminate]. simpl in Hc.
    destruct (map_result heavy_atoms (map MolFromSmiles l)) as [cs|]; [|discriminate].
    injection Hc as <-. destruct (IH _ eq_refl) as [Hall Hmap].
    split.
    + constructor; [|done]. unfold parses. rewrite Hm. by eexists.
    + simpl. rewrite Hmap. f_equal. unfold survives, heavy_count. now rewrite Hm.
Qed.

Lemma heavy_atoms_some l e :
  map_result heavy_atoms (map MolFromSmiles l) = Raise e -> ~ Forall parses l.
Proof.
  induction l as [|x l IH]; [discriminate|]. simpl. intros He Hall.
  apply Forall_cons in Hall as [[m Hm] Hall]. rewrite Hm in He. simpl in He.
  destruct (map_result heavy_atoms (map MolFromSmiles l)); [discriminate|].
  now apply IH.
Qed.

(** What [multiproduct_fixer] returns when the product segment holds
    several compounds. *)
Lemma multiproduct_fixer_many rxn r seg rest :
  split ">>" rxn = r :: seg :: rest ->
  (1 < length (split "." seg))%nat ->
  multiproduct_fixer rxn =
    if decide (Forall parses (split "." seg)) then
      match survivors (split "." seg) with
      | [p] => Ok (r +:+ ">>" +:+ p)
      | _ => Ok "Error: too many products"
      end
    else Ok "Error: invalid product".
Proof.
  intros Hs Hlen. unfold multiproduct_fixer. cbv zeta.
  rewrite Hs, index_1, bind_Ok, index_0.
  apply Nat.ltb_lt in Hlen. rewrite Hlen.
  destruct (map_result heavy_atoms (map MolFromSmiles (split "." seg)))
    as [counts|e] eqn:Hc.
  - destruct (heavy_atoms_all _ _ Hc) as [Hall ->].
    rewrite decide_True by done. unfold enumerate.
    pose proof (select_flagged_filter survives [] (split "." seg)) as Hsel.
    change (select_flagged (split "." seg)
              (enumerate_from 0 (map survives (split "." seg)))
            = Ok (survivors (split "." seg))) in Hsel.
    rewrite Hsel, bind_Ok.
    destruct (survivors (split "." seg)) as [|p [|q l]]; reflexivity.
  - apply heavy_atoms_some in Hc. now rewrite decide_False.
Qed.


(** C8, as amended.  When the product segment holds several compounds that
    all parse, [multiproduct_fixer] keeps those with more than 5 heavy
    atoms: one survivor gives the reactant segment joined with it, none or
    several give "Error: too many products"; a compound that does not
    parse gives "Error: invalid product".  For the product segment
    "CC.CCCCCC", with at most 5 heavy atoms in "CC" and more than 5 in
    "CCCCCC", the result is the reactant segment joined with "CCCCCC". *)
Theorem multiproduct_fixer_spec rxn r seg rest :
  split ">>" rxn = r :: seg :: rest ->
  (1 < length (split "." seg))%nat ->
  (Forall parses (split "." seg) ->
     (forall p, survivors (split "." seg) = [p] ->
        multiproduct_fixer rxn = Ok (r +:+ ">>" +:+ p))
     /\ (length (survivors (split "." seg)) <> 1%nat ->
        multiproduct_fixer rxn = Ok "Error: too many products"))
  /\ (~ Forall parses (split "." seg) ->
        multiproduct_fixer rxn = Ok "Error: invalid product")
  /\ (seg = "CC.CCCCCC" ->
      (exists n, heavy_count "CC" = Some n /\ (n <= 5)%Z) ->
      (exists n, heavy_count "CCCCCC" = Some n /\ (5 < n)%Z) ->
      multiproduct_fixer rxn = Ok (r +:+ ">>" +:+ "CCCCCC")).
Proof.
  intros Hs Hlen. rewrite (multiproduct_fixer_many _ _ _ _ Hs Hlen).
  split; [|split].
  - intros Hall. rewrite decide_True by done. split.
    + now intros p ->.
    + intros Hne. destruct (survivors (split "." seg)) as [|p [|q l]]; done.
  - intros Hnot. now rewrite decide_False.
  - intros -> (n1 & H1 & Hn1) (n2 & H2 & Hn2).
    change (split "." "CC.CCCCCC") with ["CC"; "CCCCCC"].
    assert (Hall : Forall parses ["CC"; "CCCCCC"]).
    { unfold parses, heavy_count in *. repeat constructor.
      - destruct (MolFromSmiles "CC"); [by eexists|discriminate].
      - destruct (MolFromSmiles "CCCCCC"); [by eexists|discriminate]. }
    rewrite decide_True by done.
    unfold survivors, survives. cbn [List.filter]. rewrite H1, H2.
    apply Z.ltb_lt in Hn2. rewrite Hn2.
    assert ((5 <? n1)%Z = false) as -> by now apply Z.ltb_ge.
    reflexivity.
Qed.

(** *** Which filters return *)


(** *** [remove_reagents] applied twice *)





End CleaningFacts.

(** * The template labels *)

Lemma uint_no_underscore d : has_char "_" (NilEmpty.string_of_uint d) = false.
Proof. induction d; simpl; auto. Qed.

Lemma str_no_underscore z : has_char "_" (str z) = false.
Proof.
  unfold str, NilZero.string_of_int, NilZero.string_of_uint.
  destruct (Z.to_int z) as [d|d]; destruct d; simpl; auto using uint_no_underscore.
Qed.


Lemma map_result_Ok {A B} (f : A -> result B) l ys :
  map_result f l = Ok ys -> Forall2 (fun x y => f x = Ok y) l ys.
Proof.
  revert ys. induction l as [|x l IH]; intros ys Hm.
  - injection Hm as <-. constructor.
  - simpl in Hm. destruct (f x) as [y|] eqn:Hx; [|discriminate]. simpl in Hm.
    destruct (map_result f l) as [ys'|]; [|discriminate].
    injection Hm as <-. constructor; auto.
Qed.

Lemma map_result_all_Ok {A B} (f : A -> result B) l :
  Forall (fun x => returns (f x)) l -> returns (map_result f l).
Proof.
  induction 1 as [|x l [y Hy] _ [ys IH]]; [by eexists|].
  simpl. rewrite Hy, bind_Ok, IH. by eexists.
Qed.

Lemma change_code_no_underscore d code :
  change_code d = Ok code -> has_char "_" code = false.
Proof.
  unfold change_code. intros Hc.
  destruct (map_result _ _) as [codes|] eqn:Hm; [|discriminate].
  injection Hc as <-. apply map_result_Ok in Hm.
  unfold concat_all. apply has_char_join; [reflexivity|].
  induction Hm as [|k y l ys Hk _ IH]; constructor; [|exact IH].
  destruct (d !! _); [|discriminate]. injection Hk as <-. apply str_no_underscore.
Qed.




Lemma get_full_template_has_sep template H C S label :
  get_full_template template H C S = Ok label -> has_char "_" label = true.
Proof.
  unfold get_full_template. intros Hl.
  destruct (change_code H) as [hc|]; [|discriminate].
  destruct (change_code C) as [cc|]; [|discriminate].
  destruct (change_code S) as [sc|]; [|discriminate].
  simpl in Hl. destruct (String.eqb sc ""); injection Hl as <-;
    rewrite has_char_app, (has_char_app _ "_"); simpl; apply orb_true_r.
Qed.

(** What a successful [read_record] went through. *)
Lemma read_record_Ok args extractor i reaction sg :
  read_record args extractor i reaction = Ok sg ->
  exists r p result template,
    index (split ">>" reaction) 0 = Ok r
    /\ index (split ">>" reaction) 1 = Ok p
    /\ extractor {| reactants := r; products := p; _id := i |} = Ok (Some result)
    /\ res_reaction_smarts result = Some template
    /\ res_edits result = Some (edits sg)
    /\ res_H_change result = Some (H_change sg)
    /\ res_Charge_change result = Some (Charge_change sg)
    /\ (if use_stereo args then res_Chiral_change result = Some (Chiral_change sg)
        else Chiral_change sg = ∅)
    /\ get_full_template template (H_change sg) (Charge_change sg) (Chiral_change sg)
       = Ok (template_H sg).
Proof.
  unfold read_record, get_reaction_template. intros Hr.
  destruct (index (split ">>" reaction) 0) as [r|]; [|discriminate].
  destruct (index (split ">>" reaction) 1) as [p|]; [|discriminate].
  simpl in Hr.
  destruct (extractor _) as [[result|]|] eqn:He; try discriminate. simpl in Hr.
  destruct (negb _ || negb _); [discriminate|].
  destruct (res_reaction_smarts result) as [template|] eqn:E1; [|discriminate].
  destruct (res_edits result) as [ed|] eqn:E2; [|discriminate].
  destruct (res_H_change result) as [h|] eqn:E3; [|discriminate].
  destruct (res_Charge_change result) as [c|] eqn:E4; [|discriminate].
  simpl in Hr.
  exists r, p, result, template.
  destruct (use_stereo args).
  - destruct (res_Chiral_change result) as [s|] eqn:E5; [|discriminate]. simpl in Hr.
    destruct (get_full_template template h c s) as [label|] eqn:Hl; [|discriminate].
    injection Hr as <-. simpl. repeat split; done.
  - simpl in Hr.
    destruct (get_full_template template h c ∅) as [label|] eqn:Hl; [|discriminate].
    injection Hr as <-. simpl. repeat split; done.
Qed.

Lemma read_record_label args extractor i reaction sg :
  read_record args extractor i reaction = Ok sg -> template_H sg <> "NaN".
Proof.
  intros (r & p & result & template & _ & _ & _ & _ & _ & _ & _ & _ & Hl)%read_record_Ok.
  apply get_full_template_has_sep in Hl. intros Heq. rewrite Heq in Hl. discriminate.
Qed.


(** * The registry scan *)

Local Open Scope list_scope.

(** *** Insertion-ordered dictionaries *)

Lemma lookup_item_None {V} k (d : list (string * V)) :
  lookup_item k d = None <-> k ∉ keys d.
Proof.
  induction d as [|[k' v'] d IH]; simpl.
  - split; [intros _; apply not_elem_of_nil|done].
  - rewrite not_elem_of_cons. destruct (String.eqb_spec k k') as [->|Hne].
    + split; [discriminate|]. now intros [? _].
    + rewrite IH. tauto.
Qed.

Lemma lookup_item_None' {V} k (d : list (string * V)) :
  lookup_item k d <> None -> k ∈ keys d.
Proof.
  intros Hsome. destruct (decide (k ∈ keys d)) as [|Hout]; [done|].
  now apply lookup_item_None in Hout.
Qed.

Lemma setitem_fresh {V} k (v : V) d : k ∉ keys d -> setitem k v d = d ++ [(k, v)].
Proof.
  induction d as [|[k' v'] d IH]; simpl; [done|].
  rewrite not_elem_of_cons. intros [Hne Hd].
  apply String.eqb_neq in Hne. rewrite Hne. now rewrite IH.
Qed.

Lemma lookup_item_snoc {V} k k' (v : V) d :
  lookup_item k (d ++ [(k', v)])
  = match lookup_item k d with
    | Some x => Some x
    | None => if decide (k = k') then Some v else None
    end.
Proof.
  induction d as [|[k0 v0] d IH]; simpl.
  - destruct (String.eqb_spec k k'); now case_decide.
  - destruct (String.eqb k k0); [reflexivity|exact IH].
Qed.

Lemma list_find_snoc {A} (P : A -> Prop) `{forall x, Decision (P x)} (l : list A) x :
  list_find P (l ++ [x])
  = match list_find P l with
    | Some r => Some r
    | None => if decide (P x) then Some (length l, x) else None
    end.
Proof.
  destruct (list_find P l) as [[i y]|] eqn:E.
  - now apply list_find_app_l.
  - rewrite list_find_app_r by done. simpl. now case_decide.
Qed.

Lemma sightings_snoc k os o :
  sightings k (os ++ [o]) = sightings k os + (if decide (produces k o) then 1 else 0).
Proof.
  unfold sightings. rewrite filter_app, List.length_app. f_equal.
  rewrite filter_cons, filter_nil. now case_decide.
Qed.

Lemma freq_incr st L k :
  default 0%Z (incr L (TemplateFreq st) !! k)
  = (freq st k + (if decide (k = L) then 1 else 0))%Z.
Proof.
  unfold incr, freq. case_decide as Hk.
  - subst. now rewrite lookup_insert_eq.
  - rewrite lookup_insert_ne by done. lia.
Qed.

(** *** One turn of the loop keeps the invariant *)

Lemma first_sighting_is_Ok k os i o :
  first_sighting k os = Some (i, o) -> exists sg, o = Ok sg /\ template_H sg = k.
Proof.
  intros (_ & Hp & _)%list_find_Some. destruct o as [sg|e]; [|done].
  now exists sg.
Qed.

Lemma registry_inv_empty : registry_inv empty_registry [].
Proof. split; simpl; try done. constructor. Qed.

Lemma record_sighting_inv args st os sg :
  registry_inv st os -> registry_inv (record_sighting args st sg) (os ++ [Ok sg]).
Proof.
  intros [Hl Hnd Hmeta Hfreq]. unfold record_sighting.
  destruct (foldl _ _ _) as [tA tB].
  remember (template_H sg) as L eqn:HL.
  destruct (decide (L ∈ keys (TemplateHs st))) as [Hin|Hout].
  - (* a label seen before *)
    rewrite bool_decide_eq_true_2 by done. simpl negb. cbv iota.
    split; simpl.
    + rewrite Hl, map_app, HL. reflexivity.
    + exact Hnd.
    + intros k. unfold first_sighting. rewrite list_find_snoc.
      specialize (Hmeta k). unfold first_sighting in Hmeta.
      destruct (list_find (produces k) os) as [[i o]|]; [exact Hmeta|].
      case_decide as Hk; [|exact Hmeta].
      simpl in Hk. rewrite <- HL in Hk. subst k. now apply lookup_item_None in Hmeta.
    + intros k. unfold freq in *. simpl TemplateFreq.
      rewrite freq_incr, sightings_snoc. unfold freq. rewrite Hfreq.
      case_decide as H1; case_decide as H2; simpl in H1, H2; first [lia|congruence].
  - (* a new label *)
    rewrite bool_decide_eq_false_2 by done. simpl negb. cbv iota.
    rewrite setitem_fresh by done.
    split; simpl.
    + rewrite Hl, map_app, HL. reflexivity.
    + unfold keys. rewrite map_app. apply NoDup_app. split; [exact Hnd|].
      split; [|apply NoDup_singleton].
      intros k Hk ->%list_elem_of_singleton. exact (Hout Hk).
    + intros k. unfold first_sighting. rewrite list_find_snoc.
      specialize (Hmeta k). unfold first_sighting in Hmeta.
      destruct (list_find (produces k) os) as [[i o]|] eqn:E.
      * destruct (first_sighting_is_Ok _ _ _ _ E) as (sg0 & -> & _).
        destruct Hmeta as (He & Hh & Hc & Hs).
        assert (k <> L) as Hne.
        { intros ->. apply Hout, lookup_item_None'. congruence. }
        rewrite !lookup_insert_ne by done. rewrite lookup_item_snoc, Hh. done.
      * case_decide as Hk.
        -- simpl in Hk. rewrite <- HL in Hk. subst k. rewrite !lookup_insert_eq.
           rewrite lookup_item_snoc, Hmeta, decide_True by done. done.
        -- rewrite lookup_item_snoc, Hmeta, decide_False; [done|].
           intros ->. apply Hk. simpl. congruence.
    + intros k. unfold freq in *. simpl TemplateFreq.
      rewrite freq_incr, sightings_snoc. unfold freq. rewrite Hfreq.
      case_decide as H1; case_decide as H2; simpl in H1, H2; first [lia|congruence].
Qed.

Lemma record_failure_inv st os e :
  registry_inv st os -> registry_inv (record_failure st) (os ++ [Raise e]).
Proof.
  intros [Hl Hnd Hmeta Hfreq]. split; simpl.
  - rewrite Hl, map_app. reflexivity.
  - exact Hnd.
  - intros k. unfold first_sighting. rewrite list_find_snoc.
    specialize (Hmeta k). unfold first_sighting in Hmeta.
    destruct (list_find (produces k) os) as [[i o]|]; [exact Hmeta|].
    now rewrite decide_False by (simpl; tauto).
  - intros k. rewrite sightings_snoc, decide_False by (simpl; tauto).
    rewrite Nat.add_0_r. apply Hfreq.
Qed.

(** *** The whole loop *)

Lemma scan_records_inv args extractor irs st os st' :
  registry_inv st os ->
  scan_records args extractor st irs = Running st' ->
  registry_inv st' (os ++ map (outcome args extractor) irs).
Proof.
  revert st os. induction irs as [|ir irs IH]; intros st os Hinv Hscan.
  - injection Hscan as <-. now rewrite List.app_nil_r.
  - cbn [scan_records] in Hscan. unfold scan_record in Hscan.
    cbn [map]. unfold outcome at 1.
    replace (os ++ read_record args extractor ir.1 ir.2 :: map (outcome args extractor) irs)
      with ((os ++ [read_record args extractor ir.1 ir.2]) ++ map (outcome args extractor) irs)
      by now rewrite <- List.app_assoc.
    destruct (read_record args extractor ir.1 ir.2) as [sg|e].
    + apply (IH _ _ (record_sighting_inv args _ _ sg Hinv) Hscan).
    + destruct e; simpl in Hscan; try discriminate;
        apply (IH _ _ (record_failure_inv _ _ _ Hinv) Hscan).
Qed.

Lemma scan_records_runs args extractor irs st :
  Forall (fun ir => absorbed (outcome args extractor ir)) irs ->
  exists st', scan_records args extractor st irs = Running st'.
Proof.
  intros Hall. revert st. induction Hall as [|ir irs Hir _ IH]; intros st.
  - now exists st.
  - cbn [scan_records]. unfold scan_record. unfold outcome in Hir.
    destruct (read_record args extractor ir.1 ir.2) as [sg|e]; [apply IH|].
    simpl in Hir. destruct e; simpl in Hir; try discriminate; apply IH.
Qed.

Lemma enumerate_from_lookup {A} k (l : list A) i :
  enumerate_from k l !! i = (fun x => (k + i, x)) <$> l !! i.
Proof.
  revert k i. induction l as [|x l IH]; intros k i; [reflexivity|].
  destruct i as [|i]; simpl; [now rewrite Nat.add_0_r|].
  rewrite IH. now replace (S k + i) with (k + S i) by lia.
Qed.

Lemma outcomes_lookup args extractor rxns i :
  outcomes args extractor rxns !! i
  = (fun reaction => read_record args extractor i reaction) <$> rxns !! i.
Proof.
  unfold outcomes, enumerate.
  change (map ?f ?l) with (f <$> l). rewrite list_lookup_fmap, enumerate_from_lookup.
  now destruct (rxns !! i).
Qed.

Lemma outcomes_length args extractor rxns :
  length (outcomes args extractor rxns) = length rxns.
Proof.
  unfold outcomes, enumerate. rewrite length_map.
  generalize 0. induction rxns as [|x l IH]; intros k; simpl; [done|]. now rewrite IH.
Qed.

(** *** The rows *)

Lemma make_row_inv st os k :
  registry_inv st os -> k ∈ keys (TemplateHs st) ->
  exists i sg,
    first_sighting k os = Some (i, Ok sg)
    /\ make_row st k
       = Ok {| Template := k; edit_site := sites_of sg; change_H := H_change sg;
               change_C := Charge_change sg; change_S := Chiral_change sg;
               Frequency := Z.of_nat (sightings k os) |}.
Proof.
  intros [_ _ Hmeta Hfreq] Hk. specialize (Hmeta k). specialize (Hfreq k).
  destruct (first_sighting k os) as [[i [sg|e]]|] eqn:E;
    try (now apply lookup_item_None in Hmeta).
  destruct Hmeta as (He & Hh & Hc & Hs). exists i, sg. split; [reflexivity|].
  unfold make_row. rewrite He, Hh, Hc, Hs. simpl. unfold freq in Hfreq. now rewrite Hfreq.
Qed.

Lemma rows_inv st os :
  registry_inv st os ->
  exists infos,
    map_result (make_row st) (keys (TemplateHs st)) = Ok infos
    /\ Forall2 (fun k row => make_row st k = Ok row) (keys (TemplateHs st)) infos.
Proof.
  intros Hinv.
  destruct (map_result_all_Ok (make_row st) (keys (TemplateHs st))) as [infos Hi].
  - apply Forall_forall. intros k Hk.
    destruct (make_row_inv _ _ _ Hinv Hk) as (i & sg & _ & ->). by eexists.
  - exists infos. split; [done|]. now apply map_result_Ok.
Qed.

(** What a scan that ran to its end returned. *)
Lemma extract_templates_Running rxns args extractor infos labels :
  extract_templates rxns args extractor = Running (infos, labels) ->
  exists st,
    registry_inv st (outcomes args extractor rxns)
    /\ labels = map label_of (outcomes args extractor rxns)
    /\ Forall2 (fun k row => make_row st k = Ok row) (keys (TemplateHs st)) infos.
Proof.
  unfold extract_templates. intros Hrun.
  destruct (scan_records args extractor empty_registry (enumerate rxns)) as [st| |] eqn:Hscan;
    try discriminate.
  pose proof (scan_records_inv _ _ _ _ _ _ registry_inv_empty Hscan) as Hinv.
  simpl in Hinv. fold (outcomes args extractor rxns) in Hinv.
  destruct (map_result (make_row st) (keys (TemplateHs st))) as [rows|] eqn:Hrows;
    [|discriminate].
  injection Hrun as <- <-. exists st. split; [done|]. split.
  - apply Hinv.
  - now apply map_result_Ok.
Qed.

Lemma extract_templates_runs rxns args extractor :
  Forall absorbed (outcomes args extractor rxns) ->
  exists infos labels, extract_templates rxns args extractor = Running (infos, labels).
Proof.
  intros Hall. unfold extract_templates.
  destruct (scan_records_runs args extractor (enumerate rxns) empty_registry) as [st Hscan].
  { unfold outcomes in Hall. change (map ?f ?l) with (f <$> l) in Hall.
    exact (proj1 (Forall_fmap _ _ _) Hall). }
  rewrite Hscan.
  pose proof (scan_records_inv _ _ _ _ _ _ registry_inv_empty Hscan) as Hinv.
  destruct (rows_inv _ _ Hinv) as (infos & -> & _). by do 2 eexists.
Qed.

Lemma make_row_Ok st os k row :
  registry_inv st os -> make_row st k = Ok row ->
  exists i sg,
    first_sighting k os = Some (i, Ok sg)
    /\ row = {| Template := k; edit_site := sites_of sg; change_H := H_change sg;
                change_C := Charge_change sg; change_S := Chiral_change sg;
                Frequency := Z.of_nat (sightings k os) |}.
Proof.
  intros Hinv Hrow.
  assert (Hk : k ∈ keys (TemplateHs st)).
  { apply lookup_item_None'. unfold make_row in Hrow.
    destruct (TemplateEdits st !! k); [|discriminate]. simpl in Hrow.
    destruct (lookup_item k (TemplateHs st)); [done|discriminate]. }
  destruct (make_row_inv _ _ _ Hinv Hk) as (i & sg & Hfirst & Heq).
  exists i, sg. split; [done|]. congruence.
Qed.

(** *** Counting *)

Lemma sumZ_map_add {A} (f g : A -> Z) l :
  sumZ (map (fun k => (f k + g k)%Z) l) = (sumZ (map f l) + sumZ (map g l))%Z.
Proof. induction l as [|x l IH]; simpl; lia. Qed.

Lemma sumZ_cons x l : sumZ (x :: l) = (x + sumZ l)%Z.
Proof. reflexivity. Qed.

Lemma sumZ_indicator (L : string) ks :
  NoDup ks ->
  sumZ (map (fun k => if decide (L = k) then 1%Z else 0%Z) ks)
  = if decide (L ∈ ks) then 1%Z else 0%Z.
Proof.
  induction 1 as [|k ks Hk Hnd IH]; cbn [map].
  - now rewrite decide_False by apply not_elem_of_nil.
  - rewrite sumZ_cons, IH. destruct (decide (L = k)) as [->|Hne].
    + rewrite (decide_False (P := k ∈ ks)) by done.
      rewrite decide_True by left. reflexivity.
    + destruct (decide (L ∈ ks)) as [Hin|Hout].
      * rewrite decide_True by now right. reflexivity.
      * rewrite decide_False; [reflexivity|].
        rewrite not_elem_of_cons. tauto.
Qed.

Lemma sumZ_zero {A} (l : list A) : sumZ (map (fun _ => 0%Z) l) = 0%Z.
Proof. induction l; simpl; lia. Qed.

Lemma sumZ_sightings ks os :
  NoDup ks ->
  (forall sg, Ok sg ∈ os -> template_H sg ∈ ks) ->
  sumZ (map (fun k => Z.of_nat (sightings k os)) ks)
  = Z.of_nat (length (filter succeeded os)).
Proof.
  intros Hnd. induction os as [|o os IH]; intros Hin.
  - apply sumZ_zero.
  - assert (Hstep : forall k, Z.of_nat (sightings k (o :: os))
              = ((if decide (produces k o) then 1 else 0) + Z.of_nat (sightings k os))%Z).
    { intros k. unfold sightings. rewrite filter_cons. case_decide; simpl; lia. }
    erewrite map_ext by (intros k; apply Hstep).
    rewrite sumZ_map_add, IH by (intros sg Hsg; apply Hin; now right).
    rewrite filter_cons. destruct o as [sg|e]; simpl.
    + rewrite (sumZ_indicator (template_H sg)) by done.
      rewrite decide_True by (apply Hin; left). lia.
    + rewrite sumZ_zero. lia.
Qed.

Lemma labels_not_NaN os :
  Forall (fun o => forall sg, o = Ok sg -> template_H sg <> "NaN") os ->
  length (filter (fun l => l <> "NaN") (map label_of os))
  = length (filter succeeded os).
Proof.
  induction 1 as [|o os Ho _ IH]; [reflexivity|].
  cbn [map]. destruct o as [sg|e]; cbn [label_of].
  - rewrite filter_cons_True by now apply Ho.
    rewrite (filter_cons_True succeeded) by done. simpl. now rewrite IH.
  - rewrite filter_cons_False by (intros Hne; now apply Hne).
    rewrite (filter_cons_False succeeded) by (simpl; tauto). exact IH.
Qed.

Lemma outcomes_labels args extractor rxns :
  Forall (fun o => forall sg, o = Ok sg -> template_H sg <> "NaN")
         (outcomes args extractor rxns).
Proof.
  apply Forall_forall. intros o Ho sg ->.
  apply list_elem_of_lookup in Ho as [i Hi]. rewrite outcomes_lookup in Hi.
  destruct (rxns !! i) as [reaction|]; [|discriminate]. injection Hi as Hi.
  now apply read_record_label in Hi.
Qed.

Lemma registry_inv_keys st os sg :
  registry_inv st os -> Ok sg ∈ os -> template_H sg ∈ keys (TemplateHs st).
Proof.
  intros [_ _ Hmeta _] Hin. specialize (Hmeta (template_H sg)).
  destruct (list_find_elem_of (produces (template_H sg)) os (Ok sg) Hin eq_refl)
    as [[i o] Hfind].
  unfold first_sighting in Hmeta. rewrite Hfind in Hmeta.
  destruct (first_sighting_is_Ok _ _ _ _ Hfind) as (sg0 & -> & _).
  apply lookup_item_None'. destruct Hmeta as (_ & -> & _). done.
Qed.

(** C2.  When [extract_templates] completes, the [Frequency] values of the
    rows of the template table add up to the number of labels of the label
    sequence that differ from the sentinel "NaN". *)
Theorem frequency_sum rxns args extractor infos labels :
  extract_templates rxns args extractor = Running (infos, labels) ->
  sumZ (map Frequency infos)
  = Z.of_nat (length (filter (fun l => l <> "NaN") labels)).
Proof.
  intros (st & Hinv & -> & Hrows)%extract_templates_Running.
  set (os := outcomes args extractor rxns) in *.
  rewrite labels_not_NaN by apply outcomes_labels.
  rewrite <- (sumZ_sightings (keys (TemplateHs st)) os).
  - f_equal. induction Hrows as [|k row ks rows Hrow _ IH]; [reflexivity|].
    destruct (make_row_Ok _ _ _ _ Hinv Hrow) as (i & sg & _ & ->).
    simpl. now rewrite IH.
  - apply Hinv.
  - intros sg. now apply registry_inv_keys.
Qed.

(** *** Failures the scan absorbs *)

Lemma map_result_Raise {A B} (f : A -> result B) l e :
  map_result f l = Raise e -> exists x, x ∈ l /\ f x = Raise e.
Proof.
  induction l as [|x l IH]; [discriminate|]. simpl.
  destruct (f x) as [y|e'] eqn:Hx; simpl.
  - destruct (map_result f l) as [ys|e'']; [discriminate|].
    intros [= ->]. destruct (IH eq_refl) as (x' & Hin & Hx'). exists x'.
    split; [now right|done].
  - intros [= ->]. exists x. split; [left|done].
Qed.

Lemma change_code_Raise d e : change_code d = Raise e -> e = KeyError.
Proof.
  unfold change_code. destruct (map_result _ _) as [codes|e'] eqn:Hm; [discriminate|].
  intros [= ->]. apply map_result_Raise in Hm as (k & _ & Hk).
  destruct (d !! _); [discriminate|]. now injection Hk.
Qed.

Lemma get_full_template_Raise template H C S e :
  get_full_template template H C S = Raise e -> e = KeyError.
Proof.
  unfold get_full_template.
  destruct (change_code H) as [hc|e1] eqn:E1;
    [|intros [= <-]; now apply change_code_Raise in E1].
  destruct (change_code C) as [cc|e2] eqn:E2;
    [|intros [= <-]; now apply change_code_Raise in E2].
  destruct (change_code S) as [sc|e3] eqn:E3;
    [|intros [= <-]; now apply change_code_Raise in E3].
  simpl. now destruct (String.eqb sc "").
Qed.


(** The failure modes named by the specification, as [read_record] meets
    them. *)
Lemma read_record_missing_field args extractor i reaction r p result :
  split ">>" reaction = [r; p] ->
  extractor {| reactants := r; products := p; _id := i |} = Ok (Some result) ->
  res_reactants result = None \/ res_reaction_smarts result = None ->
  read_record args extractor i reaction = Raise (Exception_ "template problem").
Proof.
  intros Hs He Hmiss. unfold read_record, get_reaction_template.
  rewrite Hs, index_0, index_1, !bind_Ok, He, bind_Ok.
  simpl. destruct Hmiss as [Hm|Hm]; rewrite Hm; simpl; [reflexivity|].
  now destruct (res_reactants result).
Qed.


(** C4.  Every row of the table holds the edit sites and the three change
    dictionaries of the first record, in input order, that produced the
    row's label; its [Frequency] is the number of records that produced
    that label. *)
Theorem first_occurrence_wins rxns args extractor infos labels :
  extract_templates rxns args extractor = Running (infos, labels) ->
  forall row, row ∈ infos ->
    exists i reaction sg,
      rxns !! i = Some reaction
      /\ read_record args extractor i reaction = Ok sg
      /\ template_H sg = Template row
      /\ (forall j reaction', j < i -> rxns !! j = Some reaction' ->
            ~ produces (Template row) (read_record args extractor j reaction'))
      /\ edit_site row = sites_of sg
      /\ change_H row = H_change sg
      /\ change_C row = Charge_change sg
      /\ change_S row = Chiral_change sg
      /\ Frequency row
         = Z.of_nat (sightings (Template row) (outcomes args extractor rxns)).
Proof.
  intros (st & Hinv & -> & Hrows)%extract_templates_Running row Hrow.
  apply list_elem_of_lookup in Hrow as [n Hn].
  destruct (Forall2_lookup_r _ _ _ _ _ Hrows Hn) as (k & _ & Hk).
  destruct (make_row_Ok _ _ _ _ Hinv Hk) as (i & sg & Hfirst & ->).
  apply list_find_Some in Hfirst as (Hi & Hp & Hmin).
  rewrite outcomes_lookup in Hi.
  destruct (rxns !! i) as [reaction|] eqn:Hrx; [|discriminate].
  injection Hi as Hi. exists i, reaction, sg. simpl.
  do 3 (split; [done|]). split; [|done].
  intros j reaction' Hlt Hj. apply (Hmin j); [|exact Hlt].
  now rewrite outcomes_lookup, Hj.
Qed.

(** * Concrete runs *)

Section Runs.
Local Existing Instance Toy.rdkit.

Example toy_roundtrip :
  MolToSmiles <$> MolFromSmiles "[C@:12]O[N:3]" = Some "[C@:12]O[N:3]".
Proof. reflexivity. Qed.

Example remove_reagents_run :
  remove_reagents "[C:1]O.[N:2].[C:3][O:4]>>[C:1][O:4]"
  = Ok "[C:1]O.C[O:4]>>[C:1][O:4]".
Proof. vm_compute. reflexivity. Qed.

Example extract_templates_interrupted :
  extract_templates ["A>>B"; "stop>>X"; "C>>D"] Toy.args Toy.interrupted_extractor
  = Exited.
Proof. vm_compute. reflexivity. Qed.

(** C7.  The filter tests [count >= 1] to reject a text without reactant
    compounds, but [count] is the length of [split(".")], which is 1 for an
    empty reactant segment: the merged-form text ">>C", with no reactant
    compound at all, is returned unchanged instead of the sentinel. *)
Theorem reactant_count_filter_no_reactants :
  merged_form ">>C"
  /\ index (split ">>" ">>C") 0 = Ok ""
  /\ split "." "" = [""]
  /\ reactant_count_filter ">>C" = Ok ">>C"
  /\ reactant_count_filter ">>C" <> Ok "Error: too many reactants".
Proof. repeat split; try reflexivity. discriminate. Qed.

(** Such a text is what [remove_reagents] hands on when no reactant carries
    a map number of the product. *)
Example unused_reactants_pass_the_filter :
  (remove_reagents "C.O>>[C:1]O" ≫= reactant_count_filter) = Ok ">>[C:1]O".
Proof. vm_compute. reflexivity. Qed.

Example reactant_count_filter_bounds_run :
  merged_form "A.B>>C"
  /\ ((reactant_count_filter "A.B>>C" = Ok "Error: too many reactants"
        <-> (reactant_count "A.B>>C" = 0 \/ 4 < reactant_count "A.B>>C")%nat)
      /\ ((1 <= reactant_count "A.B>>C" <= 4)%nat ->
          reactant_count_filter "A.B>>C" = Ok "A.B>>C")).
Proof.
  split; [reflexivity|]. apply (reactant_count_filter_bounds "A.B>>C"). reflexivity.
Qed.

(** The two cases of C9 on "A>>C" and "A>B>C". *)
Lemma join_reactants_reagents_spec_witness :
  (merged_form "A>>C" /\ join_reactants_reagents "A>>C" = Ok "A>>C")
  /\ (~ merged_form "A>B>C" /\ count_char ">" "A>B>C" = 2
      /\ exists a b c,
           "A>B>C" = a +:+ ">" +:+ b +:+ ">" +:+ c
           /\ join_reactants_reagents "A>B>C" = Ok (a +:+ "." +:+ b +:+ ">>" +:+ c)
           /\ count ">>" (a +:+ "." +:+ b +:+ ">>" +:+ c) = 1
           /\ count_char ">" (a +:+ "." +:+ b +:+ ">>" +:+ c) = 2).
Proof.
  split.
  - split; [reflexivity|].
    apply (proj1 (join_reactants_reagents_spec "A>>C")). reflexivity.
  - assert (Hn : ~ merged_form "A>B>C") by (unfold merged_form; simpl; discriminate).
    split; [exact Hn|]. split; [reflexivity|].
    apply (proj2 (join_reactants_reagents_spec "A>B>C") Hn). reflexivity.
Defined.

(** C5 on "CO>>[C@]O": the stereo mark goes, the reactants stay. *)
Lemma remove_stereoalchemy_frame_witness :
  index (split ">>" "CO>>[C@]O") 0 = Ok "CO"
  /\ index (split ">>" "CO>>[C@]O") 1 = Ok "[C@]O"
  /\ contains "@" "[C@]O" = true
  /\ contains "@" "CO" = false
  /\ remove_stereoalchemy "CO>>[C@]O" = Ok "CO>>CO"
  /\ index (split ">>" "CO>>CO") 0 = Ok "CO"
  /\ (split ">>" "CO>>[C@]O" = ["CO"; "[C@]O"] ->
      exists m, MolFromSmiles "[C@]O" = Some m
        /\ "CO>>CO" = "CO" +:+ ">>" +:+ MolToSmiles (RemoveStereochemistry m)).
Proof.
  do 5 (split; [reflexivity|]).
  apply (remove_stereoalchemy_frame "CO>>[C@]O" "CO" "[C@]O" "CO>>CO"); reflexivity.
Defined.



(** The amended C8 on "A>>CC.CCCCCC". *)
Lemma multiproduct_fixer_spec_witness :
  split ">>" "A>>CC.CCCCCC" = ["A"; "CC.CCCCCC"]
  /\ (1 < length (split "." "CC.CCCCCC"))%nat
  /\ (Forall parses (split "." "CC.CCCCCC") ->
        (forall p, survivors (split "." "CC.CCCCCC") = [p] ->
           multiproduct_fixer "A>>CC.CCCCCC" = Ok ("A" +:+ ">>" +:+ p))
        /\ (length (survivors (split "." "CC.CCCCCC")) <> 1%nat ->
           multiproduct_fixer "A>>CC.CCCCCC" = Ok "Error: too many products"))
  /\ (~ Forall parses (split "." "CC.CCCCCC") ->
        multiproduct_fixer "A>>CC.CCCCCC" = Ok "Error: invalid product")
  /\ ("CC.CCCCCC" = "CC.CCCCCC" ->
      (exists n, heavy_count "CC" = Some n /\ (n <= 5)%Z) ->
      (exists n, heavy_count "CCCCCC" = Some n /\ (5 < n)%Z) ->
      multiproduct_fixer "A>>CC.CCCCCC" = Ok ("A" +:+ ">>" +:+ "CCCCCC")).
Proof.
  split; [reflexivity|]. split; [simpl; lia|].
  apply (multiproduct_fixer_spec "A>>CC.CCCCCC" "A" "CC.CCCCCC" []);
    [reflexivity|simpl; lia].
Defined.

(** C8, as stated, fails: of the two product compounds only "CCCCCC" has
    more than 5 heavy atoms, yet the row is rejected because "x" does not
    parse. *)
Lemma multiproduct_fixer_unparsed :
  survivors (split "." "x.CCCCCC") = ["CCCCCC"]
  /\ multiproduct_fixer "A>>x.CCCCCC" = Ok "Error: invalid product"
  /\ multiproduct_fixer "A>>x.CCCCCC" <> Ok ("A" +:+ ">>" +:+ "CCCCCC").
Proof. repeat split; [reflexivity..|discriminate]. Qed.




End Runs.



(** C2 on the sample input: two rows, three labels that are not "NaN". *)
Lemma frequency_sum_witness :
  exists infos labels,
    extract_templates Toy.rxns Toy.args Toy.extractor = Running (infos, labels)
    /\ sumZ (map Frequency infos)
       = Z.of_nat (length (filter (fun l => l <> "NaN") labels)).
Proof.
  eexists _, _. split; [vm_compute; reflexivity|].
  apply (frequency_sum Toy.rxns Toy.args Toy.extractor). vm_compute. reflexivity.
Defined.



(** C4 on the sample input. *)
Lemma first_occurrence_wins_witness :
  exists infos labels,
    extract_templates Toy.rxns Toy.args Toy.extractor = Running (infos, labels)
    /\ forall row, row ∈ infos ->
         exists i reaction sg,
           Toy.rxns !! i = Some reaction
           /\ read_record Toy.args Toy.extractor i reaction = Ok sg
           /\ template_H sg = Template row
           /\ (forall j reaction', j < i -> Toy.rxns !! j = Some reaction' ->
                 ~ produces (Template row)
                     (read_record Toy.args Toy.extractor j reaction'))
           /\ edit_site row = sites_of sg
           /\ change_H row = H_change sg
           /\ change_C row = Charge_change sg
           /\ change_S row = Chiral_change sg
           /\ Frequency row
              = Z.of_nat (sightings (Template row)
                            (outcomes Toy.args Toy.extractor Toy.rxns)).
Proof.
  eexists _, _. split; [vm_compute; reflexivity|].
  eapply (first_occurrence_wins Toy.rxns Toy.args Toy.extractor). vm_compute. reflexivity.
Defined.

(** * More on the cleaning stage *)

Section CleaningMore.
Context `{RDKit}.

Lemma occurs_char_false c a rest :
  occurs_from (String c "") a rest = false -> has_char c a = false.
Proof.
  intros Hocc%occurs_from_mono. now rewrite <- contains_occurs, contains_char in Hocc.
Qed.

Lemma remove_fragment_info_prefix_aux rxn :
  exists out, remove_fragment_info rxn = Ok out /\ has_char " " out = false.
Proof.
  unfold remove_fragment_info.
  destruct (split_decomp " " "" rxn) as [[Hocc Hs]|(a & b & -> & Hocc & Hs)];
    rewrite Hs, index_0; eexists; (split; [reflexivity|]);
    now apply occurs_char_false in Hocc.
Qed.

(** X1.  [remove_fragment_info] returns, on every text, the part before the
    first space: the result holds no space and the input is the result,
    alone or followed by a space and more. *)
Theorem remove_fragment_info_prefix rxn :
  exists out, remove_fragment_info rxn = Ok out
    /\ has_char " " out = false
    /\ (rxn = out \/ exists rest, rxn = out +:+ " " +:+ rest).
Proof.
  unfold remove_fragment_info.
  destruct (split_decomp " " "" rxn) as [[Hocc Hs]|(a & b & -> & Hocc & Hs)];
    rewrite Hs, index_0.
  - exists rxn. split; [done|]. split; [|now left]. now apply occurs_char_false in Hocc.
  - exists a. split; [done|]. split; [now apply occurs_char_false in Hocc|].
    right. now exists b.
Qed.

(** Cutting at the first space a second time changes nothing. *)
Theorem remove_fragment_info_idempotent rxn :
  (remove_fragment_info rxn ≫= remove_fragment_info) = remove_fragment_info rxn.
Proof.
  destruct (remove_fragment_info_prefix_aux rxn) as (out & Hout & Hclean).
  rewrite Hout, bind_Ok. unfold remove_fragment_info.
  rewrite split_none by now apply occurs_from_no_char. reflexivity.
Qed.

(** X2.  [join_reactants_reagents] returns exactly on the texts that are merged
    or hold at least two [>]; on the others the segment lookup raises
    [IndexError], and nothing else is ever raised. *)
Theorem join_reactants_reagents_returns rxn :
  (returns (join_reactants_reagents rxn)
     <-> merged_form rxn \/ (2 <= count_char ">" rxn)%nat)
  /\ (forall e, join_reactants_reagents rxn = Raise e -> e = IndexError).
Proof.
  unfold join_reactants_reagents, merged_form, returns.
  destruct (contains ">>" rxn) eqn:Hm.
  { split; [|discriminate]. split; [now left|]. intros _. by eexists. }
  pose proof (split_char_length ">" rxn) as Hlen.
  destruct (split ">" rxn) as [|a [|b [|c l]]]; simpl in Hlen.
  - lia.
  - split; [|now intros e [= <-]]. split; [intros [? [=]]|]. intros [[=]|?]. lia.
  - split; [|now intros e [= <-]]. split; [intros [? [=]]|]. intros [[=]|?]. lia.
  - split; [|discriminate]. split; [|intros _; by eexists]. intros _. right. lia.
Qed.

(** Joining the reagents twice is joining them once. *)
Theorem join_reactants_reagents_idempotent rxn :
  (join_reactants_reagents rxn ≫= join_reactants_reagents)
  = join_reactants_reagents rxn.
Proof.
  unfold join_reactants_reagents at 2 3.
  destruct (contains ">>" rxn) eqn:Hm.
  { rewrite bind_Ok. unfold join_reactants_reagents. now rewrite Hm. }
  destruct (split ">" rxn) as [|a [|b [|c l]]]; try reflexivity.
  rewrite !index_0, !bind_Ok.
  change (index (a :: b :: c :: l) 1) with (Ok b).
  change (index (a :: b :: c :: l) 2) with (Ok c). rewrite !bind_Ok.
  unfold join_reactants_reagents.
  assert (contains ">>" (a +:+ "." +:+ b +:+ ">>" +:+ c) = true) as ->; [|reflexivity].
  do 3 apply contains_app_r. apply contains_app_l. reflexivity.
Qed.

(** X3.  [reactant_count_filter] returns on every text, merged or not, and it
    rejects exactly when the first segment holds four or more compound
    separators: a text is never rejected for having too few reactants. *)
Theorem reactant_count_filter_dots rxn r t :
  split ">>" rxn = r :: t ->
  reactant_count_filter rxn
  = Ok (if (4 <=? count_char "." r)%nat then "Error: too many reactants" else rxn).
Proof.
  intros Hs. unfold reactant_count_filter. rewrite Hs, index_0, bind_Ok.
  rewrite split_char_length.
  destruct (4 <=? count_char "." r)%nat eqn:E.
  - apply Nat.leb_le in E.
    assert ((S (count_char "." r) <? 5)%nat = false) as -> by (apply Nat.ltb_ge; lia).
    reflexivity.
  - apply Nat.leb_gt in E.
    assert ((S (count_char "." r) <? 5)%nat = true) as -> by (apply Nat.ltb_lt; lia).
    reflexivity.
Qed.

(** *** [remove_reagents] on a product without map numbers *)

Lemma visit_atoms_no_maps m l :
  (foldl (visit_atom ∅) (m, false) l).2 = false.
Proof.
  revert m. induction l as [|i l IH]; intros m; [reflexivity|].
  simpl foldl. destruct (GetAtomMapNumber m i) as [n|]; [|apply IH].
  rewrite bool_decide_eq_false_2 by set_solver. apply IH.
Qed.

Lemma keep_used_no_maps l : keep_used ∅ l = [].
Proof.
  induction l as [|s l IH]; [reflexivity|]. simpl.
  destruct (MolFromSmiles s) as [m|]; [|exact IH].
  unfold scan_atoms.
  pose proof (visit_atoms_no_maps m (seq 0 (GetNumAtoms m))) as Hu.
  destruct (foldl _ _ _) as [m' used]. simpl in Hu. now rewrite Hu.
Qed.

(** X4.  When the product segment carries no map number, [remove_reagents] drops
    every reactant: the result is the pair ">>" followed by the product. *)
Theorem remove_reagents_unmapped_product rxn p :
  index (split ">>" rxn) 1 = Ok p ->
  findall_maps p = [] ->
  remove_reagents rxn = Ok (">>" +:+ p).
Proof.
  intros Hp Hmaps. unfold remove_reagents.
  destruct (split ">>" rxn) as [|r [|p' rest]]; try discriminate.
  rewrite index_1 in Hp. injection Hp as ->.
  rewrite index_0, index_1, !bind_Ok. cbv zeta. rewrite Hmaps.
  change (list_to_set []) with (∅ : gset string). now rewrite keep_used_no_maps.
Qed.

(** *** The map numbers read off the product *)

Lemma take_digits_spec s :
  s = (take_digits s).1 +:+ (take_digits s).2
  /\ all_digits (take_digits s).1 = true
  /\ match (take_digits s).2 with
     | "" => True
     | String c _ => is_digit c = false
     end.
Proof.
  induction s as [|c s (IH1 & IH2 & IH3)]; [done|].
  simpl take_digits. destruct (is_digit c) eqn:Hc.
  - destruct (take_digits s) as [d rest]. simpl in *.
    rewrite sapp_cons, <- IH1, Hc. done.
  - simpl. now rewrite Hc.
Qed.

Lemma take_digits_app d rest :
  all_digits d = true ->
  match rest with "" => True | String c _ => is_digit c = false end ->
  take_digits (d +:+ rest) = (d, rest).
Proof.
  intros Hd Hrest. induction d as [|c d IH].
  - destruct rest as [|c rest]; [reflexivity|]. simpl. now rewrite Hrest.
  - simpl in Hd. apply andb_prop in Hd as [Hc Hd].
    rewrite sapp_cons. simpl. now rewrite Hc, (IH Hd).
Qed.

Lemma findall_maps_app a s d : d ∈ findall_maps s -> d ∈ findall_maps (a +:+ s).
Proof.
  intros Hd. induction a as [|c a IH]; [exact Hd|].
  rewrite sapp_cons. cbn [findall_maps]. apply elem_of_app. now right.
Qed.

(** X5.  [product_maps] holds exactly the non-empty digit runs that stand
    between a colon and a closing bracket. *)
Theorem findall_maps_spec s d :
  d ∈ findall_maps s
  <-> d <> "" /\ all_digits d = true
      /\ exists a b, s = a +:+ ":" +:+ d +:+ "]" +:+ b.
Proof.
  split.
  - induction s as [|c s IH]; [intros []%elem_of_nil|].
    cbn [findall_maps]. intros [Hhere|Hrest]%elem_of_app.
    + destruct (Ascii.eqb_spec c ":") as [->|]; [|now apply elem_of_nil in Hhere].
      destruct (take_digits_spec s) as (Hs & Hd & _).
      destruct (take_digits s) as [[|x ds] [|y rest]]; simpl in *;
        try (now apply elem_of_nil in Hhere).
      destruct y as [[] [] [] [] [] [] [] []]; try (now apply elem_of_nil in Hhere).
      apply list_elem_of_singleton in Hhere as ->.
      split; [done|]. split; [done|]. exists "", rest. now rewrite Hs.
    + destruct (IH Hrest) as (Hne & Hd & a & b & ->).
      split; [done|]. split; [done|]. now exists (String c a), b.
  - intros (Hne & Hd & a & b & ->). apply findall_maps_app.
    change (":" +:+ d +:+ "]" +:+ b) with (String ":" (d +:+ String "]" b)).
    cbn [findall_maps]. apply elem_of_app. left.
    rewrite take_digits_app by done.
    destruct d as [|x d]; [done|]. apply list_elem_of_singleton. reflexivity.
Qed.

(** *** What [multiproduct_fixer] hands on *)

Lemma split_char_piece_sub c s p :
  p ∈ split (String c "") s -> exists a b, s = a +:+ p +:+ b.
Proof.
  revert p. induction s as [|x s IH]; intros p.
  - intros ->%list_elem_of_singleton. now exists "", "".
  - rewrite split_char_cons. destruct (Ascii.eqb c x).
    + intros [->|Hp]%elem_of_cons.
      * now exists "", (String x s).
      * destruct (IH _ Hp) as (a & b & ->). now exists (String x a), b.
    + destruct (split (String c "") s) as [|h t] eqn:Hs.
      { now destruct (split_go_nonempty (String c "") 0 s). }
      simpl cons_head. intros [->|Hp]%elem_of_cons.
      * destruct (split_starts_with _ _ _ _ _ Hs) as [rest ->].
        now exists "", rest.
      * destruct (IH p) as (a & b & ->); [now right|]. now exists (String x a), b.
Qed.

Lemma contains_sub sub a p b :
  contains sub p = true -> contains sub (a +:+ p +:+ b) = true.
Proof. intros Hp. now apply contains_app_r, contains_app_l. Qed.

Lemma survivors_parse l p : Forall parses l -> p ∈ survivors l -> parses p /\ p ∈ l.
Proof.
  intros Hall Hp. unfold survivors in Hp.
  apply list_elem_of_In, filter_In in Hp as [Hin _].
  apply list_elem_of_In in Hin. split; [|done].
  rewrite Forall_forall in Hall. now apply Hall.
Qed.

(** A row that [multiproduct_fixer] lets through has the reactant segment
    it came with and one product compound, which parses. *)
Lemma multiproduct_fixer_accepted rxn out :
  multiproduct_fixer rxn = Ok out -> tagged_error out = false ->
  exists r p rest,
    split ">>" out = r :: p :: rest
    /\ index (split ">>" rxn) 0 = Ok r
    /\ has_char "." p = false
    /\ parses p.
Proof.
  intros Hout Hclean.
  destruct (split ">>" rxn) as [|r [|seg rest]] eqn:Hs;
    try (unfold multiproduct_fixer in Hout; rewrite Hs in Hout; discriminate).
  destruct (le_lt_dec (length (split "." seg)) 1) as [Hle|Hlt].
  - (* one product compound *)
    assert (Hdot : has_char "." seg = false).
    { apply has_char_count. rewrite split_char_length in Hle. lia. }
    unfold multiproduct_fixer in Hout. rewrite Hs, index_1, bind_Ok in Hout.
    cbv zeta in Hout. apply Nat.ltb_ge in Hle. rewrite Hle in Hout.
    rewrite split_none in Hout by now apply occurs_from_no_char.
    rewrite index_0, bind_Ok in Hout.
    destruct (MolFromSmiles seg) as [m|] eqn:Hm.
    + injection Hout as <-. exists r, seg, rest. rewrite Hs.
      do 3 (split; [done|]). unfold parses. rewrite Hm. by eexists.
    + injection Hout as <-. discriminate Hclean.
  - (* several product compounds *)
    rewrite (multiproduct_fixer_many _ _ _ _ Hs Hlt) in Hout.
    destruct (decide (Forall parses (split "." seg))) as [Hall|];
      [|injection Hout as <-; discriminate Hclean].
    destruct (survivors (split "." seg)) as [|p [|q l]] eqn:Hsurv;
      try (injection Hout as <-; discriminate Hclean).
    injection Hout as <-.
    destruct (survivors_parse _ p Hall) as [Hparse Hin]; [rewrite Hsurv; left|].
    destruct (split_two _ _ _ _ _ _ Hs) as (t & -> & Hocc & Ht).
    pose proof (split_first_clean _ _ _ _ _ Ht) as Hseg.
    exists r, p, []. split; [|split; [done|split; [|done]]].
    + rewrite split_first by now rewrite (occurs_from_sep_irrel _ _ _ t).
      rewrite split_none; [done|]. rewrite <- contains_occurs.
      destruct (contains ">>" p) eqn:Hp; [|done].
      destruct (split_char_piece_sub _ _ _ Hin) as (a & b & Hab).
      rewrite Hab, (contains_sub _ _ _ _ Hp) in Hseg. discriminate.
    + pose proof (split_char_pieces "." seg) as Hpieces.
      rewrite Forall_forall in Hpieces. now apply Hpieces.
Qed.

(** X6.  A text that [multiproduct_fixer] returns without an error tag keeps the
    reactant segment of the input and has exactly one product compound,
    which parses. *)
Theorem multiproduct_fixer_one_product rxn out :
  multiproduct_fixer rxn = Ok out ->
  tagged_error out = false ->
  index (split ">>" out) 0 = index (split ">>" rxn) 0
  /\ exists p, index (split ">>" out) 1 = Ok p
       /\ length (split "." p) = 1%nat
       /\ parses p.
Proof.
  intros Hout Hclean.
  destruct (multiproduct_fixer_accepted _ _ Hout Hclean)
    as (r & p & rest & Hs & Hr & Hdot & Hparse).
  rewrite Hs, Hr. split; [reflexivity|]. exists p. split; [reflexivity|].
  split; [|done]. rewrite split_char_length. apply has_char_count in Hdot. lia.
Qed.

(** *** The stages after [multiproduct_fixer] *)

Lemma replace_in_product r p rest' new :
  has_char "@" p = true -> has_char "@" r = false -> contains ">>" p = false ->
  replace p new (r +:+ ">>" +:+ p +:+ rest')
  = r +:+ ">>" +:+ replace_go p new 0 (p +:+ rest').
Proof.
  intros Hp Hr Hclean. destruct p as [|x p]; [discriminate|]. unfold replace.
  rewrite <- (sapp_assoc r), replace_go_first, sapp_assoc; [done|].
  rewrite occurs_from_app, (no_occurrence_in_reactants "@") by done.
  now rewrite (no_occurrence_in_separator "@").
Qed.

Lemma remove_stereoalchemy_merged rxn out :
  remove_stereoalchemy rxn = Ok out -> merged_form out.
Proof.
  intros Hout. unfold remove_stereoalchemy in Hout.
  destruct (split ">>" rxn) as [|r [|p rest]] eqn:Hs; try discriminate.
  rewrite index_0, index_1, !bind_Ok in Hout.
  assert (Hm : merged_form rxn) by (apply merged_form_split; eauto).
  destruct (contains "@" p) eqn:Hp; [|now injection Hout as <-].
  destruct (contains "@" r) eqn:Hr; simpl in Hout; [now injection Hout as <-|].
  destruct (MolFromSmiles p) as [m|]; [|discriminate]. injection Hout as <-.
  rewrite contains_char in Hp, Hr.
  destruct (split_two _ _ _ _ _ _ Hs) as (t & -> & _ & Ht).
  destruct (split_starts_with _ _ _ _ _ Ht) as [rest' ->].
  rewrite replace_in_product by eauto using split_first_clean.
  unfold merged_form. apply contains_app_r, contains_app_l. reflexivity.
Qed.

Lemma product_in_reactants_returns rxn :
  merged_form rxn -> returns (product_in_reactants rxn).
Proof.
  intros (r & p & rest & Hs)%merged_form_split. unfold product_in_reactants, returns.
  rewrite Hs, index_0, index_1, !bind_Ok. destruct (bool_decide _); by eexists.
Qed.

(** X7.  Once [multiproduct_fixer] has let a row through, none of the next three
    stages raises on it: [no_carbon] returns the row or its sentinel,
    [remove_stereoalchemy] returns a text and [product_in_reactants] returns
    on that text. *)
Theorem accepted_row_is_safe rxn out :
  multiproduct_fixer rxn = Ok out ->
  tagged_error out = false ->
  (no_carbon out = Ok out \/ no_carbon out = Ok "Error: no organic product")
  /\ exists out', remove_stereoalchemy out = Ok out'
       /\ returns (product_in_reactants out').
Proof.
  intros Hout Hclean.
  destruct (multiproduct_fixer_accepted _ _ Hout Hclean)
    as (r & p & rest & Hs & _ & _ & [m Hm]).
  split.
  - unfold no_carbon. rewrite Hs, index_1, bind_Ok, Hm.
    destruct (HasCarbonMatch m); auto.
  - assert (exists out', remove_stereoalchemy out = Ok out') as [out' Hout'].
    { unfold remove_stereoalchemy. rewrite Hs, index_0, index_1, !bind_Ok, Hm.
      destruct (contains "@" p); [|by eexists].
      destruct (negb (contains "@" r)); by eexists. }
    exists out'. split; [done|].
    apply product_in_reactants_returns. now apply remove_stereoalchemy_merged in Hout'.
Qed.

End CleaningMore.

(** * More on the template labels and the scan *)

(** *** When a label can be built *)

Lemma map_result_returns_iff {A B} (f : A -> result B) l :
  returns (map_result f l) <-> Forall (fun x => returns (f x)) l.
Proof.
  split; [|apply map_result_all_Ok].
  intros [ys Hys]. apply map_result_Ok in Hys.
  induction Hys as [|x y l ys Hx _ IH]; constructor; [by eexists|done].
Qed.

Lemma change_code_returns d :
  returns (change_code d)
  <-> forall j : nat, j < size d -> is_Some (d !! (Z.of_nat j + 1)%Z).
Proof.
  unfold change_code.
  set (f := fun k : nat => v ← getitem (d !! (Z.of_nat k + 1)%Z); Ok (str v)).
  transitivity (returns (map_result f (seq 0 (size d)))).
  { unfold returns. destruct (map_result f (seq 0 (size d))); simpl;
      split; intros [? ?]; try discriminate; by eexists. }
  rewrite map_result_returns_iff, Forall_forall. split.
  - intros Hall j Hj. destruct (Hall j) as [y Hy]; [apply elem_of_seq; lia|].
    unfold f in Hy. destruct (d !! (Z.of_nat j + 1)%Z); [by eexists|discriminate].
  - intros Hall j [_ Hj]%elem_of_seq. destruct (Hall j) as [v Hv]; [lia|].
    unfold f. rewrite Hv. by eexists.
Qed.

Lemma change_code_keys d : returns (change_code d) <-> keyed_from_one d.
Proof.
  rewrite change_code_returns. split.
  - intros Hall.
    set (S := list_to_set ((fun j : nat => (Z.of_nat j + 1)%Z) <$> seq 0 (size d)) : gset Z).
    assert (HS : forall k, k ∈ S <-> (1 <= k <= Z.of_nat (size d))%Z).
    { intros k. unfold S. rewrite elem_of_list_to_set, list_elem_of_fmap. split.
      - intros (j & -> & [_ Hj]%elem_of_seq). lia.
      - intros Hk. exists (Z.to_nat (k - 1)). split; [lia|]. apply elem_of_seq. lia. }
    assert (Heq : S = dom d).
    { apply set_subseteq_size_eq.
      - intros k [Hk1 Hk2]%HS. apply elem_of_dom.
        replace k with (Z.of_nat (Z.to_nat (k - 1)) + 1)%Z by lia. apply Hall. lia.
      - rewrite size_dom. unfold S. rewrite size_list_to_set.
        + now rewrite length_fmap, length_seq.
        + apply NoDup_fmap_2; [intros ???; lia|apply NoDup_seq]. }
    intros k. now rewrite <- elem_of_dom, <- Heq.
  - intros Hkeys j Hj. apply Hkeys. lia.
Qed.

(** X8.  [get_full_template] returns exactly when each of the three change
    dictionaries is keyed by [1 .. len]; any other key set makes it raise,
    and what it raises is [KeyError]. *)
Theorem get_full_template_keys template H C S :
  (returns (get_full_template template H C S)
     <-> keyed_from_one H /\ keyed_from_one C /\ keyed_from_one S)
  /\ (forall e, get_full_template template H C S = Raise e -> e = KeyError).
Proof.
  split; [|apply get_full_template_Raise].
  rewrite <- !change_code_keys. unfold get_full_template, returns.
  destruct (change_code H) as [hc|]; simpl.
  2:{ split; [intros [? [=]]|intros ([? [=]] & _)]. }
  destruct (change_code C) as [cc|]; simpl.
  2:{ split; [intros [? [=]]|intros (_ & [? [=]] & _)]. }
  destruct (change_code S) as [sc|]; simpl.
  2:{ split; [intros [? [=]]|intros (_ & _ & [? [=]])]. }
  split; [intros _; repeat split; by eexists|].
  intros _. destruct (String.eqb sc ""); by eexists.
Qed.

(** *** Reading a label back *)

Lemma get_full_template_fields template H C S label :
  get_full_template template H C S = Ok label ->
  exists hc cc sc,
    change_code H = Ok hc /\ change_code C = Ok cc /\ change_code S = Ok sc
    /\ Forall (fun p => has_char "_" p = false) [hc; cc; sc]
    /\ label = join "_" ([template; hc; cc] ++ if String.eqb sc "" then [] else [sc]).
Proof.
  unfold get_full_template. intros Hl.
  destruct (change_code H) as [hc|] eqn:Hh; [|discriminate].
  destruct (change_code C) as [cc|] eqn:Hc; [|discriminate].
  destruct (change_code S) as [sc|] eqn:Hs; [|discriminate].
  simpl in Hl. exists hc, cc, sc. do 3 (split; [done|]). split.
  - repeat constructor; eauto using change_code_no_underscore.
  - destruct (String.eqb sc ""); now injection Hl as <-.
Qed.

(** X9.  Two results with the same label and patterns free of ["_"] have the same
    pattern and the same three change codes: the label can be read back. *)
Theorem label_determines_fields t H C S t' H' C' S' label :
  get_full_template t H C S = Ok label ->
  get_full_template t' H' C' S' = Ok label ->
  has_char "_" t = false ->
  has_char "_" t' = false ->
  t = t'
  /\ change_code H = change_code H'
  /\ change_code C = change_code C'
  /\ change_code S = change_code S'.
Proof.
  intros (hc & cc & sc & -> & -> & -> & Hclean & ->)%get_full_template_fields
         (hc' & cc' & sc' & -> & -> & -> & Hclean' & Heq)%get_full_template_fields
         Ht Ht'.
  rewrite !Forall_cons in Hclean, Hclean'.
  destruct Hclean as (Hh & Hc & Hs & _), Hclean' as (Hh' & Hc' & Hs' & _).
  apply (f_equal (split "_")) in Heq.
  rewrite !split_join_char in Heq.
  - destruct (String.eqb_spec sc ""), (String.eqb_spec sc' ""); simplify_eq; done.
  - done.
  - destruct (String.eqb sc' ""); repeat constructor; done.
  - done.
  - destruct (String.eqb sc ""); repeat constructor; done.
Qed.

(** *** Rows and labels *)

Lemma make_row_Template st k row : make_row st k = Ok row -> Template row = k.
Proof.
  unfold make_row. intros Hrow.
  destruct (TemplateEdits st !! k); [|discriminate].
  destruct (lookup_item k (TemplateHs st)); [|discriminate].
  destruct (TemplateCs st !! k); [|discriminate].
  destruct (TemplateSs st !! k); [|discriminate].
  now injection Hrow as <-.
Qed.

Lemma rows_templates st ks infos :
  Forall2 (fun k row => make_row st k = Ok row) ks infos -> map Template infos = ks.
Proof.
  induction 1 as [|k row ks infos Hrow _ IH]; [reflexivity|].
  simpl. now rewrite IH, (make_row_Template _ _ _ Hrow).
Qed.

Lemma registry_inv_keys_iff st os k :
  registry_inv st os ->
  k ∈ keys (TemplateHs st) <-> exists sg, Ok sg ∈ os /\ template_H sg = k.
Proof.
  intros Hinv. split.
  - intros Hk. destruct (make_row_inv _ _ _ Hinv Hk) as (i & sg & Hfirst & _).
    apply list_find_Some in Hfirst as (Hi & Hp & _).
    exists sg. split; [now apply list_elem_of_lookup_2 in Hi|done].
  - intros (sg & Hin & <-). now apply (registry_inv_keys _ os).
Qed.

(** X10.  The table has one row per label: the [Template] values of the rows are
    pairwise distinct, and they are exactly the labels of the label sequence
    other than "NaN". *)
Theorem rows_are_the_labels rxns args extractor infos labels :
  extract_templates rxns args extractor = Running (infos, labels) ->
  NoDup (map Template infos)
  /\ (forall l, l ∈ map Template infos <-> l ∈ labels /\ l <> "NaN").
Proof.
  intros (st & Hinv & -> & Hrows)%extract_templates_Running.
  rewrite (rows_templates _ _ _ Hrows). split; [apply Hinv|].
  intros l. rewrite (registry_inv_keys_iff _ _ _ Hinv).
  change (map ?f ?l) with (f <$> l). rewrite list_elem_of_fmap. split.
  - intros (sg & Hin & <-). split; [now exists (Ok sg)|].
    pose proof (outcomes_labels args extractor rxns) as Hall.
    rewrite Forall_forall in Hall. now apply (Hall _ Hin).
  - intros [([sg|e] & -> & Hin) Hne]; [now exists sg|]. now destruct Hne.
Qed.

Lemma sightings_bounds k os i o :
  first_sighting k os = Some (i, o) -> 1 <= sightings k os <= length os.
Proof.
  intros (Hi & Hp & _)%list_find_Some. unfold sightings. split; [|apply length_filter].
  assert (Hin : o ∈ filter (produces k) os).
  { apply list_elem_of_filter. split; [done|]. now apply list_elem_of_lookup_2 in Hi. }
  destruct (filter (produces k) os); [now apply elem_of_nil in Hin|simpl; lia].
Qed.

(** X11.  Every row counts at least one record and at most all of them. *)
Theorem frequency_bounds rxns args extractor infos labels row :
  extract_templates rxns args extractor = Running (infos, labels) ->
  row ∈ infos ->
  (1 <= Frequency row <= Z.of_nat (length rxns))%Z.
Proof.
  intros (st & Hinv & -> & Hrows)%extract_templates_Running Hrow.
  apply list_elem_of_lookup in Hrow as [n Hn].
  destruct (Forall2_lookup_r _ _ _ _ _ Hrows Hn) as (k & _ & Hk).
  destruct (make_row_Ok _ _ _ _ Hinv Hk) as (i & sg & Hfirst & ->). simpl.
  apply sightings_bounds in Hfirst. rewrite outcomes_length in Hfirst. lia.
Qed.

(** X12.  With stereo use switched off no row carries chirality changes. *)
Theorem no_stereo_no_chirality rxns args extractor infos labels row :
  use_stereo args = false ->
  extract_templates rxns args extractor = Running (infos, labels) ->
  row ∈ infos ->
  change_S row = ∅.
Proof.
  intros Hoff (st & Hinv & -> & Hrows)%extract_templates_Running Hrow.
  apply list_elem_of_lookup in Hrow as [n Hn].
  destruct (Forall2_lookup_r _ _ _ _ _ Hrows Hn) as (k & _ & Hk).
  destruct (make_row_Ok _ _ _ _ Hinv Hk) as (i & sg & Hfirst & ->). simpl.
  apply list_find_Some in Hfirst as (Hi & _ & _). rewrite outcomes_lookup in Hi.
  destruct (rxns !! i) as [reaction|]; [|discriminate]. injection Hi as Hi.
  apply read_record_Ok
    in Hi as (r & p & result & template & _ & _ & _ & _ & _ & _ & _ & Hs & _).
  now rewrite Hoff in Hs.
Qed.

(** X13.  A record without the pair ">>" fails before the extractor is asked,
    whatever the extractor is, and its label is "NaN". *)
Theorem unsplit_record_is_NaN rxns args extractor infos labels i reaction :
  extract_templates rxns args extractor = Running (infos, labels) ->
  rxns !! i = Some reaction ->
  ~ merged_form reaction ->
  (forall other, read_record args other i reaction = Raise IndexError)
  /\ labels !! i = Some "NaN".
Proof.
  intros (st & Hinv & -> & Hrows)%extract_templates_Running Hi Hm.
  assert (Hfail : forall other, read_record args other i reaction = Raise IndexError).
  { intros other. unfold read_record, get_reaction_template.
    destruct (split ">>" reaction) as [|r [|p rest]] eqn:Hs; try reflexivity.
    destruct Hm. apply merged_form_split. eauto. }
  split; [exact Hfail|].
  change (map ?f ?l) with (f <$> l).
  rewrite list_lookup_fmap, outcomes_lookup, Hi. simpl. now rewrite Hfail.
Qed.

(** *** How a scan ends *)

Lemma scan_records_app args extractor st l1 l2 :
  scan_records args extractor st (l1 ++ l2)
  = match scan_records args extractor st l1 with
    | Running st' => scan_records args extractor st' l2
    | Exited => Exited
    | Propagated e => Propagated e
    end.
Proof.
  revert st. induction l1 as [|ir l1 IH]; intros st; [reflexivity|].
  simpl. destruct (scan_record args extractor st ir); [apply IH|done..].
Qed.

Lemma enumerate_from_app {A} k (l1 l2 : list A) :
  enumerate_from k (l1 ++ l2)
  = enumerate_from k l1 ++ enumerate_from (k + length l1) l2.
Proof.
  revert k. induction l1 as [|x l1 IH]; intros k; simpl.
  - now rewrite Nat.add_0_r.
  - rewrite IH. now replace (S k + length l1) with (k + S (length l1)) by lia.
Qed.

Lemma scan_records_Running_absorbed args extractor irs st st' :
  scan_records args extractor st irs = Running st' ->
  Forall (fun ir => absorbed (outcome args extractor ir)) irs.
Proof.
  revert st. induction irs as [|ir irs IH]; intros st Hscan; [constructor|].
  simpl in Hscan. unfold scan_record in Hscan. unfold outcome at 1.
  destruct (read_record args extractor ir.1 ir.2) as [sg|e] eqn:Hr.
  - constructor; [unfold outcome; now rewrite Hr|eauto].
  - destruct e; simpl in Hscan; try discriminate;
      (constructor; [unfold outcome; now rewrite Hr|eauto]).
Qed.

(** X14.  The scan runs to its end exactly when no record raises outside the
    class [Exception]. *)
Theorem scan_completes_iff rxns args extractor :
  (exists infos labels, extract_templates rxns args extractor = Running (infos, labels))
  <-> Forall absorbed (outcomes args extractor rxns).
Proof.
  split; [|apply extract_templates_runs].
  intros (infos & labels & Hrun). unfold extract_templates in Hrun.
  destruct (scan_records args extractor empty_registry (enumerate rxns))
    as [st| |] eqn:Hscan; try discriminate.
  apply scan_records_Running_absorbed in Hscan.
  unfold outcomes. change (map ?f ?l) with (f <$> l). now apply Forall_fmap.
Qed.

(** X15.  The first record that raises outside the class [Exception] ends the
    scan, and nothing is returned: the process exits on a
    [KeyboardInterrupt], any other such exception reaches the caller. *)
Theorem first_interrupt_ends_scan rxns args extractor i reaction e :
  rxns !! i = Some reaction ->
  read_record args extractor i reaction = Raise e ->
  is_Exception e = false ->
  (forall j reaction', j < i -> rxns !! j = Some reaction' ->
     absorbed (read_record args extractor j reaction')) ->
  extract_templates rxns args extractor
  = match e with
    | KeyboardInterrupt => Exited
    | _ => Propagated e
    end.
Proof.
  intros Hi Hr He Hbefore. unfold extract_templates, enumerate.
  rewrite <- (take_drop_middle rxns i reaction Hi), enumerate_from_app.
  cbn [enumerate_from]. rewrite scan_records_app.
  destruct (scan_records_runs args extractor (enumerate_from 0 (take i rxns)) empty_registry)
    as [st ->].
  { apply Forall_forall. intros [j r'] Hin.
    apply list_elem_of_lookup in Hin as [n Hn].
    rewrite enumerate_from_lookup in Hn.
    destruct (take i rxns !! n) as [x|] eqn:Hx; [|discriminate].
    injection Hn as <- <-. apply lookup_take_Some in Hx as [Hx Hlt].
    unfold outcome. simpl. now apply Hbefore. }
  assert (Hlen : length (take i rxns) = i).
  { apply length_take_le. apply lookup_lt_Some in Hi. lia. }
  rewrite Hlen. cbn [scan_records]. unfold scan_record. simpl. rewrite Hr.
  destruct e; try discriminate; reflexivity.
Qed.

(** *** Scanning more input *)

Lemma extract_templates_scan rxns args extractor infos labels :
  extract_templates rxns args extractor = Running (infos, labels) ->
  exists st,
    scan_records args extractor empty_registry (enumerate rxns) = Running st
    /\ registry_inv st (outcomes args extractor rxns)
    /\ labels = map label_of (outcomes args extractor rxns)
    /\ Forall2 (fun k row => make_row st k = Ok row) (keys (TemplateHs st)) infos.
Proof.
  unfold extract_templates. intros Hrun.
  destruct (scan_records args extractor empty_registry (enumerate rxns)) as [st| |] eqn:Hscan;
    try discriminate.
  pose proof (scan_records_inv _ _ _ _ _ _ registry_inv_empty Hscan) as Hinv.
  simpl in Hinv. fold (outcomes args extractor rxns) in Hinv.
  destruct (map_result (make_row st) (keys (TemplateHs st))) as [rows|] eqn:Hrows;
    [|discriminate].
  injection Hrun as <- <-. exists st. split; [done|]. split; [done|]. split.
  - apply Hinv.
  - now apply map_result_Ok.
Qed.

Lemma scan_records_keys args extractor irs st st' :
  scan_records args extractor st irs = Running st' ->
  keys (TemplateHs st) `prefix_of` keys (TemplateHs st').
Proof.
  revert st. induction irs as [|ir irs IH]; intros st Hscan.
  - now injection Hscan as <-.
  - simpl in Hscan. unfold scan_record in Hscan.
    destruct (read_record args extractor ir.1 ir.2) as [sg|e].
    + etrans; [|exact (IH _ Hscan)]. unfold record_sighting.
      destruct (foldl _ _ _) as [tA tB]. simpl.
      destruct (decide (template_H sg ∈ keys (TemplateHs st))) as [Hin|Hout].
      * now rewrite bool_decide_eq_true_2.
      * rewrite bool_decide_eq_false_2 by done. simpl.
        rewrite setitem_fresh by done. unfold keys. rewrite map_app.
        now apply prefix_app_r.
    + destruct e; simpl in Hscan; try discriminate; exact (IH _ Hscan).
Qed.

Lemma sightings_app k os os' : sightings k os <= sightings k (os ++ os').
Proof. unfold sightings. rewrite filter_app, List.length_app. lia. Qed.

(** X16.  Scanning a longer input only appends: the labels and the rows of the
    shorter run come first in the longer run, each row with the same
    label, edit sites and change dictionaries and with a [Frequency] that
    has not decreased. *)
Theorem scan_is_append_only rxns more args extractor infos labels infos' labels' :
  extract_templates rxns args extractor = Running (infos, labels) ->
  extract_templates (rxns ++ more) args extractor = Running (infos', labels') ->
  labels `prefix_of` labels'
  /\ forall n row, infos !! n = Some row ->
       exists row', infos' !! n = Some row'
         /\ Template row' = Template row
         /\ edit_site row' = edit_site row
         /\ change_H row' = change_H row
         /\ change_C row' = change_C row
         /\ change_S row' = change_S row
         /\ (Frequency row <= Frequency row')%Z.
Proof.
  intros (st & Hscan & Hinv & -> & Hrows)%extract_templates_scan
         (st' & Hscan' & Hinv' & -> & Hrows')%extract_templates_scan.
  assert (Hos : outcomes args extractor (rxns ++ more)
                = outcomes args extractor rxns
                  ++ map (outcome args extractor) (enumerate_from (length rxns) more)).
  { unfold outcomes, enumerate. now rewrite enumerate_from_app, map_app. }
  rewrite Hos in *. split.
  { rewrite map_app. now apply prefix_app_r. }
  unfold enumerate in Hscan'. rewrite enumerate_from_app, scan_records_app in Hscan'.
  unfold enumerate in Hscan. rewrite Hscan in Hscan'.
  apply scan_records_keys in Hscan'.
  intros n row Hn.
  destruct (Forall2_lookup_r _ _ _ _ _ Hrows Hn) as (k & Hk & Hrow).
  destruct (make_row_Ok _ _ _ _ Hinv Hrow) as (i & sg & Hfirst & ->).
  pose proof (prefix_lookup_Some _ _ _ _ Hk Hscan') as Hk'.
  destruct (Forall2_lookup_l _ _ _ _ _ Hrows' Hk') as (row' & Hn' & Hrow').
  destruct (make_row_Ok _ _ _ _ Hinv' Hrow') as (i' & sg' & Hfirst' & ->).
  exists {| Template := k; edit_site := sites_of sg'; change_H := H_change sg';
            change_C := Charge_change sg'; change_S := Chiral_change sg';
            Frequency := Z.of_nat (sightings k (outcomes args extractor rxns
              ++ map (outcome args extractor) (enumerate_from (length rxns) more))) |}.
  split; [exact Hn'|].
  unfold first_sighting in *.
  rewrite (list_find_app_l _ _ _ _ _ Hfirst) in Hfirst'. injection Hfirst' as <- <-.
  simpl. repeat split; try reflexivity.
  pose proof (sightings_app k (outcomes args extractor rxns)
                (map (outcome args extractor) (enumerate_from (length rxns) more))). lia.
Qed.

(** *** The order of the rows *)

Lemma keys_first_sighting st os k :
  registry_inv st os -> k ∈ keys (TemplateHs st) ->
  exists i sg, first_sighting k os = Some (i, Ok sg) /\ i < length os.
Proof.
  intros Hinv Hk. destruct (make_row_inv _ _ _ Hinv Hk) as (i & sg & Hfirst & _).
  exists i, sg. split; [done|].
  apply list_find_Some in Hfirst as (Hi & _). now apply lookup_lt_Some in Hi.
Qed.

Lemma first_sighting_stays k os o i x :
  first_sighting k os = Some (i, x) -> first_sighting k (os ++ [o]) = Some (i, x).
Proof. apply list_find_app_l. Qed.

Lemma keys_in_order_same_keys st st' os o :
  registry_inv st os -> keys_in_order st os ->
  keys (TemplateHs st') = keys (TemplateHs st) ->
  keys_in_order st' (os ++ [o]).
Proof.
  intros Hinv Hord Hkeys m n k1 k2 i1 i2 o1 o2 Hmn Hm Hn H1 H2.
  rewrite Hkeys in Hm, Hn.
  destruct (keys_first_sighting _ _ k1 Hinv) as (j1 & sg1 & Hj1 & _);
    [now apply list_elem_of_lookup_2 in Hm|].
  destruct (keys_first_sighting _ _ k2 Hinv) as (j2 & sg2 & Hj2 & _);
    [now apply list_elem_of_lookup_2 in Hn|].
  rewrite (first_sighting_stays _ _ o _ _ Hj1) in H1.
  rewrite (first_sighting_stays _ _ o _ _ Hj2) in H2.
  injection H1 as <- <-. injection H2 as <- <-. eauto.
Qed.

Lemma record_sighting_order args st os sg :
  registry_inv st os -> keys_in_order st os ->
  keys_in_order (record_sighting args st sg) (os ++ [Ok sg]).
Proof.
  intros Hinv Hord.
  destruct (decide (template_H sg ∈ keys (TemplateHs st))) as [Hin|Hout].
  - apply (keys_in_order_same_keys st); [done..|].
    unfold record_sighting. destruct (foldl _ _ _) as [tA tB]. simpl.
    now rewrite bool_decide_eq_true_2.
  - assert (Hkeys : keys (TemplateHs (record_sighting args st sg))
                    = keys (TemplateHs st) ++ [template_H sg]).
    { unfold record_sighting. destruct (foldl _ _ _) as [tA tB]. simpl.
      rewrite bool_decide_eq_false_2 by done. simpl.
      rewrite setitem_fresh by done. unfold keys. now rewrite map_app. }
    intros m n k1 k2 i1 i2 o1 o2 Hmn Hm Hn H1 H2. rewrite Hkeys in Hm, Hn.
    assert (Hm' : keys (TemplateHs st) !! m = Some k1).
    { apply lookup_lt_Some in Hn. rewrite List.length_app in Hn. simpl in Hn.
      rewrite lookup_app_l in Hm by lia. done. }
    destruct (keys_first_sighting _ _ k1 Hinv) as (j1 & sg1 & Hj1 & Hlt1);
      [now apply list_elem_of_lookup_2 in Hm'|].
    rewrite (first_sighting_stays _ _ (Ok sg) _ _ Hj1) in H1. injection H1 as <- <-.
    destruct (decide (n < length (keys (TemplateHs st)))) as [Hlt|Hge].
    + rewrite lookup_app_l in Hn by done.
      destruct (keys_first_sighting _ _ k2 Hinv) as (j2 & sg2 & Hj2 & _);
        [now apply list_elem_of_lookup_2 in Hn|].
      rewrite (first_sighting_stays _ _ (Ok sg) _ _ Hj2) in H2. injection H2 as <- <-.
      eauto.
    + rewrite lookup_app_r in Hn by lia.
      apply list_lookup_singleton_Some in Hn as [_ <-].
      unfold first_sighting in H2. rewrite list_find_snoc in H2.
      destruct (list_find (produces (template_H sg)) os) as [[j o]|] eqn:E.
      * destruct (first_sighting_is_Ok _ _ _ _ E) as (sg0 & -> & Hsg0).
        destruct Hout. apply (registry_inv_keys_iff _ _ _ Hinv).
        exists sg0. split; [|done].
        apply list_find_Some in E as (E & _). now apply list_elem_of_lookup_2 in E.
      * rewrite decide_True in H2 by done. injection H2 as <- <-. exact Hlt1.
Qed.

Lemma scan_records_order args extractor irs st os st' :
  registry_inv st os -> keys_in_order st os ->
  scan_records args extractor st irs = Running st' ->
  keys_in_order st' (os ++ map (outcome args extractor) irs).
Proof.
  revert st os. induction irs as [|ir irs IH]; intros st os Hinv Hord Hscan.
  - injection Hscan as <-. now rewrite List.app_nil_r.
  - cbn [scan_records] in Hscan. unfold scan_record in Hscan.
    cbn [map]. unfold outcome at 1.
    replace (os ++ read_record args extractor ir.1 ir.2 :: map (outcome args extractor) irs)
      with ((os ++ [read_record args extractor ir.1 ir.2]) ++ map (outcome args extractor) irs)
      by now rewrite <- List.app_assoc.
    destruct (read_record args extractor ir.1 ir.2) as [sg|e].
    + apply (IH (record_sighting args st sg));
        eauto using record_sighting_inv, record_sighting_order.
    + destruct e; simpl in Hscan; try discriminate;
        (apply (IH (record_failure st));
         [now apply record_failure_inv
         |now apply (keys_in_order_same_keys st)
         |done]).
Qed.

Lemma first_index_sighting k os i sg :
  Forall (fun o => forall sg, o = Ok sg -> template_H sg <> "NaN") os ->
  first_sighting k os = Some (i, Ok sg) ->
  first_index k (map label_of os) = Some i.
Proof.
  intros Hall Hfirst. unfold first_index.
  change (map ?f ?l) with (f <$> l). rewrite list_find_fmap.
  assert (Hk : k <> "NaN").
  { pose proof Hfirst as (Hi & Hp & _)%list_find_Some. simpl in Hp. subst k.
    rewrite Forall_forall in Hall.
    apply (Hall (Ok sg)); [now apply list_elem_of_lookup_2 in Hi|done]. }
  rewrite (list_find_ext _ (produces k)).
  - unfold first_sighting in Hfirst. now rewrite Hfirst.
  - intros [sg'|e]; simpl; [done|]. split; [congruence|tauto].
Qed.

(** X17.  The rows stand in the order in which their labels first occur in the
    label sequence. *)
Theorem rows_in_order_of_first_occurrence
    rxns args extractor infos labels m n row1 row2 :
  extract_templates rxns args extractor = Running (infos, labels) ->
  m < n ->
  infos !! m = Some row1 ->
  infos !! n = Some row2 ->
  exists i j,
    first_index (Template row1) labels = Some i
    /\ first_index (Template row2) labels = Some j
    /\ i < j.
Proof.
  intros (st & Hscan & Hinv & -> & Hrows)%extract_templates_scan Hmn Hm Hn.
  assert (Hord : keys_in_order st (outcomes args extractor rxns)).
  { apply (scan_records_order _ _ _ empty_registry [] _ registry_inv_empty); [|done].
    intros ? ? ? ? ? ? ? ? _ Hk. simpl in Hk. now rewrite lookup_nil in Hk. }
  destruct (Forall2_lookup_r _ _ _ _ _ Hrows Hm) as (k1 & Hk1 & Hrow1).
  destruct (Forall2_lookup_r _ _ _ _ _ Hrows Hn) as (k2 & Hk2 & Hrow2).
  destruct (make_row_Ok _ _ _ _ Hinv Hrow1) as (i & sg1 & Hfirst1 & ->).
  destruct (make_row_Ok _ _ _ _ Hinv Hrow2) as (j & sg2 & Hfirst2 & ->).
  exists i, j. simpl.
  split; [eapply first_index_sighting; eauto using outcomes_labels|].
  split; [eapply first_index_sighting; eauto using outcomes_labels|].
  eapply Hord; eauto.
Qed.

(** *** The [retro] option *)

Lemma read_record_stereo_only a a' extractor i reaction :
  use_stereo a = use_stereo a' ->
  read_record a extractor i reaction = read_record a' extractor i reaction.
Proof. unfold read_record. now intros ->. Qed.

Lemma record_sighting_core a a' st st' sg :
  core st = core st' -> core (record_sighting a st sg) = core (record_sighting a' st' sg).
Proof.
  unfold core. intros [= He Hc Hh Hs Hf Hl]. unfold record_sighting.
  do 2 destruct (foldl _ _ _). simpl. now rewrite He, Hc, Hh, Hs, Hf, Hl.
Qed.

Lemma scan_records_core a a' extractor irs st st' :
  use_stereo a = use_stereo a' -> core st = core st' ->
  scan_map core (scan_records a extractor st irs)
  = scan_map core (scan_records a' extractor st' irs).
Proof.
  intros Hstereo. revert st st'. induction irs as [|ir irs IH]; intros st st' Hcore.
  - simpl. now rewrite Hcore.
  - cbn [scan_records]. unfold scan_record.
    rewrite (read_record_stereo_only a a') by done.
    destruct (read_record a' extractor ir.1 ir.2) as [sg|e].
    + apply IH. now apply record_sighting_core.
    + assert (core (record_failure st) = core (record_failure st')) as Hfail.
      { unfold core in *. injection Hcore as He Hc Hh Hs Hf Hl. simpl.
        now rewrite He, Hc, Hh, Hs, Hf, Hl. }
      destruct e; simpl; try reflexivity; now apply IH.
Qed.

Lemma make_row_core st st' k : core st = core st' -> make_row st k = make_row st' k.
Proof.
  unfold core. intros [= He Hc Hh Hs Hf Hl]. unfold make_row.
  now rewrite He, Hc, Hh, Hs, Hf.
Qed.

Lemma map_result_ext {A B} (f g : A -> result B) l :
  (forall x, f x = g x) -> map_result f l = map_result g l.
Proof. intros Hfg. induction l as [|x l IH]; simpl; [done|]. now rewrite Hfg, IH. Qed.

(** X18.  The option [retro] of [extract_templates] changes nothing of what is
    returned: it only feeds the counters of the progress line. *)
Theorem retro_is_irrelevant rxns a a' extractor :
  use_stereo a = use_stereo a' ->
  extract_templates rxns a extractor = extract_templates rxns a' extractor.
Proof.
  intros Hstereo. unfold extract_templates.
  pose proof (scan_records_core a a' extractor (enumerate rxns)
                empty_registry empty_registry Hstereo eq_refl) as Hcore.
  destruct (scan_records a extractor empty_registry (enumerate rxns)) as [st| |e],
           (scan_records a' extractor empty_registry (enumerate rxns)) as [st'| |e'];
    simpl in Hcore; try discriminate; [|done|now injection Hcore as ->].
  apply (f_equal (fun s => match s with Running x => x | _ => core st end)) in Hcore.
  change (core st = core st') in Hcore.
  rewrite (map_result_ext _ _ _ (fun k => make_row_core st st' k Hcore)).
  pose proof Hcore as [= _ _ -> _ _ ->]. reflexivity.
Qed.

(** *** [build_template_extractor] *)

Lemma build_setting_returns_iff args :
  returns (build_setting args) <-> is_Some (args !! "retro").
Proof.
  unfold build_setting, returns. destruct (args !! "retro") as [v|]; simpl.
  - split; [intros _; by eexists|]. intros _. by eexists.
  - split; [intros [? [=]]|intros [? [=]]].
Qed.

(** X19.  [build_template_extractor] needs the key ['retro'] in [args]: it returns
    exactly when the key is there and raises [KeyError] otherwise, whatever
    the other keys are. *)
Theorem build_template_extractor_needs_retro extract_from_reaction args :
  (returns (build_template_extractor extract_from_reaction args)
     <-> is_Some (args !! "retro"))
  /\ (forall e, build_template_extractor extract_from_reaction args = Raise e ->
        e = KeyError).
Proof.
  unfold build_template_extractor, build_setting, returns.
  destruct (args !! "retro") as [v|]; simpl.
  - split; [|discriminate]. split; [intros _; by eexists|]. intros _. by eexists.
  - split; [|now intros e [= <-]]. split; [intros [? [=]]|intros [? [=]]].
Qed.

Lemma override_lookup args setting k k' :
  override args setting k !! k'
  = if decide (k = k') then
      match args !! k with Some v => Some v | None => setting !! k' end
    else setting !! k'.
Proof.
  unfold override. destruct (args !! k) as [v|] eqn:Hk; case_decide; subst.
  - now rewrite lookup_insert_eq.
  - now rewrite lookup_insert_ne.
  - done.
  - done.
Qed.

Lemma overrides_lookup args ks setting k' :
  foldl (override args) setting ks !! k'
  = if decide (k' ∈ ks) then
      match args !! k' with Some v => Some v | None => setting !! k' end
    else setting !! k'.
Proof.
  revert setting. induction ks as [|k ks IH]; intros setting.
  - cbn [foldl]. destruct (decide (k' ∈ [])) as [Hin|_]; [|done].
    now apply elem_of_nil in Hin.
  - cbn [foldl]. rewrite IH, !override_lookup.
    destruct (decide (k' ∈ k :: ks)) as [Hin'|Hout'];
      destruct (decide (k' ∈ ks)) as [Hin|Hout];
      destruct (decide (k = k')) as [->|Hne];
      try (destruct (args !! k'); reflexivity).
    all: exfalso; rewrite ?elem_of_cons, ?not_elem_of_cons in *; intuition congruence.
Qed.

Lemma default_of_is_Some k : k ∈ default_setting.*1 -> is_Some (default_of k).
Proof.
  intros Hk. unfold default_of.
  destruct (list_to_map default_setting !! k) as [v|] eqn:Hv; [by eexists|].
  now apply not_elem_of_list_to_map in Hv.
Qed.

Lemma build_setting_spec args setting :
  build_setting args = Ok setting ->
  (forall k, is_Some (setting !! k) <-> k ∈ default_setting.*1)
  /\ (forall k, k ∈ default_setting.*1 -> k <> "use_symbol" ->
        setting !! k = match args !! k with Some v => Some v | None => default_of k end)
  /\ setting !! "use_symbol"
     = (if truthy (default PVNone (args !! "retro")) then Some (PVBool true)
        else match args !! "use_symbol" with
             | Some v => Some v
             | None => Some (PVBool false)
             end).
Proof.
  unfold build_setting. destruct (args !! "retro") as [retro|] eqn:Hretro; [|discriminate].
  simpl. intros [= <-].
  set (base := foldl (override args) (list_to_map default_setting) default_setting.*1).
  assert (Hbase : forall k, base !! k
            = if decide (k ∈ default_setting.*1)
              then match args !! k with Some v => Some v | None => default_of k end
              else None).
  { intros k. unfold base. rewrite overrides_lookup. case_decide as Hk; [done|].
    apply not_elem_of_list_to_map_1. exact Hk. }
  assert (Hsym : "use_symbol" ∈ default_setting.*1) by (simpl; set_solver).
  split; [|split].
  - intros k. destruct (truthy retro).
    + destruct (decide (k = "use_symbol")) as [->|Hne].
      * rewrite lookup_insert_eq. split; [done|]. intros _. by eexists.
      * rewrite lookup_insert_ne by done. rewrite Hbase. case_decide as Hk.
        -- split; [done|]. intros _.
           destruct (args !! k); [by eexists|].
           now apply default_of_is_Some.
        -- split; [intros [? [=]]|done].
    + rewrite Hbase. case_decide as Hk.
      * split; [done|]. intros _.
        destruct (args !! k); [by eexists|].
        now apply default_of_is_Some.
      * split; [intros [? [=]]|done].
  - intros k Hk Hne. destruct (truthy retro).
    + rewrite lookup_insert_ne by done. rewrite Hbase. now rewrite decide_True.
    + rewrite Hbase. now rewrite decide_True.
  - simpl. destruct (truthy retro).
    + now rewrite lookup_insert_eq.
    + rewrite Hbase, decide_True by done. now destruct (args !! "use_symbol").
Qed.

(** X20.  The extractor that [build_template_extractor] returns is
    [extract_from_reaction] closed over one setting.  That setting has the
    seven keys of the defaults and no other, whatever [args] holds; each key
    takes its value from [args] when [args] has it and its default
    otherwise, except that a truthy ['retro'] forces ['use_symbol'] to
    [True]. *)
Theorem build_template_extractor_setting extract_from_reaction args extractor :
  build_template_extractor extract_from_reaction args = Ok extractor ->
  exists setting,
    extractor = (fun x => extract_from_reaction x setting)
    /\ (forall k, is_Some (setting !! k) <-> k ∈ default_setting.*1)
    /\ (forall k, k ∈ default_setting.*1 -> k <> "use_symbol" ->
          setting !! k
          = match args !! k with Some v => Some v | None => default_of k end)
    /\ setting !! "use_symbol"
       = (if truthy (default PVNone (args !! "retro")) then Some (PVBool true)
          else match args !! "use_symbol" with
               | Some v => Some v
               | None => Some (PVBool false)
               end).
Proof.
  unfold build_template_extractor.
  destruct (build_setting args) as [setting|e] eqn:Hsetting; [|discriminate].
  rewrite bind_Ok. intros [= <-]. exists setting. split; [reflexivity|].
  now apply build_setting_spec.
Qed.

(** ** [untangle_tildes] *)

Lemma prefix_char c x r : String.prefix (String c "") (String x r) = Ascii.eqb c x.
Proof.
  rewrite prefix_cons, prefix_nil, andb_true_r.
  destruct (Ascii.eqb_spec c x) as [->|Hne].
  - now rewrite bool_decide_eq_true_2.
  - now rewrite bool_decide_eq_false_2.
Qed.

Lemma has_char_replace_go c old new k s :
  has_char c s = false -> has_char c new = false ->
  has_char c (replace_go old new k s) = false.
Proof.
  intros Hs Hnew. revert k Hs. induction s as [|x s IH]; intros k Hs; [done|].
  cbn [has_char] in Hs. apply orb_false_iff in Hs as [Hx Hs].
  destruct k as [|k].
  - rewrite replace_go_cons. destruct (String.prefix old (String x s)).
    + rewrite has_char_app, Hnew. now apply IH.
    + cbn [has_char]. rewrite Hx. now apply IH.
  - cbn [replace_go]. now apply IH.
Qed.

Lemma has_char_replace c old new s :
  old <> "" -> has_char c s = false -> has_char c new = false ->
  has_char c (replace old new s) = false.
Proof.
  intros Hold Hs Hnew. destruct old as [|y old]; [done|].
  now apply has_char_replace_go.
Qed.

(** Replacing a character removes it. *)
Lemma has_char_replaced c new s :
  has_char c new = false -> has_char c (replace (String c "") new s) = false.
Proof.
  intros Hnew. unfold replace. induction s as [|x s IH]; [done|].
  rewrite replace_go_cons, prefix_char. cbn [String.length Nat.sub].
  destruct (Ascii.eqb c x) eqn:Hx.
  - rewrite has_char_app, Hnew. exact IH.
  - cbn [has_char]. rewrite Hx. exact IH.
Qed.

Section UntangleFacts.
Context `{RDKitBonds}.

Lemma untangle_mol_no_tilde mol : has_char "~" (untangle_mol mol) = false.
Proof.
  unfold untangle_mol. destruct (contains "~" mol) eqn:Hmol.
  - destruct (fragment_on_tildes mol) as [smiles|e] eqn:Hfrag.
    + unfold fragment_on_tildes in Hfrag.
      destruct (MolFromSmiles mol) as [mols|]; [|discriminate].
      destruct (FragmentOnBonds _ _) as [mols'|]; [|discriminate].
      rewrite bind_Ok in Hfrag. injection Hfrag as <-.
      apply has_char_replace_go; [|done].
      apply has_char_replace_go; [|done].
      exact (has_char_replaced "~" "" _ eq_refl).
    + exact (has_char_replaced "~" "." _ eq_refl).
  - now rewrite <- contains_char.
Qed.

Lemma untangle_side_no_tilde side : has_char "~" (untangle_side side) = false.
Proof.
  unfold untangle_side. apply has_char_join; [done|].
  change (map untangle_mol ?l) with (untangle_mol <$> l).
  apply Forall_fmap, Forall_true. intros mol. apply untangle_mol_no_tilde.
Qed.

(** X21.  [untangle_tildes] returns exactly on the texts with at least two [>];
    on the others the lookup of the three sides raises [IndexError], and
    nothing else is ever raised: whatever the toolkit raises on a compound
    is caught. *)
Theorem untangle_tildes_returns rxn :
  (returns (untangle_tildes rxn) <-> (2 <= count_char ">" rxn)%nat)
  /\ (forall e, untangle_tildes rxn = Raise e -> e = IndexError).
Proof.
  unfold untangle_tildes, returns. cbv zeta.
  pose proof (split_char_length ">" rxn) as Hlen.
  destruct (split ">" rxn) as [|a [|b [|c l]]]; simpl in Hlen.
  - lia.
  - split; [|now intros e [= <-]]. split; [intros [? [=]]|lia].
  - split; [|now intros e [= <-]]. split; [intros [? [=]]|lia].
  - split; [|discriminate]. split; [lia|]. intros _. by eexists.
Qed.

(** X22.  The result of [untangle_tildes] holds no [~], on whichever of the three
    ways each compound was treated. *)
Theorem untangle_tildes_no_tilde rxn out :
  untangle_tildes rxn = Ok out -> has_char "~" out = false.
Proof.
  unfold untangle_tildes. cbv zeta.
  destruct (split ">" rxn) as [|a [|b [|c l]]]; try discriminate.
  intros [= <-]. rewrite !has_char_app, !untangle_side_no_tilde. reflexivity.
Qed.

Lemma untangle_mol_same mol : has_char "~" mol = false -> untangle_mol mol = mol.
Proof. intros Hmol. unfold untangle_mol. now rewrite contains_char, Hmol. Qed.

Lemma untangle_side_same side : has_char "~" side = false -> untangle_side side = side.
Proof.
  intros Hside. unfold untangle_side.
  rewrite <- (join_split_char "." side) at 2. f_equal.
  rewrite <- (map_id (split "." side)) at 2. apply map_ext_in.
  intros mol Hin%list_elem_of_In. apply untangle_mol_same.
  destruct (split_char_piece_sub _ _ _ Hin) as (a & b & Hab).
  rewrite Hab, !has_char_app in Hside.
  now destruct (has_char "~" a), (has_char "~" mol).
Qed.

(** X23.  A text with exactly two [>] and no [~] comes back as it is. *)
Theorem untangle_tildes_identity rxn :
  count_char ">" rxn = 2%nat -> has_char "~" rxn = false ->
  untangle_tildes rxn = Ok rxn.
Proof.
  intros Hcount Htilde. unfold untangle_tildes. cbv zeta.
  pose proof (split_char_length ">" rxn) as Hlen.
  pose proof (join_split_char ">" rxn) as Hjoin.
  destruct (split ">" rxn) as [|a [|b [|c [|d l]]]]; simpl in Hlen; try lia.
  rewrite !join_cons in Hjoin. cbn [join] in Hjoin.
  rewrite <- Hjoin, !has_char_app in Htilde.
  destruct (has_char "~" a) eqn:Ha; [done|].
  destruct (has_char "~" b) eqn:Hb; [done|].
  destruct (has_char "~" c) eqn:Hc; [done|].
  cbn [map]. rewrite index_0, index_1, !bind_Ok.
  change (index (?x :: ?y :: ?z :: ?t) 2) with (Ok z). rewrite bind_Ok.
  rewrite !untangle_side_same by done. now rewrite Hjoin.
Qed.


End UntangleFacts.

(** ** Frames *)

Lemma drop_duplicates_go_elem {R K} `{EqDecision K} (key : R -> K) seen df r :
  r ∈ drop_duplicates_go key seen df -> r ∈ df /\ key r ∉ seen.
Proof.
  revert seen. induction df as [|x df IH]; intros seen; cbn [drop_duplicates_go].
  - intros []%elem_of_nil.
  - destruct (decide (key x ∈ seen)) as [Hin|Hout].
    + intros [? ?]%IH. split; [now right|done].
    + intros [->|Hr]%elem_of_cons; [split; [left|done]|].
      apply IH in Hr as [? Hseen]. split; [now right|].
      intros Hk. apply Hseen. now right.
Qed.


Lemma drop_duplicates_go_NoDup {R K} `{EqDecision K} (key : R -> K) seen df :
  NoDup (key <$> drop_duplicates_go key seen df).
Proof.
  revert seen. induction df as [|x df IH]; intros seen; cbn [drop_duplicates_go].
  - constructor.
  - destruct (decide (key x ∈ seen)); [apply IH|].
    rewrite fmap_cons. constructor; [|apply IH].
    intros (r & Hk & Hr)%list_elem_of_fmap.
    apply drop_duplicates_go_elem in Hr as [_ Hseen]. apply Hseen. rewrite Hk. left.
Qed.

Lemma drop_duplicates_go_sublist {R K} `{EqDecision K} (key : R -> K) seen df :
  drop_duplicates_go key seen df `sublist_of` df.
Proof.
  revert seen. induction df as [|x df IH]; intros seen; cbn [drop_duplicates_go].
  - constructor.
  - destruct (decide (key x ∈ seen)).
    + apply sublist_cons, IH.
    + apply sublist_skip, IH.
Qed.

Lemma drop_duplicates_NoDup {R K} `{EqDecision K} (key : R -> K) df :
  NoDup (key <$> drop_duplicates key df).
Proof. apply drop_duplicates_go_NoDup. Qed.

Lemma drop_duplicates_sublist {R K} `{EqDecision K} (key : R -> K) df :
  drop_duplicates key df `sublist_of` df.
Proof. apply drop_duplicates_go_sublist. Qed.


Lemma drop_errors_values {R} (cell : R -> string) df v :
  v ∈ cell <$> drop_errors cell df
  <-> v ∈ cell <$> df /\ tagged_error v = false.
Proof.
  unfold drop_errors. split.
  - intros (r & -> & [Hclean Hr]%list_elem_of_filter)%list_elem_of_fmap.
    split; [|done]. apply list_elem_of_fmap. now exists r.
  - intros [(r & -> & Hr)%list_elem_of_fmap Hclean]. apply list_elem_of_fmap.
    exists r. split; [done|]. now apply list_elem_of_filter.
Qed.


Lemma drop_errors_value_in {R} (cell : R -> string) df v :
  v ∈ cell <$> drop_errors cell df -> v ∈ cell <$> df /\ tagged_error v = false.
Proof. apply drop_errors_values. Qed.

Lemma drop_errors_sublist {R} (cell : R -> string) df :
  drop_errors cell df `sublist_of` df.
Proof. apply sublist_filter. Qed.

Lemma apply_rxn_map_Ok f df df' :
  apply_rxn_map f df = Ok df' ->
  Forall2 (fun r r' => f (rxn_map r) = Ok (rxn_map r')
                       /\ identity_of r' = identity_of r) df df'.
Proof.
  unfold apply_rxn_map. revert df'. induction df as [|r df IH]; intros df'.
  - intros [= <-]. constructor.
  - cbn [map_result]. destruct (f (rxn_map r)) as [v|e] eqn:Hv; [|discriminate].
    rewrite !bind_Ok.
    destruct (map_result _ df) as [rest|e]; [|discriminate]. rewrite bind_Ok.
    intros [= <-]. constructor; [|now apply IH]. done.
Qed.

Lemma apply_rxn_map_identities f df df' :
  apply_rxn_map f df = Ok df' -> identity_of <$> df' = identity_of <$> df.
Proof.
  intros Hall%apply_rxn_map_Ok. induction Hall as [|r r' df df' [_ Hid] _ IH]; [done|].
  now rewrite !fmap_cons, Hid, IH.
Qed.

Lemma apply_rxn_map_from f df df' v' :
  apply_rxn_map f df = Ok df' -> v' ∈ rxn_map <$> df' ->
  exists v, v ∈ rxn_map <$> df /\ f v = Ok v'.
Proof.
  intros Hall%apply_rxn_map_Ok. induction Hall as [|r r' df df' [Hv _] _ IH].
  - intros []%elem_of_nil.
  - rewrite !fmap_cons. intros [->|Hin]%elem_of_cons.
    + exists (rxn_map r). split; [left|done].
    + destruct (IH Hin) as (v & Hvin & Hfv). exists v. split; [now right|done].
Qed.




Lemma descends_refl {M C} (df : frame M C) : descends df df.
Proof. unfold descends. reflexivity. Qed.

Lemma descends_trans {M C M' C' M'' C''}
    (df : frame M C) (df' : frame M' C') (df'' : frame M'' C'') :
  descends df df' -> descends df' df'' -> descends df df''.
Proof. unfold descends. intros H1 H2. now transitivity (identity_of <$> df'). Qed.

Lemma descends_sublist {M C} (df df' : frame M C) :
  df' `sublist_of` df -> descends df df'.
Proof. intros Hsub. unfold descends. now apply fmap_sublist. Qed.

Lemma descends_apply f df df' : apply_rxn_map f df = Ok df' -> descends df df'.
Proof. intros Heq%apply_rxn_map_identities. unfold descends. now rewrite Heq. Qed.

Lemma count_is_two_descends df : descends df (count_is_two df).
Proof.
  unfold descends, count_is_two. induction df as [|r df IH]; [constructor|].
  cbn [omap list_omap]. rewrite fmap_cons.
  destruct (rxn_map r) as [s|]; [|now apply sublist_cons].
  destruct (count_char ">" s =? 2)%nat; [|now apply sublist_cons].
  rewrite fmap_cons. now apply sublist_skip.
Qed.


(** ** [clean_dataset] *)

(** Step through the binds of a run that returned. *)
Ltac step_stages Hrun :=
  cbv zeta in Hrun;
  repeat match type of Hrun with
         | (apply_rxn_map ?f ?d ≫= _) = Ok _ =>
             let df := fresh "df" in
             let Hstage := fresh "Hstage" in
             destruct (apply_rxn_map f d) as [df|] eqn:Hstage;
             [rewrite bind_Ok in Hrun; cbv zeta in Hrun|discriminate Hrun]
         end.

(** A frame descends from another through the stages that made it. *)
Ltac descend :=
  repeat first
    [ apply descends_refl
    | eapply descends_trans; [|apply descends_sublist, drop_errors_sublist]
    | eapply descends_trans; [|apply descends_sublist, drop_duplicates_sublist]
    | eapply descends_trans; [|apply descends_sublist, sublist_filter]
    | eapply descends_trans; [|eapply descends_apply; eassumption] ].



Section CleanFacts.
Context `{RDKitBonds} `{RxnChemUtils}.

(** *** The stage functions on the rows that reach them *)









Lemma canonicalise_accepted x :
  tagged_error (canonicalise x) = false -> returns (ReactionFromSmarts (canonicalise x)).
Proof.
  unfold canonicalise.
  destruct (_ ≫= _) as [new|]; [|discriminate].
  destruct (ReactionFromSmarts new) as [u|] eqn:Hnew; [|discriminate].
  intros _. rewrite Hnew. by eexists.
Qed.

Lemma remove_mapping_accepted x :
  tagged_error (remove_mapping x) = false -> returns (ReactionFromSmarts (remove_mapping x)).
Proof.
  unfold remove_mapping.
  destruct (_ ≫= _) as [new|]; [|discriminate].
  destruct (ReactionFromSmarts new) as [u|] eqn:Hnew; [|discriminate].
  intros _. rewrite Hnew. by eexists.
Qed.

(** *** The first part: always returns *)



Lemma prepare_descends df df3 : prepare df = Ok df3 -> descends (take 1000 df) df3.
Proof.
  unfold prepare. intros Hrun. step_stages Hrun. injection Hrun as <-.
  eapply descends_trans; [apply count_is_two_descends|]. descend.
Qed.

(** *** The second part: raises exactly on a text without [>>] *)



Lemma filter_reactions_descends df out : filter_reactions df = Ok out -> descends df out.
Proof.
  unfold filter_reactions. intros Hrun. step_stages Hrun. injection Hrun as <-. descend.
Qed.

Lemma filter_reactions_values df out v :
  filter_reactions df = Ok out -> v ∈ rxn_map <$> out ->
  tagged_error v = false /\ exists x, v = canonicalise x.
Proof.
  unfold filter_reactions. intros Hrun. step_stages Hrun. injection Hrun as <-.
  intros [Hv Hclean]%drop_errors_value_in. split; [done|].
  match goal with
  | Hstage : apply_rxn_map (fun s => Ok (canonicalise s)) _ = Ok _ |- _ =>
      destruct (apply_rxn_map_from _ _ _ _ Hstage Hv) as (x & _ & [= Hx])
  end.
  now exists x.
Qed.

(** *** The third part *)

Lemma unmap_and_trim_elem df o :
  o ∈ unmap_and_trim df ->
  rxn_map o ∈ rxn_map <$> df
  /\ canonic_rxn o = remove_mapping (rxn_map o)
  /\ tagged_error (canonic_rxn o) = false
  /\ size_filter (canonic_rxn o) = false.
Proof.
  unfold unmap_and_trim. cbv zeta. intros Ho.
  apply drop_duplicates_go_elem in Ho as [Ho _].
  apply list_elem_of_filter in Ho as [Hsize Ho].
  apply list_elem_of_filter in Ho as [Hclean Ho].
  change (map ?f ?l) with (f <$> l) in Ho.
  apply list_elem_of_fmap in Ho as (r & -> & Hr).
  split; [|done]. apply list_elem_of_fmap. now exists r.
Qed.

Lemma unmap_and_trim_descends df : descends df (unmap_and_trim df).
Proof.
  unfold unmap_and_trim. cbv zeta.
  eapply descends_trans; [|apply descends_sublist, drop_duplicates_sublist].
  eapply descends_trans; [|apply descends_sublist, sublist_filter].
  eapply descends_trans; [|apply descends_sublist, drop_errors_sublist].
  unfold descends. change (map ?f ?l) with (f <$> l).
  rewrite <- list_fmap_compose. reflexivity.
Qed.

(** *** The whole function *)


(** X25.  Every row that [clean_dataset] writes is one of the first 1000 rows it
    read, with the index and the other columns it had, and the rows stand
    in the order in which they were read. *)
Theorem clean_dataset_descends df out :
  clean_dataset df = Ok out -> descends (take 1000 df) out.
Proof.
  unfold clean_dataset.
  destruct (prepare df) as [df3|] eqn:Hprep; [|discriminate]. rewrite bind_Ok.
  destruct (filter_reactions df3) as [df10|] eqn:Hfilter; [|discriminate].
  rewrite bind_Ok. intros [= <-].
  apply (descends_trans _ df3); [now apply prepare_descends|].
  apply (descends_trans _ df10); [now apply filter_reactions_descends|].
  apply unmap_and_trim_descends.
Qed.

(** X26.  In a row that [clean_dataset] writes, [rxn_map] is a result of
    [canonicalise] and [canonic_rxn] is what [remove_mapping] makes of it;
    neither holds "Error", both passed the validity check of the toolkit,
    and [canonic_rxn] has at most 512 characters. *)
Theorem clean_dataset_rows df out o :
  clean_dataset df = Ok out -> o ∈ out ->
  (exists x, rxn_map o = canonicalise x)
  /\ canonic_rxn o = remove_mapping (rxn_map o)
  /\ tagged_error (rxn_map o) = false
  /\ tagged_error (canonic_rxn o) = false
  /\ returns (ReactionFromSmarts (rxn_map o))
  /\ returns (ReactionFromSmarts (canonic_rxn o))
  /\ (String.length (canonic_rxn o) <= 512)%nat.
Proof.
  unfold clean_dataset.
  destruct (prepare df) as [df3|] eqn:Hprep; [|discriminate]. rewrite bind_Ok.
  destruct (filter_reactions df3) as [df10|] eqn:Hfilter; [|discriminate].
  rewrite bind_Ok. intros [= <-] Ho.
  apply unmap_and_trim_elem in Ho as (Hv & Hcanon & Hclean & Hsize).
  destruct (filter_reactions_values _ _ _ Hfilter Hv) as (Hclean' & x & Hx).
  split; [now exists x|]. split; [done|]. split; [done|]. split; [done|].
  split; [|split].
  - rewrite Hx in *. now apply canonicalise_accepted.
  - rewrite Hcanon in *. now apply remove_mapping_accepted.
  - unfold size_filter in Hsize. now apply Nat.ltb_ge in Hsize.
Qed.

(** X27.  No two rows that [clean_dataset] writes have the same [canonic_rxn]. *)
Theorem clean_dataset_distinct df out :
  clean_dataset df = Ok out -> NoDup (canonic_rxn <$> out).
Proof.
  unfold clean_dataset.
  destruct (prepare df) as [df3|]; [|discriminate]. rewrite bind_Ok.
  destruct (filter_reactions df3) as [df10|]; [|discriminate].
  rewrite bind_Ok. intros [= <-]. apply drop_duplicates_NoDup.
Qed.

End CleanFacts.

(** * Filtering and splitting by template *)

Lemma filter_all {A} (P : A -> Prop) `{!forall x, Decision (P x)} (l : list A) :
  Forall P l -> filter P l = l.
Proof.
  induction 1 as [|x l Hx _ IH]; [done|]. now rewrite filter_cons_True, IH.
Qed.

Lemma filter_none {A} (P : A -> Prop) `{!forall x, Decision (P x)} (l : list A) :
  (forall x, ~ P x) -> filter P l = [].
Proof.
  intros Hnone. induction l as [|x l IH]; [done|]. now rewrite filter_cons_False.
Qed.

(** ** [filter_templates] *)

Lemma filter_templates_large {R} (template : R -> option string) df threshold t :
  (threshold <? Z.of_nat (group_size template t df))%Z = true ->
  group_size template t (filter_templates template df threshold)
  = group_size template t df.
Proof.
  intros Hlarge. unfold filter_templates. unfold group_size at 1.
  rewrite list_filter_filter. unfold group_size. f_equal.
  apply list_filter_iff. intros r. split; [now intros [? _]|].
  intros Hr. split; [done|]. unfold in_large_group. now rewrite Hr.
Qed.

(** X28.  [filter_templates] keeps a template with all of its rows or drops it
    with all of its rows: the group of a template has its full size when
    that size is above the threshold and is empty otherwise. *)
Theorem filter_templates_whole_groups {R} (template : R -> option string) df threshold t :
  group_size template t (filter_templates template df threshold)
  = if (threshold <? Z.of_nat (group_size template t df))%Z
    then group_size template t df else 0.
Proof.
  destruct (threshold <? Z.of_nat (group_size template t df))%Z eqn:Hlarge.
  - now apply filter_templates_large.
  - unfold filter_templates. unfold group_size at 1. rewrite list_filter_filter.
    rewrite filter_none; [done|]. intros r [Hr Hkeep].
    unfold in_large_group in Hkeep. rewrite Hr in Hkeep. congruence.
Qed.

Lemma filter_templates_kept {R} (template : R -> option string) df threshold r :
  r ∈ filter_templates template df threshold ->
  in_large_group template (filter_templates template df threshold) threshold r = true.
Proof.
  intros [Hkeep _]%list_elem_of_filter. unfold in_large_group in *.
  destruct (template r) as [t|]; [|done].
  now rewrite (filter_templates_large template df threshold t Hkeep).
Qed.

(** X29.  Filtering a second time with the same threshold drops nothing more. *)
Theorem filter_templates_idempotent {R} (template : R -> option string) df threshold :
  filter_templates template (filter_templates template df threshold) threshold
  = filter_templates template df threshold.
Proof.
  unfold filter_templates at 1. apply filter_all, Forall_forall.
  intros r Hr. now apply filter_templates_kept.
Qed.

(** ** [full_dataset_product_split] *)

Lemma assign_products_NoDup tot groups st :
  NoDup (test_products st ++ val_products st ++ groups.*1) ->
  NoDup (test_products (assign_products tot st groups)
           ++ val_products (assign_products tot st groups)).
Proof.
  revert st. induction groups as [|[product times] rest IH]; intros st Hdup.
  - cbn in Hdup. now rewrite app_nil_r in Hdup.
  - cbn [assign_products]. cbv zeta. rewrite fmap_cons in Hdup. cbn [fst] in Hdup.
    destruct (test_on st).
    + assert (Hnext : NoDup ((test_products st ++ [product])
                               ++ val_products st ++ rest.*1)).
      { revert Hdup. apply NoDup_Permutation_proper. solve_Permutation. }
      destruct (tot <? counter st + times)%Z; now apply IH.
    + assert (Hnext : NoDup (test_products st
                               ++ (val_products st ++ [product]) ++ rest.*1)).
      { revert Hdup. apply NoDup_Permutation_proper. solve_Permutation. }
      destruct (tot <? counter st + times)%Z; [|now apply IH].
      cbn. rewrite (assoc_L (++)) in Hnext. now apply NoDup_app in Hnext as [? _].
Qed.

Lemma group_sizes_NoDup {R} (products : R -> string) data :
  NoDup (group_sizes products data).*1.
Proof.
  unfold group_sizes.
  pose proof (NoDup_remove_dups (map products data)) as Hdup.
  revert Hdup. generalize (remove_dups (map products data)). intros keys Hdup.
  induction Hdup as [|p keys Hp _ IH]; [constructor|].
  cbn [map]. rewrite fmap_cons. cbn [fst]. constructor; [|exact IH].
  change (map ?f keys) with (f <$> keys).
  rewrite <- list_fmap_compose. intros (q & -> & Hq)%list_elem_of_fmap. contradiction.
Qed.

Lemma three_way {A} (T V : A -> bool) (l : list A) :
  (forall x, T x = true -> V x = false) ->
  l ≡ₚ filter (fun x => negb (T x || V x) = true) l
       ++ filter (fun x => V x = true) l
       ++ filter (fun x => T x = true) l.
Proof.
  intros Hexcl. induction l as [|x l IH]; [done|].
  destruct (T x) eqn:HT.
  - rewrite (filter_cons_False _ x) by (rewrite HT; discriminate).
    rewrite (filter_cons_False _ x) by (rewrite (Hexcl x HT); discriminate).
    rewrite (filter_cons_True _ x) by done.
    rewrite <- ?app_comm_cons, <- ?Permutation_middle. now constructor.
  - destruct (V x) eqn:HV.
    + rewrite (filter_cons_False _ x) by (rewrite HT, HV; discriminate).
      rewrite (filter_cons_True _ x) by done.
      rewrite (filter_cons_False _ x) by (rewrite HT; discriminate).
      rewrite <- ?app_comm_cons, <- ?Permutation_middle. now constructor.
    + rewrite (filter_cons_True _ x) by now rewrite HT, HV.
      rewrite (filter_cons_False _ x) by (rewrite HV; discriminate).
      rewrite (filter_cons_False _ x) by (rewrite HT; discriminate).
      rewrite <- ?app_comm_cons. now constructor.
Qed.

(** X30.  When the shuffle returns the groups it was given in some order, the
    three sets divide the rows of [data] among them, each set in the order
    of [data], and no product has rows in two sets. *)
Theorem product_split_no_leak {R} (products : R -> string) scaled sample data
    train val test :
  (forall groups, sample groups ≡ₚ groups) ->
  full_dataset_product_split products scaled sample data = (train, val, test) ->
  data ≡ₚ train ++ val ++ test
  /\ (train `sublist_of` data /\ val `sublist_of` data /\ test `sublist_of` data)
  /\ (forall a b, a ∈ train -> b ∈ val ++ test -> products a <> products b)
  /\ (forall a b, a ∈ val -> b ∈ test -> products a <> products b).
Proof.
  intros Hsample. unfold full_dataset_product_split. cbv zeta.
  set (st := assign_products _ _ _). intros [= <- <- <-].
  assert (Hdup : NoDup (test_products st ++ val_products st)).
  { apply assign_products_NoDup. cbn.
    rewrite (Hsample (group_sizes products data)). apply group_sizes_NoDup. }
  apply NoDup_app in Hdup as (_ & Hexcl & _).
  split; [|split; [|split]].
  - apply (three_way (fun r => bool_decide (products r ∈ test_products st))
                     (fun r => bool_decide (products r ∈ val_products st))).
    intros r Hr%bool_decide_eq_true. apply bool_decide_eq_false. now apply Hexcl.
  - repeat split; apply sublist_filter.
  - intros a b [Ha _]%list_elem_of_filter Hb Heq.
    apply negb_true_iff, orb_false_iff in Ha as [Ht%bool_decide_eq_false Hv%bool_decide_eq_false].
    rewrite Heq in Ht, Hv.
    apply elem_of_app in Hb as [[Hb _]%list_elem_of_filter|[Hb _]%list_elem_of_filter];
      apply bool_decide_eq_true in Hb; contradiction.
  - intros a b [Ha%bool_decide_eq_true _]%list_elem_of_filter
               [Hb%bool_decide_eq_true _]%list_elem_of_filter Heq.
    rewrite Heq in Ha. now apply (Hexcl _ Hb).
Qed.

(** * Further concrete runs *)

Section MoreRuns.
Local Existing Instance Toy.rdkit.

(** Five reactant compounds: four dots, the row is tagged. *)
Lemma reactant_count_filter_dots_witness :
  split ">>" "A.B.C.D.E>>F" = ["A.B.C.D.E"; "F"]
  /\ reactant_count_filter "A.B.C.D.E>>F" = Ok "Error: too many reactants".
Proof.
  split; [reflexivity|].
  apply (reactant_count_filter_dots "A.B.C.D.E>>F" "A.B.C.D.E" ["F"]). reflexivity.
Defined.

(** A product without map numbers: every reactant goes. *)
Lemma remove_reagents_unmapped_product_witness :
  index (split ">>" "[C:1].O>>CO") 1 = Ok "CO"
  /\ findall_maps "CO" = []
  /\ remove_reagents "[C:1].O>>CO" = Ok ">>CO".
Proof.
  split; [reflexivity|]. split; [reflexivity|].
  apply (remove_reagents_unmapped_product "[C:1].O>>CO" "CO"); reflexivity.
Defined.

Lemma multiproduct_fixer_one_product_witness :
  multiproduct_fixer "A>>CC.CCCCCC" = Ok "A>>CCCCCC"
  /\ tagged_error "A>>CCCCCC" = false
  /\ index (split ">>" "A>>CCCCCC") 0 = index (split ">>" "A>>CC.CCCCCC") 0
  /\ exists p, index (split ">>" "A>>CCCCCC") 1 = Ok p
       /\ length (split "." p) = 1%nat
       /\ parses p.
Proof.
  split; [vm_compute; reflexivity|]. split; [reflexivity|].
  apply (multiproduct_fixer_one_product "A>>CC.CCCCCC" "A>>CCCCCC");
    [vm_compute; reflexivity|reflexivity].
Defined.

Lemma accepted_row_is_safe_witness :
  multiproduct_fixer "A>>CC.[C@]CCCCC" = Ok "A>>[C@]CCCCC"
  /\ tagged_error "A>>[C@]CCCCC" = false
  /\ (no_carbon "A>>[C@]CCCCC" = Ok "A>>[C@]CCCCC"
      \/ no_carbon "A>>[C@]CCCCC" = Ok "Error: no organic product")
  /\ exists out', remove_stereoalchemy "A>>[C@]CCCCC" = Ok out'
       /\ returns (product_in_reactants out').
Proof.
  split; [vm_compute; reflexivity|]. split; [reflexivity|].
  apply (accepted_row_is_safe "A>>CC.[C@]CCCCC" "A>>[C@]CCCCC");
    [vm_compute; reflexivity|reflexivity].
Defined.

End MoreRuns.

(** Two different hydrogen-change dictionaries with the same code: the
    label fixes the codes, not the dictionaries. *)
Lemma label_determines_fields_witness :
  get_full_template "B>>A" {[ 1%Z := 1%Z; 2%Z := 0%Z ]} {[ 1%Z := (-1)%Z ]} ∅
    = Ok "B>>A_10_-1"
  /\ get_full_template "B>>A" {[ 1%Z := 10%Z ]} {[ 1%Z := (-1)%Z ]} ∅
    = Ok "B>>A_10_-1"
  /\ has_char "_" "B>>A" = false
  /\ "B>>A" = "B>>A"
  /\ change_code {[ 1%Z := 1%Z; 2%Z := 0%Z ]} = change_code {[ 1%Z := 10%Z ]}
  /\ change_code ({[ 1%Z := (-1)%Z ]} : gmap Z Z) = change_code {[ 1%Z := (-1)%Z ]}
  /\ change_code (∅ : gmap Z Z) = change_code ∅.
Proof.
  split; [vm_compute; reflexivity|]. split; [vm_compute; reflexivity|].
  split; [reflexivity|].
  apply (label_determines_fields "B>>A" {[ 1%Z := 1%Z; 2%Z := 0%Z ]} {[ 1%Z := (-1)%Z ]} ∅
           "B>>A" {[ 1%Z := 10%Z ]} {[ 1%Z := (-1)%Z ]} ∅ "B>>A_10_-1");
    vm_compute; reflexivity.
Defined.

Lemma rows_are_the_labels_witness :
  exists infos labels,
    extract_templates Toy.rxns Toy.args Toy.extractor = Running (infos, labels)
    /\ NoDup (map Template infos)
    /\ (forall l, l ∈ map Template infos <-> l ∈ labels /\ l <> "NaN").
Proof.
  eexists _, _. split; [vm_compute; reflexivity|].
  eapply (rows_are_the_labels Toy.rxns Toy.args Toy.extractor). vm_compute. reflexivity.
Defined.

Lemma frequency_bounds_witness :
  exists infos labels row,
    extract_templates Toy.rxns Toy.args Toy.extractor = Running (infos, labels)
    /\ row ∈ infos
    /\ (1 <= Frequency row <= Z.of_nat (length Toy.rxns))%Z.
Proof.
  eexists _, _, _. split; [vm_compute; reflexivity|]. split; [constructor|].
  eapply (frequency_bounds Toy.rxns Toy.args Toy.extractor);
    [vm_compute; reflexivity|constructor].
Defined.

Lemma no_stereo_no_chirality_witness :
  exists infos labels row,
    use_stereo {| use_stereo := false; retro := false |} = false
    /\ extract_templates Toy.rxns {| use_stereo := false; retro := false |} Toy.extractor
       = Running (infos, labels)
    /\ row ∈ infos
    /\ change_S row = ∅.
Proof.
  eexists _, _, _. split; [reflexivity|]. split; [vm_compute; reflexivity|].
  split; [constructor|].
  eapply (no_stereo_no_chirality Toy.rxns {| use_stereo := false; retro := false |}
            Toy.extractor);
    [reflexivity|vm_compute; reflexivity|constructor].
Defined.

(** The fourth record of the sample input has no pair [>>]. *)
Lemma unsplit_record_is_NaN_witness :
  exists infos labels,
    extract_templates Toy.rxns Toy.args Toy.extractor = Running (infos, labels)
    /\ Toy.rxns !! 3 = Some "nosep"
    /\ ~ merged_form "nosep"
    /\ (forall other, read_record Toy.args other 3 "nosep" = Raise IndexError)
    /\ labels !! 3 = Some "NaN".
Proof.
  assert (Hn : ~ merged_form "nosep") by (unfold merged_form; simpl; discriminate).
  eexists _, _. split; [vm_compute; reflexivity|]. split; [reflexivity|].
  split; [exact Hn|].
  eapply (unsplit_record_is_NaN Toy.rxns Toy.args Toy.extractor);
    [vm_compute; reflexivity|reflexivity|exact Hn].
Defined.

(** An interrupt at the second of three records. *)
Lemma first_interrupt_ends_scan_witness :
  ["A>>B"; "stop>>X"; "C>>D"] !! 1 = Some "stop>>X"
  /\ read_record Toy.args Toy.interrupted_extractor 1 "stop>>X" = Raise KeyboardInterrupt
  /\ is_Exception KeyboardInterrupt = false
  /\ extract_templates ["A>>B"; "stop>>X"; "C>>D"] Toy.args Toy.interrupted_extractor
     = Exited.
Proof.
  split; [reflexivity|]. split; [vm_compute; reflexivity|]. split; [reflexivity|].
  apply (first_interrupt_ends_scan ["A>>B"; "stop>>X"; "C>>D"] Toy.args
           Toy.interrupted_extractor 1 "stop>>X" KeyboardInterrupt).
  - reflexivity.
  - vm_compute. reflexivity.
  - reflexivity.
  - intros [|j] reaction' Hj Hr; [|lia]. injection Hr as <-. vm_compute. exact I.
Defined.

(** The sample input and the sample input followed by two more records. *)
Lemma scan_is_append_only_witness :
  exists infos labels infos' labels',
    extract_templates Toy.rxns Toy.args Toy.extractor = Running (infos, labels)
    /\ extract_templates (Toy.rxns ++ ["A>>B"; "E>>F"]) Toy.args Toy.extractor
       = Running (infos', labels')
    /\ labels `prefix_of` labels'
    /\ forall n row, infos !! n = Some row ->
         exists row', infos' !! n = Some row'
           /\ Template row' = Template row
           /\ edit_site row' = edit_site row
           /\ change_H row' = change_H row
           /\ change_C row' = change_C row
           /\ change_S row' = change_S row
           /\ (Frequency row <= Frequency row')%Z.
Proof.
  eexists _, _, _, _. split; [vm_compute; reflexivity|].
  split; [vm_compute; reflexivity|].
  eapply (scan_is_append_only Toy.rxns ["A>>B"; "E>>F"] Toy.args Toy.extractor);
    vm_compute; reflexivity.
Defined.

Lemma rows_in_order_of_first_occurrence_witness :
  exists infos labels row1 row2,
    extract_templates Toy.rxns Toy.args Toy.extractor = Running (infos, labels)
    /\ 0 < 1
    /\ infos !! 0 = Some row1
    /\ infos !! 1 = Some row2
    /\ exists i j,
         first_index (Template row1) labels = Some i
         /\ first_index (Template row2) labels = Some j
         /\ i < j.
Proof.
  eexists _, _, _, _. split; [vm_compute; reflexivity|]. split; [lia|].
  split; [reflexivity|]. split; [reflexivity|].
  eapply (rows_in_order_of_first_occurrence Toy.rxns Toy.args Toy.extractor _ _ 0 1);
    [vm_compute; reflexivity|lia|reflexivity|reflexivity].
Defined.

Lemma retro_is_irrelevant_witness :
  use_stereo Toy.args = use_stereo {| use_stereo := true; retro := false |}
  /\ extract_templates Toy.rxns Toy.args Toy.extractor
     = extract_templates Toy.rxns {| use_stereo := true; retro := false |} Toy.extractor.
Proof.
  split; [reflexivity|].
  apply (retro_is_irrelevant Toy.rxns Toy.args {| use_stereo := true; retro := false |}
           Toy.extractor).
  reflexivity.
Defined.

(** Arguments that set ['retro'] and ['max_unmap'] and carry a key the
    setting does not know. *)
Lemma build_template_extractor_setting_witness :
  exists extractor,
    build_template_extractor (fun _ _ => Ok None)
      {[ "retro" := PVBool true; "max_unmap" := PVInt 3; "batch" := PVInt 8 ]}
    = Ok extractor
    /\ exists setting : gmap string pyval,
         extractor = (fun x => Ok None)
         /\ (forall k, is_Some (setting !! k) <-> k ∈ default_setting.*1)
         /\ setting !! "max_unmap" = Some (PVInt 3)
         /\ setting !! "use_symbol" = Some (PVBool true).
Proof.
  eexists. split; [vm_compute; reflexivity|].
  destruct (build_template_extractor_setting (fun _ _ => Ok None)
              {[ "retro" := PVBool true; "max_unmap" := PVInt 3; "batch" := PVInt 8 ]}
              (fun _ => Ok None))
    as (setting & Hext & Hkeys & Hvals & Hsym); [vm_compute; reflexivity|].
  exists setting. split; [reflexivity|]. split; [exact Hkeys|]. split.
  - rewrite Hvals; [reflexivity| |discriminate].
    cbn [fmap list_fmap default_setting fst]. do 3 right. left.
  - rewrite Hsym. reflexivity.
Defined.

Section FrameRuns.
Local Existing Instance Toy.rdkit.
Local Existing Instance ToyFrame.bonds.
Local Existing Instance ToyFrame.chemutils.

(** A compound with [~] that the toolkit does not read: the fallback puts a
    dot in its place. *)
Lemma untangle_tildes_no_tilde_witness :
  untangle_tildes "[C:1]~[N:2].O>>[C:1]O" = Ok "[C:1].[N:2].O>>[C:1]O"
  /\ has_char "~" "[C:1].[N:2].O>>[C:1]O" = false.
Proof.
  split; [vm_compute; reflexivity|].
  apply (untangle_tildes_no_tilde "[C:1]~[N:2].O>>[C:1]O"). vm_compute. reflexivity.
Defined.

Lemma untangle_tildes_identity_witness :
  count_char ">" "[C:1]O>N>[C:1]C |f:0.1|" = 2%nat
  /\ has_char "~" "[C:1]O>N>[C:1]C |f:0.1|" = false
  /\ untangle_tildes "[C:1]O>N>[C:1]C |f:0.1|" = Ok "[C:1]O>N>[C:1]C |f:0.1|".
Proof.
  split; [reflexivity|]. split; [reflexivity|].
  apply (untangle_tildes_identity "[C:1]O>N>[C:1]C |f:0.1|"); reflexivity.
Defined.

(** Of the eight rows of the sample frame, two are written. *)
Lemma clean_dataset_descends_witness :
  exists out,
    clean_dataset ToyFrame.df = Ok out
    /\ identity_of <$> out = [(10%Z, [("patent", "EP1")]); (15%Z, [("patent", "EP6")])]
    /\ descends (take 1000 ToyFrame.df) out.
Proof.
  eexists. split; [vm_compute; reflexivity|]. split; [reflexivity|].
  apply (clean_dataset_descends ToyFrame.df). vm_compute. reflexivity.
Defined.

Lemma clean_dataset_rows_witness :
  exists out o,
    clean_dataset ToyFrame.df = Ok out
    /\ o ∈ out
    /\ (exists x, rxn_map o = canonicalise x)
    /\ canonic_rxn o = remove_mapping (rxn_map o)
    /\ tagged_error (rxn_map o) = false
    /\ tagged_error (canonic_rxn o) = false
    /\ returns (ReactionFromSmarts (rxn_map o))
    /\ returns (ReactionFromSmarts (canonic_rxn o))
    /\ (String.length (canonic_rxn o) <= 512)%nat.
Proof.
  eexists _, _. split; [vm_compute; reflexivity|]. split; [constructor|].
  eapply (clean_dataset_rows ToyFrame.df); [vm_compute; reflexivity|constructor].
Defined.

Lemma clean_dataset_distinct_witness :
  exists out,
    clean_dataset ToyFrame.df = Ok out
    /\ NoDup (canonic_rxn <$> out).
Proof.
  eexists. split; [vm_compute; reflexivity|].
  apply (clean_dataset_distinct ToyFrame.df). vm_compute. reflexivity.
Defined.

End FrameRuns.

(** The sample rows, split with the groups read in reverse and a target of
    one row for the test set and for the validation set. *)
Lemma product_split_no_leak_witness :
  (forall groups : list (string * Z), reverse groups ≡ₚ groups)
  /\ exists train val test,
       full_dataset_product_split snd (fun _ => 1%Z) reverse sample_rows
       = (train, val, test)
       /\ sample_rows ≡ₚ train ++ val ++ test
       /\ (train `sublist_of` sample_rows /\ val `sublist_of` sample_rows
           /\ test `sublist_of` sample_rows)
       /\ (forall a b, a ∈ train -> b ∈ val ++ test -> a.2 <> b.2)
       /\ (forall a b, a ∈ val -> b ∈ test -> a.2 <> b.2).
Proof.
  split; [intros groups; apply reverse_Permutation|].
  eexists _, _, _. split; [vm_compute; reflexivity|].
  apply (product_split_no_leak snd (fun _ => 1%Z) reverse sample_rows);
    [intros groups; apply reverse_Permutation|vm_compute; reflexivity].
Defined.
